(** * Weather proxy backend ([Backend/app.py]): cache keys, upstream client,
      TTL cache and the [/weather] route.

    The development follows the layout of the Python module.  Python values
    are represented as follows.

    - [str] is [string]; a character is a code point below 256.
    - A [dict] with [str] keys and values is the list of its items in
      insertion order.
    - Integers (status codes, configured sizes) are [Z]; clock readings are
      [Z] ticks of the monotonic clock.
    - A raised exception is an explicit [Raise] result.

    The libraries are modelled as far as the module uses them:
    [cachetools] 5 ([TTLCache], [cached]), [requests] 2 on [urllib3]
    ([Session.get] with a mounted [HTTPAdapter] and its [Retry]) and
    [flask] 2.2 or later ([request.args], [make_response]). *)

From Stdlib Require Import String Ascii List ZArith NArith Bool Lia.
From Stdlib Require Import Permutation Sorted.
Import ListNotations.

Local Open Scope string_scope.
Local Open Scope list_scope.

Infix "+++" := String.append (right associativity, at level 60).

(** ** Python built-ins used by the module *)

Module Py.

(** Characters that take part in [repr]. *)
Definition bslash : ascii := "\"%char.
Definition squote : ascii := "'"%char.
Definition dquote : ascii := "034"%char.

Definition dict := list (string * string).

(** [str.__contains__] for a single character. *)
Fixpoint has_char (c : ascii) (s : string) : bool :=
  match s with
  | EmptyString => false
  | String a s' => Ascii.eqb a c || has_char c s'
  end.

(** [str.isprintable] on one code point below 256: the printable ASCII
    range, and Latin-1 letters and symbols except NBSP and soft hyphen. *)
Definition isprintable (c : ascii) : bool :=
  let n := N_of_ascii c in
  ((32 <=? n) && (n <? 127) || (161 <=? n) && negb (n =? 173))%N.

Definition hexdigit (n : N) : ascii :=
  match String.get (N.to_nat n) "0123456789abcdef" with
  | Some c => c
  | None => "0"%char
  end.

(** The two lower-case hexadecimal digits of [\xhh]. *)
Definition hex2 (c : ascii) : string :=
  let n := N_of_ascii c in
  String (hexdigit (n / 16)) (String (hexdigit (n mod 16)) "").

(** One character of [repr(str)], for the chosen quote [q]. *)
Definition repr_char (q c : ascii) : string :=
  let n := N_of_ascii c in
  if Ascii.eqb c q || Ascii.eqb c bslash then String bslash (String c "")
  else if (n =? 9)%N then "\t"
  else if (n =? 10)%N then "\n"
  else if (n =? 13)%N then "\r"
  else if ((n <? 32) || (n =? 127))%N then "\x" +++ hex2 c
  else if (n <? 127)%N then String c ""
  else if isprintable c then String c ""
  else "\x" +++ hex2 c.

Fixpoint repr_body (q : ascii) (s : string) : string :=
  match s with
  | EmptyString => ""
  | String c s' => repr_char q c +++ repr_body q s'
  end.

(** [repr] picks double quotes only when the string has a single quote and
    no double quote. *)
Definition repr_quote (s : string) : ascii :=
  if has_char squote s && negb (has_char dquote s) then dquote else squote.

(** [repr(s)] for a [str]. *)
Definition repr_str (s : string) : string :=
  let q := repr_quote s in
  String q (repr_body q s +++ String q "").

(** [repr((k, v))] for a pair of strings. *)
Definition repr_item (kv : string * string) : string :=
  "(" +++ repr_str (fst kv) +++ ", " +++ repr_str (snd kv) +++ ")".

(** [", ".join(...)] over the items of a non-empty tuple. *)
Fixpoint repr_items (x : string * string) (l : list (string * string))
  : string :=
  match l with
  | [] => repr_item x
  | y :: l' => repr_item x +++ ", " +++ repr_items y l'
  end.

(** [repr(t)] for a tuple of pairs: [()], [(x,)] or [(x, y, ...)]. *)
Definition repr_tuple (t : list (string * string)) : string :=
  match t with
  | [] => "()"
  | [x] => "(" +++ repr_item x +++ ",)"
  | x :: l => "(" +++ repr_items x l +++ ")"
  end.

(** [a < b] on tuples: the first differing component decides. *)
Definition tuple_lt (a b : string * string) : bool :=
  if String.eqb (fst a) (fst b) then String.ltb (snd a) (snd b)
  else String.ltb (fst a) (fst b).

(** [sorted] is a stable sort that only uses [<]; each element goes after
    every element that is not greater. *)
Fixpoint insort (x : string * string) (l : list (string * string)) :=
  match l with
  | [] => [x]
  | y :: l' => if tuple_lt x y then x :: y :: l' else y :: insort x l'
  end.

Definition sorted (l : list (string * string)) : list (string * string) :=
  fold_left (fun acc x => insort x acc) l [].

(** [s.lstrip(c)] for a one-character set. *)
Fixpoint lstrip (c : ascii) (s : string) : string :=
  match s with
  | String a s' => if Ascii.eqb a c then lstrip c s' else s
  | EmptyString => EmptyString
  end.

(** [d.get(k)]: the value stored under [k], if any; [k in d] holds when
    there is one. *)
Fixpoint get (k : string) (d : dict) : option string :=
  match d with
  | [] => None
  | (k', v) :: d' => if String.eqb k' k then Some v else get k d'
  end.

(** [d.pop(k)] on a present key removes the item. *)
Fixpoint remove (k : string) (d : dict) : dict :=
  match d with
  | [] => []
  | (k', v) :: d' => if String.eqb k' k then d' else (k', v) :: remove k d'
  end.

(** [d[k] = v]: an existing key keeps its position, a new one goes last. *)
Fixpoint set (k v : string) (d : dict) : dict :=
  match d with
  | [] => [(k, v)]
  | (k', v') :: d' =>
      if String.eqb k' k then (k, v) :: d' else (k', v') :: set k v d'
  end.

(** Truthiness of an optional string: [None] and [""] are false. *)
Definition truthy (o : option string) : bool :=
  match o with
  | Some (String _ _) => true
  | _ => false
  end.

(** [a or b] on optional strings. *)
Definition or_else (a b : option string) : option string :=
  if truthy a then a else b.

End Py.

(** ** Values, exceptions and results *)

#[local] Unset Elimination Schemes.

(** A decoded JSON document.  Numbers keep their literal text. *)
Inductive json : Type :=
  | JNull
  | JBool (b : bool)
  | JNum (literal : string)
  | JStr (s : string)
  | JArr (items : list json)
  | JObj (members : list (string * json)).

#[local] Set Elimination Schemes.

(** What [_forward_get] hands back next to the status code: a decoded
    document or the raw text. *)
Inductive payload : Type :=
  | Json (j : json)
  | Text (s : string).

(** The subclasses of [requests.exceptions.RequestException] that the
    session raises for this module.  The three exceptions about a URL that
    cannot be used stand for [MissingSchema], [InvalidSchema] and
    [InvalidURL]. *)
Inductive request_error : Type :=
  | ConnectionError (reason : string)
  | RetryError (status : Z)
  | HTTPError (status : Z) (url : string)
  | TooManyRedirects
  | ChunkedEncodingError (reason : string)
  | ContentDecodingError (reason : string)
  | MissingSchema (url : string)
  | InvalidSchema (url : string)
  | InvalidURL (url : string).

Inductive exn : Type :=
  | KeyError (key : string)
  | ValueError (msg : string)
  | TypeError (msg : string)
  | RecursionError (msg : string)
  | RequestException (e : request_error).

Inductive result (A : Type) : Type :=
  | Return (a : A)
  | Raise (e : exn).

Arguments Return {A} a.
Arguments Raise {A} e.

(** ** [cachetools.TTLCache]

    The class as cachetools 5 has it, with the default [getsizeof].  The
    cache keeps, per key, the stored value and the expiry time of its
    link.  [links] is the ordered dictionary of links (least recently used
    key first); [chain] is the linked list of the same links in the order
    they were last stored, which [expire] walks from the front.  Every value
    has size 1. *)

Module Cachetools.

Section Cache.
Context {V : Type}.

Record TTLCache : Type := {
  maxsize : Z;
  ttl : Z;
  links : list (string * (V * Z));
  chain : list (string * Z)
}.

(** [TTLCache(maxsize, ttl)] *)
Definition empty (maxsize ttl : Z) : TTLCache :=
  {| maxsize := maxsize; ttl := ttl; links := []; chain := [] |}.

Fixpoint assoc {A : Type} (k : string) (l : list (string * A)) : option A :=
  match l with
  | [] => None
  | (k', a) :: l' => if String.eqb k' k then Some a else assoc k l'
  end.

Fixpoint drop {A : Type} (k : string) (l : list (string * A))
  : list (string * A) :=
  match l with
  | [] => []
  | (k', a) :: l' => if String.eqb k' k then l' else (k', a) :: drop k l'
  end.

Definition currsize (c : TTLCache) : Z := Z.of_nat (List.length (links c)).

Definition with_links (c : TTLCache) (lk : list (string * (V * Z)))
           (ch : list (string * Z)) : TTLCache :=
  {| maxsize := maxsize c; ttl := ttl c; links := lk; chain := ch |}.

(** [expire(time)]: from the front of the chain, delete every link with
    [not (time < link.expires)]; stop at the first live one. *)
Fixpoint expire_chain (time : Z) (ch : list (string * Z))
         (lk : list (string * (V * Z)))
  : list (string * (V * Z)) * list (string * Z) :=
  match ch with
  | [] => (lk, [])
  | (k, e) :: rest =>
      if (time <? e)%Z then (lk, ch) else expire_chain time rest (drop k lk)
  end.

Definition expire (time : Z) (c : TTLCache) : TTLCache :=
  let (lk, ch) := expire_chain time (chain c) (links c) in
  with_links c lk ch.

(** [__getlink(key)] moves the key to the end of the ordered dictionary. *)
Definition move_to_end (k : string) (lk : list (string * (V * Z)))
  : list (string * (V * Z)) :=
  match assoc k lk with
  | Some a => drop k lk ++ [(k, a)]
  | None => lk
  end.

(** [cache[key]] at clock reading [time]: [KeyError] when there is no link
    or when [not (time < link.expires)]. *)
Definition getitem (time : Z) (key : string) (c : TTLCache)
  : result V * TTLCache :=
  match assoc key (links c) with
  | None => (Raise (KeyError key), c)
  | Some (v, e) =>
      let c' := with_links c (move_to_end key (links c)) (chain c) in
      if (time <? e)%Z then (Return v, c') else (Raise (KeyError key), c')
  end.

(** [popitem()] inside a frozen timer: expire, then remove the first key of
    the ordered dictionary; [pop] raises [KeyError] when that key is no
    longer live, and [popitem] raises it when the cache is empty. *)
Definition popitem (time : Z) (c : TTLCache) : result unit * TTLCache :=
  let c1 := expire time c in
  match links c1 with
  | [] => (Raise (KeyError "TTLCache is empty"), c1)
  | (k, (v, e)) :: _ =>
      if (time <? e)%Z
      then (Return tt, with_links c1 (drop k (links c1)) (drop k (chain c1)))
      else (Raise (KeyError k), c1)
  end.

(** [while self.currsize + size > maxsize: self.popitem()], for at most
    [fuel] rounds; [None] when the rounds run out. *)
Fixpoint evict_loop (fuel : nat) (time : Z) (c : TTLCache)
  : option (result unit * TTLCache) :=
  if (maxsize c <? currsize c + 1)%Z then
    match fuel with
    | O => None
    | S fuel' =>
        match popitem time c with
        | (Return _, c') => evict_loop fuel' time c'
        | (Raise e, c') => Some (Raise e, c')
        end
    end
  else Some (Return tt, c).

(** The loop itself.  A call of [popitem] that returns removes a link, so
    one round more than there are links is enough for the loop to end. *)
Definition evict (time : Z) (c : TTLCache) : result unit * TTLCache :=
  match evict_loop (S (List.length (links c))) time c with
  | Some r => r
  | None => (Return tt, c)
  end.

(** [cache[key] = value] at clock reading [time].  Expired links go first;
    a value larger than [maxsize] is refused with [ValueError]; a new key
    evicts until there is room; the link of the key is then (re)created at
    the end of both orders with [expires = time + ttl]. *)
Definition setitem (time : Z) (key : string) (value : V) (c : TTLCache)
  : result unit * TTLCache :=
  let c1 := expire time c in
  if (maxsize c1 <? 1)%Z then (Raise (ValueError "value too large"), c1)
  else
    let (r, c2) :=
      match assoc key (links c1) with
      | Some _ => (Return tt, c1)
      | None => evict time c1
      end in
    match r with
    | Raise e => (Raise e, c2)
    | Return _ =>
        let e := (time + ttl c2)%Z in
        (Return tt,
         with_links c2 (drop key (links c2) ++ [(key, (value, e))])
                       (drop key (chain c2) ++ [(key, e)]))
    end.

(** [len(cache)] counts the links that are live at [time]. *)
Definition live (time : Z) (c : TTLCache) : list (string * (V * Z)) :=
  filter (fun kv => (time <? snd (snd kv))%Z) (links c).

End Cache.

Arguments TTLCache V : clear implicits.

End Cachetools.

(** ** [requests.Session] mounted on [HTTPAdapter(max_retries=Retry(...))]

    One call of [session.get] sends the request and then every request a
    redirect leads to.  Each request is a run of attempts on the wire,
    governed by a fresh copy of the [urllib3] retry object; an attempt ends
    with a reply or with a failure of the connection or of the read. *)

Module Requests.

(** A prepared request; [method] is in upper case, as the session sends
    it.  The request that follows a redirect has its query in the URL. *)
Record Request : Type := {
  method : string;
  url : string;
  query : Py.dict
}.

(** A reply as it arrives: the status line, the two headers the session
    looks at, and the body.  The body is read after the headers, and that
    may fail: [body_error] is the exception that reading it raises. *)
Record Response : Type := {
  status_code : Z;
  retry_after : bool;                  (* there is a Retry-After header *)
  location : option string;            (* the Location header *)
  body_error : option request_error;
  text : string
}.

(** What one attempt on the wire meets. *)
Inductive wire : Type :=
  | ConnectFailed (reason : string)   (* no connection: refused, timed out *)
  | ReadFailed (reason : string)      (* the request was sent, no reply read *)
  | Replied (resp : Response).

(** One attempt: how long it took on the monotonic clock (time-outs and
    back-off sleeps included) and what it met. *)
Record Attempt : Type := {
  took : N;
  outcome : wire
}.

(** The remote side: what the [n]-th attempt made by the process meets. *)
Definition Upstream : Type := nat -> Request -> Attempt.

(** [urllib3.util.Retry]: the fields set by the module; [raise_on_status]
    and [respect_retry_after_header] keep their default [True]. *)
Record Retry : Type := {
  total : nat;
  status_forcelist : list Z;
  allowed_methods : list string
}.

Definition RETRY_AFTER_STATUS_CODES : list Z := [413; 429; 503]%Z.

Definition mem_Z (x : Z) (l : list Z) : bool := existsb (Z.eqb x) l.

(** [Retry._is_method_retryable] *)
Definition is_method_retryable (r : Retry) (m : string) : bool :=
  existsb (String.eqb m) (allowed_methods r).

(** [Retry.is_retry(method, status_code, has_retry_after)], for a retry
    object with [left] retries remaining in [total]. *)
Definition is_retry (r : Retry) (left : nat) (m : string) (status : Z)
           (has_retry_after : bool) : bool :=
  if negb (is_method_retryable r m) then false
  else if mem_Z status (status_forcelist r) then true
  else negb (Nat.eqb left 0) && has_retry_after
       && mem_Z status RETRY_AFTER_STATUS_CODES.

(** The clock and the log of attempts, the part of the process state that
    the session touches. *)
Record Net : Type := {
  clock : Z;
  sent : list Request
}.

Definition attempt (up : Upstream) (req : Request) (n : Net)
  : wire * Net :=
  let a := up (List.length (sent n)) req in
  (outcome a,
   {| clock := clock n + Z.of_N (took a); sent := sent n ++ [req] |}).

(** [HTTPConnectionPool.urlopen] driven by the adapter: one attempt, then
    [Retry.increment], which lowers [total] by one and raises
    [MaxRetryError] when it drops below zero, and another attempt.  The
    adapter turns [MaxRetryError] into [RetryError] when it was caused by
    status codes and into [ConnectionError] otherwise; a read failure of a
    method that may not be retried is raised at once.  The body of a reply
    that is retried is drained and a failure to read it is ignored; the
    body of the reply that is returned has not been read yet. *)
Fixpoint urlopen (up : Upstream) (r : Retry) (left : nat) (req : Request)
         (n : Net) : result Response * Net :=
  let (w, n1) := attempt up req n in
  match w with
  | ConnectFailed reason =>
      match left with
      | O => (Raise (RequestException (ConnectionError reason)), n1)
      | S left' => urlopen up r left' req n1
      end
  | ReadFailed reason =>
      if is_method_retryable r (method req) then
        match left with
        | O => (Raise (RequestException (ConnectionError reason)), n1)
        | S left' => urlopen up r left' req n1
        end
      else (Raise (RequestException (ConnectionError reason)), n1)
  | Replied resp =>
      if is_retry r left (method req) (status_code resp) (retry_after resp)
      then
        match left with
        | O => (Raise (RequestException (RetryError (status_code resp))), n1)
        | S left' => urlopen up r left' req n1
        end
      else (Return resp, n1)
  end.

(** [requests.models.REDIRECT_STATI] *)
Definition REDIRECT_STATI : list Z := [301; 302; 303; 307; 308]%Z.

(** [requests.models.DEFAULT_REDIRECT_LIMIT], the [max_redirects] of a
    session. *)
Definition DEFAULT_REDIRECT_LIMIT : nat := 30.

(** [Response.is_redirect] *)
Definition is_redirect (resp : Response) : bool :=
  match location resp with
  | Some _ => mem_Z (status_code resp) REDIRECT_STATI
  | None => false
  end.

(** [Session.rebuild_method]: the method of the request that follows a
    redirect. *)
Definition rebuild_method (m : string) (status : Z) : string :=
  let m := if (status =? 303)%Z && negb (String.eqb m "HEAD")
           then "GET" else m in
  let m := if (status =? 302)%Z && negb (String.eqb m "HEAD")
           then "GET" else m in
  if (status =? 301)%Z && String.eqb m "POST" then "GET" else m.

(** [resp.content]: the body, or the exception that reading it raises. *)
Definition content (resp : Response) : result string :=
  match body_error resp with
  | Some e => Raise (RequestException e)
  | None => Return (text resp)
  end.

(** The exception that escapes
    [try: resp.content
     except (ChunkedEncodingError, ContentDecodingError, RuntimeError):
         resp.raw.read(decode_content=False)],
    with which [resolve_redirects] consumes the body of a redirect. *)
Definition consume (resp : Response) : option request_error :=
  match body_error resp with
  | Some (ChunkedEncodingError _) => None
  | Some (ContentDecodingError _) => None
  | other => other
  end.

Section Session.

(** The remote side, the [max_retries] of the mounted adapter and the
    [timeout] of the call. *)
Variable up : Upstream.
Variable max_retries : Retry.
Variable timeout : Z.

(** What [requests] finds wrong with the URL of a call before anything is
    sent: no scheme, no adapter for the scheme, no host. *)
Variable check_url : string -> option request_error.

(** [to_native_string(location.encode("latin1"), "utf8")]: the [Location]
    header read as UTF-8, or the exception raised for bytes that are not
    UTF-8. *)
Variable decode_location : string -> result string.

(** The URL of the request that follows a redirect of the given request to
    the given target, or the exception raised while it is worked out and an
    adapter is chosen for it. *)
Variable next_url : Request -> string -> result string.

(** [Session.get_redirect_target(resp)] *)
Definition get_redirect_target (resp : Response)
  : result (option string) :=
  if is_redirect resp then
    match location resp with
    | Some header =>
        match decode_location header with
        | Return target => Return (Some target)
        | Raise e => Raise e
        end
    | None => Return None
    end
  else Return None.

(** [HTTPAdapter.send]: the time-out is validated before the connection
    pool is asked to open the URL, with the adapter's retry object. *)
Definition adapter_send (req : Request) (n : Net) : result Response * Net :=
  if (timeout <=? 0)%Z
  then (Raise (ValueError "timeout cannot be less than or equal to 0"), n)
  else urlopen up max_retries (total max_retries) req n.

(** [Session.send(request, stream=False, allow_redirects=False)]: the body
    is read before the response is handed back. *)
Definition send (req : Request) (n : Net) : result Response * Net :=
  match adapter_send req n with
  | (Return resp, n1) =>
      match content resp with
      | Return _ => (Return resp, n1)
      | Raise e => (Raise e, n1)
      end
  | (Raise e, n1) => (Raise e, n1)
  end.

(** [Session.resolve_redirects]: while the response names a redirect
    target (a [Location] that is not empty), consume its body, give up with
    [TooManyRedirects] when [left] redirects have been used up, and send
    the next request.  The result is the last response with the request it
    answers. *)
Fixpoint resolve_redirects (left : nat) (req : Request) (resp : Response)
         (n : Net) : result (Request * Response) * Net :=
  match get_redirect_target resp with
  | Raise e => (Raise e, n)
  | Return None => (Return (req, resp), n)
  | Return (Some target) =>
      if String.eqb target "" then (Return (req, resp), n)
      else
        match consume resp with
        | Some e => (Raise (RequestException e), n)
        | None =>
            match left with
            | O => (Raise (RequestException TooManyRedirects), n)
            | S left' =>
                match next_url req target with
                | Raise e => (Raise e, n)
                | Return u =>
                    let req' :=
                      {| method :=
                           rebuild_method (method req) (status_code resp);
                         url := u;
                         query := [] |} in
                    match send req' n with
                    | (Raise e, n1) => (Raise e, n1)
                    | (Return resp', n1) =>
                        resolve_redirects left' req' resp' n1
                    end
                end
            end
        end
  end.

(** [session.get(url, params=params, timeout=timeout)]:
    [Session.send] with [allow_redirects=True] and [stream=False] on the
    prepared request. *)
Definition get (url : string) (params : Py.dict) (n : Net)
  : result (Request * Response) * Net :=
  match check_url url with
  | Some e => (Raise (RequestException e), n)
  | None =>
      let req := {| method := "GET"; url := url; query := params |} in
      match adapter_send req n with
      | (Raise e, n1) => (Raise e, n1)
      | (Return resp, n1) =>
          match resolve_redirects DEFAULT_REDIRECT_LIMIT req resp n1 with
          | (Raise e, n2) => (Raise e, n2)
          | (Return (req', resp'), n2) =>
              match content resp' with
              | Return _ => (Return (req', resp'), n2)
              | Raise e => (Raise e, n2)
              end
          end
      end
  end.

End Session.

(** [Response.raise_for_status()]: [HTTPError] for 4xx and 5xx, naming the
    URL of the request that was answered. *)
Definition raise_for_status (req : Request) (resp : Response)
  : result unit :=
  let s := status_code resp in
  if ((400 <=? s) && (s <? 600))%Z
  then Raise (RequestException (HTTPError s (url req)))
  else Return tt.

End Requests.

(** ** [flask]: request arguments and responses *)

Module Flask.

(** [request.args]: the query pairs in the order they were sent; a name
    may repeat. *)
Definition MultiDict := list (string * string).

(** [request.args.get(name)]: the first value sent under [name]. *)
Definition args_get (name : string) (args : MultiDict) : option string :=
  Py.get name args.

(** [dict(request.args)]: each name once, with its first value, as
    [request.args.to_dict()] gives it. *)
Fixpoint to_dict (args : MultiDict) : Py.dict :=
  match args with
  | [] => []
  | (k, v) :: rest =>
      (k, v) :: filter (fun kv => negb (String.eqb (fst kv) k)) (to_dict rest)
  end.

(** [request.args.get(name, default)] *)
Definition args_get_default (name default : string) (args : MultiDict)
  : string :=
  match Py.get name args with
  | Some v => v
  | None => default
  end.

(** The converter [path] of a URL rule such as [/raw/<path:subpath>]: the
    values it accepts are not empty and have no slash in front. *)
Definition path_converter (s : string) : bool :=
  match s with
  | EmptyString => false
  | String c _ => negb (Ascii.eqb c "/"%char)
  end.

(** A response: the status and the body, a JSON document or text. *)
Record HttpResponse : Type := {
  status : Z;
  body : payload
}.

(** What a view passes to [make_response] as the body: the response
    [jsonify] built, or a value as it is. *)
Inductive rv : Type :=
  | Jsonified (j : json)
  | Plain (data : payload).

(** [make_response(rv, status)]: a string becomes the text of the body, a
    [dict] or a [list] is turned into JSON, and any other value is refused
    with [TypeError]. *)
Definition make_response (b : rv) (status : Z) : result HttpResponse :=
  match b with
  | Jsonified j => Return {| status := status; body := Json j |}
  | Plain (Text s) => Return {| status := status; body := Text s |}
  | Plain (Json (JStr s)) => Return {| status := status; body := Text s |}
  | Plain (Json (JObj m)) =>
      Return {| status := status; body := Json (JObj m) |}
  | Plain (Json (JArr l)) =>
      Return {| status := status; body := Json (JArr l) |}
  | Plain (Json _) =>
      Raise (TypeError "The view function did not return a valid response")
  end.

End Flask.
(** ** Definitions that support the proofs

    *** Reading [repr] from the right *)

Module ReprRead.
Import Py.

(** A string as the list of its characters. *)
Definition chars : string -> list ascii := list_ascii_of_string.

(** The characters [repr] emits for one character of the string. *)
Definition tok (q c : ascii) : list ascii := chars (repr_char q c).

(** The two quotes [repr] can choose. *)
Definition is_quote (q : ascii) : Prop := q = squote \/ q = dquote.

(** A character other than the quote in use and the backslash. *)
Definition clean (q a : ascii) : bool :=
  negb (Ascii.eqb a q) && negb (Ascii.eqb a bslash).

(** Shape of a token: the character itself, a backslash before the quote or
    a backslash, or a backslash followed by clean characters. *)
Definition tok_ok (q c : ascii) : bool :=
  match tok q c with
  | [] => false
  | [a] => Ascii.eqb a c && clean q c
  | a :: b :: tl =>
      Ascii.eqb a bslash &&
      (match tl with
       | [] => Ascii.eqb b c && (Ascii.eqb c q || Ascii.eqb c bslash)
       | _ => false
       end || forallb (clean q) (b :: tl))
  end.

(** The value of a hexadecimal digit. *)
Definition unhex (a : ascii) : N :=
  let n := N_of_ascii a in
  if (n <? 58)%N then (n - 48)%N else (n - 87)%N.

(** The character whose token starts [l], and what follows the token. *)
Definition untok (l : list ascii) : option (ascii * list ascii) :=
  match l with
  | [] => None
  | a :: l' =>
      if Ascii.eqb a bslash then
        match l' with
        | [] => None
        | b :: l'' =>
            if Ascii.eqb b "t" then Some ("009"%char, l'')
            else if Ascii.eqb b "n" then Some ("010"%char, l'')
            else if Ascii.eqb b "r" then Some ("013"%char, l'')
            else if Ascii.eqb b "x" then
              match l'' with
              | h1 :: h2 :: l3 =>
                  Some (ascii_of_N (16 * unhex h1 + unhex h2), l3)
              | _ => None
              end
            else Some (b, l'')
        end
      else Some (a, l')
  end.

(** Backslashes that directly precede a position, read right to left. *)
Fixpoint bs_run (l : list ascii) : nat :=
  match l with
  | a :: l' => if Ascii.eqb a bslash then S (bs_run l') else 0
  | [] => 0
  end.

(** Put [p] in front of what a scan has read. *)
Definition prepend (p : list ascii) (o : option (list ascii * list ascii)) :=
  match o with
  | Some (a, b) => Some (p ++ a, b)
  | None => None
  end.

(** Right to left, from the closing quote: the opening quote is the first
    quote that has an even number of backslashes before it. *)
Fixpoint scan (q : ascii) (l : list ascii)
  : option (list ascii * list ascii) :=
  match l with
  | [] => None
  | c :: l' =>
      if Ascii.eqb c q && Nat.even (bs_run l') then Some ([], l')
      else prepend [c] (scan q l')
  end.

(** The items of a tuple, last item first, as they appear from the right. *)
Fixpoint rjoin (b : list (string * string)) : list ascii :=
  match b with
  | [] => []
  | z :: b' =>
      rev (chars (repr_item z)) ++
      match b' with
      | [] => []
      | _ :: _ => " "%char :: ","%char :: rjoin b'
      end
  end.

(** The comma that closes a one-element tuple. *)
Definition rtail (t : list (string * string)) : list ascii :=
  match t with
  | [_] => [","%char]
  | _ => []
  end.

End ReprRead.

(** *** Invariants and traces of the cache *)

Module CacheInv.
Import Cachetools.

Section Inv.
Context {V : Type}.

(** The keys that have a link. *)
Definition keys (c : TTLCache V) : list string := map fst (links c).

(** The chain entry of a link. *)
Definition link_of (kv : string * (V * Z)) : string * Z :=
  (fst kv, snd (snd kv)).

Definition le_expires (a b : string * Z) : Prop := (snd a <= snd b)%Z.

(** A cache whose clock readings so far were at most [T]: one link per
    key, the chain holds exactly the links, in the order of their expiry
    times, and no link outlives [T + ttl]. *)
Record Inv (T : Z) (c : TTLCache V) : Prop := {
  inv_nodup : NoDup (keys c);
  inv_same : Permutation (map link_of (links c)) (chain c);
  inv_sorted : StronglySorted le_expires (chain c);
  inv_bound : Forall (fun ke => (snd ke <= T + ttl c)%Z) (chain c)
}.

(** Every link in the chain is live at [t]. *)
Definition AllLive (t : Z) (c : TTLCache V) : Prop :=
  Forall (fun ke => (t < snd ke)%Z) (chain c).

(** [c'] keeps the configuration of [c] and holds no link that [c] did not
    hold. *)
Definition shrinks (c c' : TTLCache V) : Prop :=
  maxsize c' = maxsize c /\ ttl c' = ttl c /\
  incl (links c') (links c) /\
  (List.length (links c') <= List.length (links c))%nat /\
  (NoDup (keys c) -> NoDup (keys c')).

(** The value a lookup of [k] at clock reading [t] finds, if any. *)
Definition hit (t : Z) (k : string) (c : TTLCache V) : option V :=
  match assoc k (links c) with
  | Some (v, e) => if (t <? e)%Z then Some v else None
  | None => None
  end.

(** One use of the cache. *)
Inductive cache_op : Type :=
  | Get (time : Z) (key : string)
  | Set_ (time : Z) (key : string) (value : V).

Definition apply_op (o : cache_op) (c : TTLCache V) : TTLCache V :=
  match o with
  | Get t k => snd (getitem t k c)
  | Set_ t k v => snd (setitem t k v c)
  end.

(** The cache after a sequence of uses, whatever each one returned. *)
Definition run_ops (ops : list cache_op) (c : TTLCache V) : TTLCache V :=
  fold_left (fun c o => apply_op o c) ops c.

(** The operation stores under [k]. *)
Definition stores (k : string) (o : cache_op) : Prop :=
  match o with
  | Get _ _ => False
  | Set_ _ k' _ => k' = k
  end.

End Inv.

Arguments cache_op V : clear implicits.

End CacheInv.

(** ** Cache key ([_cache_key]) *)

(** [items = tuple(sorted(params.items())); return f"{path}|{items}"] *)
Definition _cache_key (path : string) (params : Py.dict) : string :=
  let items := Py.sorted params in
  path +++ "|" +++ Py.repr_tuple items.

(** ** The module [app.py] *)

(** *** Config *)

(** The values read from the environment when the module is imported.
    Times are in ticks of the clock; of [REQUEST_TIMEOUT] the session looks
    at the sign only, how long an attempt takes is up to the remote side. *)
Record Config : Type := {
  OPEN_METEO_BASE : string;
  REQUEST_TIMEOUT : Z;  (* [float(os.getenv("REQUEST_TIMEOUT", "5"))] *)
  CACHE_TTL : Z;        (* [int(os.getenv("CACHE_TTL", "60"))] *)
  CACHE_MAXSIZE : Z     (* [int(os.getenv("CACHE_MAXSIZE", "1024"))] *)
}.

Definition default_config : Config :=
  {| OPEN_METEO_BASE := "https://api.open-meteo.com/v1";
     REQUEST_TIMEOUT := 5;
     CACHE_TTL := 60;
     CACHE_MAXSIZE := 1024 |}.

(** What the module does not define itself.

    - [json_loads]: the decoder behind [resp.json()], on the text of a body:
      the document, or the exception it raises ([ValueError] for a text that
      is not JSON).
    - [str_of_exception]: the text [str(e)] of a request exception.
    - [check_url], [decode_location] and [next_url]: what [requests] makes
      of the URL of a call and of the [Location] of a redirect (see the
      session in [Requests]).
    - [upstream]: the remote server. *)
Record Env : Type := {
  json_loads : string -> result json;
  str_of_exception : request_error -> string;
  check_url : string -> option request_error;
  decode_location : string -> result string;
  next_url : Requests.Request -> string -> result string;
  upstream : Requests.Upstream
}.

(** *** HTTP session with retries *)

(** [Retry(total=3, backoff_factor=0.3,
          status_forcelist=[429, 500, 502, 503, 504],
          allowed_methods=frozenset(["GET"]))] *)
Definition retries : Requests.Retry :=
  {| Requests.total := 3;
     Requests.status_forcelist := [429; 500; 502; 503; 504]%Z;
     Requests.allowed_methods := ["GET"] |}.

(** *** Cache for proxied responses *)

(** The process state: the network side and the module-level [cache]. *)
Record World : Type := {
  net : Requests.Net;
  cache : Cachetools.TTLCache (Z * payload)
}.

(** [cache = TTLCache(maxsize=CACHE_MAXSIZE, ttl=CACHE_TTL)] at clock
    reading [t0]. *)
Definition start (cfg : Config) (t0 : Z) : World :=
  {| net := {| Requests.clock := t0; Requests.sent := [] |};
     cache := Cachetools.empty (CACHE_MAXSIZE cfg) (CACHE_TTL cfg) |}.

(** The clock moves on between two calls. *)
Definition at_time (t : Z) (w : World) : World :=
  {| net := {| Requests.clock := t; Requests.sent := Requests.sent (net w) |};
     cache := cache w |}.

Section Backend.

Variable cfg : Config.
Variable env : Env.

(** [{"error": "upstream_error", "detail": str(e)}] *)
Definition upstream_error (e : request_error) : payload :=
  Json (JObj [("error", JStr "upstream_error");
              ("detail", JStr (str_of_exception env e))]).

(** [session.get(url, params=params, timeout=REQUEST_TIMEOUT)] on the
    module's session, whose adapter carries [retries]. *)
Definition session_get (url : string) (params : Py.dict) (n : Requests.Net)
  : result (Requests.Request * Requests.Response) * Requests.Net :=
  Requests.get (upstream env) retries (REQUEST_TIMEOUT cfg) (check_url env)
    (decode_location env) (next_url env) url params n.

(** [resp.json()] *)
Definition json_of (resp : Requests.Response) : result json :=
  json_loads env (Requests.text resp).

(** [_forward_get(path, params)]: the inner [try] turns a body that is not
    JSON into raw text, the outer [try] turns a [RequestException] into the
    502 result.  Any other exception leaves the function. *)
Definition _forward_get (path : string) (params : Py.dict) (n : Requests.Net)
  : result (Z * payload) * Requests.Net :=
  let url := OPEN_METEO_BASE cfg +++ "/" +++ Py.lstrip "/" path in
  let attempted : result (Z * payload) * Requests.Net :=
    match session_get url params n with
    | (Raise e, n1) => (Raise e, n1)
    | (Return (req, resp), n1) =>
        match Requests.raise_for_status req resp with
        | Raise e => (Raise e, n1)
        | Return _ =>
            match json_of resp with
            | Return j => (Return (Requests.status_code resp, Json j), n1)
            | Raise (ValueError _) =>
                (Return (Requests.status_code resp,
                         Text (Requests.text resp)), n1)
            | Raise e => (Raise e, n1)
            end
        end
    end in
  match attempted with
  | (Raise (RequestException e), n1) => (Return (502%Z, upstream_error e), n1)
  | other => other
  end.

(** [_cached_forward(path, params)] under
    [@cached(cache=cache, key=lambda path, params: _cache_key(path, params))]:
    return [cache[k]] unless it raises [KeyError]; otherwise call the
    function, store the value unless that raises [ValueError], and return
    it. *)
Definition _cached_forward (path : string) (params : Py.dict) (w : World)
  : result (Z * payload) * World :=
  let k := _cache_key path params in
  match Cachetools.getitem (Requests.clock (net w)) k (cache w) with
  | (Return v, c1) => (Return v, {| net := net w; cache := c1 |})
  | (Raise (KeyError _), c1) =>
      match _forward_get path params (net w) with
      | (Raise e, n1) => (Raise e, {| net := n1; cache := c1 |})
      | (Return v, n1) =>
          match Cachetools.setitem (Requests.clock n1) k v c1 with
          | (Return _, c2) => (Return v, {| net := n1; cache := c2 |})
          | (Raise (ValueError _), c2) =>
              (Return v, {| net := n1; cache := c2 |})
          | (Raise e, c2) => (Raise e, {| net := n1; cache := c2 |})
          end
      end
  | (Raise e, c1) => (Raise e, {| net := net w; cache := c1 |})
  end.

(** *** Endpoints *)

(** [{"error": "missing_parameters",
      "detail": "latitude and longitude required (lat/lon)"}] *)
Definition missing_parameters : payload :=
  Json (JObj [("error", JStr "missing_parameters");
              ("detail", JStr "latitude and longitude required (lat/lon)")]).

(** [forward_params[new] = forward_params.pop(old)] when [old] is a key. *)
Definition rename (old new : string) (d : Py.dict) : Py.dict :=
  match Py.get old d with
  | Some v => Py.set new v (Py.remove old d)
  | None => d
  end.

(** The [forward_params] that [weather_proxy] builds from the query. *)
Definition weather_params (args : Flask.MultiDict) : Py.dict :=
  let forward_params := Flask.to_dict args in
  let forward_params := rename "lat" "latitude" forward_params in
  rename "lon" "longitude" forward_params.

(** [make_response(jsonify(data) if isinstance(data, dict) else data,
    status)] on what [_cached_forward] returned, the last two lines of the
    three proxies. *)
Definition relay (r : result (Z * payload) * World)
  : result Flask.HttpResponse * World :=
  match r with
  | (Return (status, data), w') =>
      (Flask.make_response
         match data with
         | Json (JObj members) => Flask.Jsonified (JObj members)
         | _ => Flask.Plain data
         end status, w')
  | (Raise e, w') => (Raise e, w')
  end.

(** [weather_proxy()] for the query [args]. *)
Definition weather_proxy (args : Flask.MultiDict) (w : World)
  : result Flask.HttpResponse * World :=
  let lat := Py.or_else (Flask.args_get "latitude" args)
                        (Flask.args_get "lat" args) in
  let lon := Py.or_else (Py.or_else (Flask.args_get "longitude" args)
                                    (Flask.args_get "lon" args))
                        (Flask.args_get "long" args) in
  if negb (Py.truthy lat) || negb (Py.truthy lon) then
    (Return {| Flask.status := 400; Flask.body := missing_parameters |}, w)
  else
    relay (_cached_forward "forecast" (weather_params args) w).

(** [health()] *)
Definition health : Flask.HttpResponse :=
  {| Flask.status := 200;
     Flask.body := Json (JObj [("status", JStr "ok")]) |}.

(** [forecast_proxy()] for the query [args]: the [endpoint] parameter
    names the upstream path and is not passed on. *)
Definition forecast_proxy (args : Flask.MultiDict) (w : World)
  : result Flask.HttpResponse * World :=
  let endpoint := Flask.args_get_default "endpoint" "forecast" args in
  let forward_params := Py.remove "endpoint" (Flask.to_dict args) in
  relay (_cached_forward endpoint forward_params w).

(** [raw_proxy(subpath)] for the query [args]. *)
Definition raw_proxy (subpath : string) (args : Flask.MultiDict) (w : World)
  : result Flask.HttpResponse * World :=
  let forward_params := Flask.to_dict args in
  relay (_cached_forward subpath forward_params w).

End Backend.

(** ** Definitions used to state the properties *)

(** A process state that the module can be in: the cache has the configured
    bounds and satisfies the invariant for the current clock reading. *)
Definition good (cfg : Config) (w : World) : Prop :=
  Cachetools.maxsize (cache w) = CACHE_MAXSIZE cfg /\
  Cachetools.ttl (cache w) = CACHE_TTL cfg /\
  CacheInv.Inv (Requests.clock (net w)) (cache w).

(** The request [_forward_get(path, params)] puts on the wire. *)
Definition request_for (cfg : Config) (path : string) (params : Py.dict)
  : Requests.Request :=
  {| Requests.method := "GET";
     Requests.url := OPEN_METEO_BASE cfg +++ "/" +++ Py.lstrip "/" path;
     Requests.query := params |}.

(** An attempt ended in a network failure or in a status of the force
    list. *)
Definition retryable (r : Requests.Retry) (w : Requests.wire) : bool :=
  match w with
  | Requests.ConnectFailed _ => true
  | Requests.ReadFailed _ => true
  | Requests.Replied resp =>
      Requests.mem_Z (Requests.status_code resp) (Requests.status_forcelist r)
  end.

(** How many attempts one call of [_forward_get] makes. *)
Definition attempts (cfg : Config) (env : Env) (path : string)
           (params : Py.dict) (n : Requests.Net) : nat :=
  List.length (Requests.sent (snd (_forward_get cfg env path params n)))
  - List.length (Requests.sent n).

(** The remote side answers every attempt with status 503. *)
Definition always_503 (up : Requests.Upstream) : Prop :=
  forall i req, exists resp,
    Requests.outcome (up i req) = Requests.Replied resp /\
    Requests.status_code resp = 503%Z.

(** One incoming request: how long after the previous one it arrives, and
    what it asks for. *)
Record Call : Type := {
  wait : N;
  call_path : string;
  call_params : Py.dict
}.

(** The process state after serving the calls one after the other. *)
Fixpoint serve (cfg : Config) (env : Env) (calls : list Call) (w : World)
  : World :=
  match calls with
  | [] => w
  | c :: rest =>
      let t := (Requests.clock (net w) + Z.of_N (wait c))%Z in
      serve cfg env rest
        (snd (_cached_forward cfg env (call_path c) (call_params c)
                (at_time t w)))
  end.

(** The query without the pairs sent under [name]. *)
Definition without (name : string) (args : Flask.MultiDict)
  : Flask.MultiDict :=
  filter (fun kv => negb (String.eqb (fst kv) name)) args.

(** The first of two optional values that is present. *)
Definition first_of (a b : option string) : option string :=
  match a with
  | Some _ => a
  | None => b
  end.

(** The exception the session raises when the attempt that met [w] was
    the last one allowed. *)
Definition failure_of (w : Requests.wire) : request_error :=
  match w with
  | Requests.ConnectFailed reason => ConnectionError reason
  | Requests.ReadFailed reason => ConnectionError reason
  | Requests.Replied resp => RetryError (Requests.status_code resp)
  end.

(** What [_forward_get] makes of the response that [session.get] hands
    back for the request [req]. *)
Definition outcome_of (env : Env) (req : Requests.Request)
           (resp : Requests.Response) : result (Z * payload) :=
  let s := Requests.status_code resp in
  if ((400 <=? s) && (s <? 600))%Z
  then Return (502%Z, upstream_error env (HTTPError s (Requests.url req)))
  else match json_loads env (Requests.text resp) with
       | Return j => Return (s, Json j)
       | Raise (ValueError _) => Return (s, Text (Requests.text resp))
       | Raise (RequestException e) => Return (502%Z, upstream_error env e)
       | Raise e => Raise e
       end.

(** What [_forward_get] makes of a reply that ends the fetch: the 502
    result when its body cannot be read, and else what its status and its
    body give. *)
Definition result_of (env : Env) (req : Requests.Request)
           (resp : Requests.Response) : result (Z * payload) :=
  match Requests.body_error resp with
  | Some e => Return (502%Z, upstream_error env e)
  | None => outcome_of env req resp
  end.

(** The remote side never answers with a redirect: a reply with a
    [Location] header and a status in [REDIRECT_STATI]. *)
Definition never_redirects (up : Requests.Upstream) : Prop :=
  forall i req resp,
    Requests.outcome (up i req) = Requests.Replied resp ->
    Requests.is_redirect resp = false.

(** Runs of attempts, each on one request, and the log they leave. *)
Definition runs_log (runs : list (Requests.Request * nat))
  : list Requests.Request :=
  flat_map (fun run => repeat (fst run) (snd run)) runs.

(** A run of GET attempts that the retry object [r] allows: the first
    attempt and at most [total] retries. *)
Definition run_ok (r : Requests.Retry) (run : Requests.Request * nat)
  : Prop :=
  Requests.method (fst run) = "GET" /\
  (1 <= snd run <= S (Requests.total r))%nat.

(** An exception that is a [RequestException]. *)
Definition is_request_exception (e : exn) : bool :=
  match e with
  | RequestException _ => true
  | _ => false
  end.

(** An exception that is a [ValueError]. *)
Definition is_value_error (e : exn) : bool :=
  match e with
  | ValueError _ => true
  | _ => false
  end.

(** An exception raised by one of the two functions that work out a
    redirect. *)
Definition url_fault (decode : string -> result string)
           (next : Requests.Request -> string -> result string) (e : exn)
  : Prop :=
  (exists header, decode header = Raise e) \/
  (exists req target, next req target = Raise e).

Definition redirect_fault (env : Env) (e : exn) : Prop :=
  url_fault (decode_location env) (next_url env) e.

(** Surroundings in which the time-out is positive, the decoder raises
    nothing but [ValueError] and a redirect raises nothing but request
    exceptions. *)
Definition tame (cfg : Config) (env : Env) : Prop :=
  (0 < REQUEST_TIMEOUT cfg)%Z /\
  (forall s e, json_loads env s = Raise e -> is_value_error e = true) /\
  (forall header e,
     decode_location env header = Raise e ->
     is_request_exception e = true) /\
  (forall req target e,
     next_url env req target = Raise e -> is_request_exception e = true).

(** A status that is 502 or lies outside 400..599. *)
Definition status_ok (s : Z) : Prop := (s = 502 \/ s < 400 \/ 600 <= s)%Z.

(** Every value in the cache has such a status. *)
Definition cached_ok (w : World) : Prop :=
  forall k v e, In (k, (v, e)) (Cachetools.links (cache w)) ->
                status_ok (fst v).

(** Concrete surroundings for the scenarios of the specification. *)
Module Sample.

(** The body [{"temp":21}]. *)
Definition temp_body : string :=
  "{" +++ String Py.dquote ("temp" +++ String Py.dquote ":21}").

Definition temp_json : json := JObj [("temp", JNum "21")].

(** The body [[[[...1...]]]] with 100000 brackets on each side. *)
Definition deep_body : string :=
  N.iter 100000 (String "["%char) ("1" +++ N.iter 100000 (String "]"%char) "").

(** The text opens more than [limit] arrays in a row. *)
Fixpoint opens_more_than (limit : nat) (s : string) : bool :=
  match s with
  | String c s' =>
      if Ascii.eqb c "["%char then
        match limit with
        | O => true
        | S limit' => opens_more_than limit' s'
        end
      else false
  | EmptyString => false
  end.

(** A decoder that knows the one document of the scenarios and gives up,
    as the decoder of CPython does, on a text nested deeper than the
    recursion limit. *)
Definition loads (s : string) : result json :=
  if opens_more_than 1000 s
  then Raise (RecursionError "maximum recursion depth exceeded")
  else if String.eqb s temp_body then Return temp_json
  else Raise (ValueError "Expecting value").

Definition describe (e : request_error) : string :=
  match e with
  | ConnectionError reason => reason
  | RetryError _ => "too many error responses"
  | HTTPError _ url => "error response for url: " +++ url
  | TooManyRedirects => "Exceeded 30 redirects."
  | ChunkedEncodingError reason => reason
  | ContentDecodingError reason => reason
  | MissingSchema url => "No scheme supplied: " +++ url
  | InvalidSchema url => "No connection adapters were found for " +++ url
  | InvalidURL url => "No host supplied: " +++ url
  end.

(** The reply with the given status and body, and no header that the
    session looks at. *)
Definition resp_of (status : Z) (body : string) : Requests.Response :=
  {| Requests.status_code := status; Requests.retry_after := false;
     Requests.location := None; Requests.body_error := None;
     Requests.text := body |}.

Definition reply (status : Z) (body : string) : Requests.Attempt :=
  {| Requests.took := 1;
     Requests.outcome := Requests.Replied (resp_of status body) |}.

(** The reply [302 Found] that sends the client to [target]. *)
Definition found (target : string) : Requests.Response :=
  {| Requests.status_code := 302; Requests.retry_after := false;
     Requests.location := Some target; Requests.body_error := None;
     Requests.text := "" |}.

(** Upstream always answers [200 {"temp":21}]. *)
Definition up_temp : Requests.Upstream := fun _ _ => reply 200 temp_body.

(** Upstream always answers [200 OK] with a body that is not JSON. *)
Definition up_text : Requests.Upstream := fun _ _ => reply 200 "OK".

(** Upstream always answers 503. *)
Definition up_503 : Requests.Upstream := fun _ _ => reply 503 "".

(** Upstream answers 404. *)
Definition up_404 : Requests.Upstream := fun _ _ => reply 404 "Not Found".

(** Upstream answers 503 to the first three attempts and then
    [200 {"temp":21}]. *)
Definition up_flaky : Requests.Upstream :=
  fun i _ => if (i <? 3)%nat then reply 503 "" else reply 200 temp_body.

(** Upstream answers 200 with the deeply nested body. *)
Definition up_deep : Requests.Upstream := fun _ _ => reply 200 deep_body.

(** Upstream redirects the first attempt to [/v2/forecast] and answers the
    next one with [200 {"temp":21}]. *)
Definition up_moved : Requests.Upstream :=
  fun i _ =>
    match i with
    | O => {| Requests.took := 1;
              Requests.outcome := Requests.Replied (found "/v2/forecast") |}
    | S _ => reply 200 temp_body
    end.

(** Upstream refuses the first connection and then answers
    [200 {"temp":21}]. *)
Definition up_refused_once : Requests.Upstream :=
  fun i _ =>
    match i with
    | O => {| Requests.took := 1;
              Requests.outcome := Requests.ConnectFailed "refused" |}
    | S _ => reply 200 temp_body
    end.

(** Every URL is accepted, and a redirect goes to the host of the module's
    default base URL. *)
Definition env_of (up : Requests.Upstream) : Env :=
  {| json_loads := loads;
     str_of_exception := describe;
     check_url := fun _ => None;
     decode_location := fun header => Return header;
     next_url := fun _ target =>
                   Return ("https://api.open-meteo.com" +++ target);
     upstream := up |}.

Definition params : Py.dict := [("latitude", "10"); ("longitude", "20")].

Definition n0 : Requests.Net :=
  {| Requests.clock := 0; Requests.sent := [] |}.

Definition w0 : World := start default_config 0.

(** The default configuration with another cache size. *)
Definition config_of_size (size : Z) : Config :=
  {| OPEN_METEO_BASE := OPEN_METEO_BASE default_config;
     REQUEST_TIMEOUT := REQUEST_TIMEOUT default_config;
     CACHE_TTL := CACHE_TTL default_config;
     CACHE_MAXSIZE := size |}.

(** The default configuration with another time-out. *)
Definition config_of_timeout (timeout : Z) : Config :=
  {| OPEN_METEO_BASE := OPEN_METEO_BASE default_config;
     REQUEST_TIMEOUT := timeout;
     CACHE_TTL := CACHE_TTL default_config;
     CACHE_MAXSIZE := CACHE_MAXSIZE default_config |}.

(** The network side after [k] attempts of one tick each from [n0]. *)
Definition after (k : nat) : Requests.Net :=
  {| Requests.clock := Z.of_nat k;
     Requests.sent :=
       repeat (request_for default_config "forecast" params) k |}.

End Sample.
(** ** Facts about the built-ins *)

Module PyFacts.
Import Py.

(** *** Ordering of strings and of pairs *)

Lemma ascii_compare_N (a b : ascii) :
  Ascii.compare a b = N.compare (N_of_ascii a) (N_of_ascii b).
Proof. reflexivity. Qed.

Lemma str_compare_refl (s : string) : String.compare s s = Eq.
Proof.
  induction s as [|c s IH]; simpl; [reflexivity|].
  rewrite ascii_compare_N, N.compare_refl. exact IH.
Qed.

Lemma str_compare_trans (a b c : string) :
  String.compare a b = Lt -> String.compare b c = Lt ->
  String.compare a c = Lt.
Proof.
  revert b c. induction a as [|x a IH]; intros [|y b] [|z c]; simpl;
    try congruence.
  rewrite !ascii_compare_N.
  destruct (N.compare_spec (N_of_ascii x) (N_of_ascii y)) as [E1|L1|G1];
    destruct (N.compare_spec (N_of_ascii y) (N_of_ascii z)) as [E2|L2|G2];
    try congruence; intros H1 H2.
  - rewrite E1, E2, N.compare_refl. eauto.
  - rewrite E1. apply N.compare_lt_iff in L2. now rewrite L2.
  - rewrite <- E2. apply N.compare_lt_iff in L1. now rewrite L1.
  - assert (L : (N_of_ascii x < N_of_ascii z)%N) by lia.
    apply N.compare_lt_iff in L. now rewrite L.
Qed.

Lemma ltb_irrefl (s : string) : String.ltb s s = false.
Proof. unfold String.ltb. now rewrite str_compare_refl. Qed.

Lemma ltb_trans (a b c : string) :
  String.ltb a b = true -> String.ltb b c = true -> String.ltb a c = true.
Proof.
  unfold String.ltb. intros H1 H2.
  destruct (String.compare a b) eqn:E1; try discriminate.
  destruct (String.compare b c) eqn:E2; try discriminate.
  now rewrite (str_compare_trans _ _ _ E1 E2).
Qed.

Lemma ltb_asym (a b : string) :
  String.ltb a b = true -> String.ltb b a = false.
Proof.
  unfold String.ltb. rewrite (String.compare_antisym b a).
  destruct (String.compare a b); simpl; congruence.
Qed.

Lemma ltb_connex (a b : string) :
  String.ltb a b = false -> String.ltb b a = false -> a = b.
Proof.
  unfold String.ltb. rewrite (String.compare_antisym b a).
  destruct (String.compare a b) eqn:E; simpl; try congruence.
  intros _ _. now apply String.compare_eq_iff.
Qed.

Lemma tuple_lt_asym (a b : string * string) :
  tuple_lt a b = true -> tuple_lt b a = false.
Proof.
  destruct a as [k1 v1], b as [k2 v2]. unfold tuple_lt. simpl.
  rewrite (String.eqb_sym k2 k1).
  destruct (String.eqb_spec k1 k2); apply ltb_asym.
Qed.

Lemma tuple_lt_connex (a b : string * string) :
  tuple_lt a b = false -> tuple_lt b a = false -> a = b.
Proof.
  destruct a as [k1 v1], b as [k2 v2]. unfold tuple_lt. simpl.
  rewrite (String.eqb_sym k2 k1).
  destruct (String.eqb_spec k1 k2) as [->|N]; intros H1 H2.
  - f_equal. now apply ltb_connex.
  - exfalso. apply N. now apply ltb_connex.
Qed.

Lemma tuple_lt_trans (a b c : string * string) :
  tuple_lt a b = true -> tuple_lt b c = true -> tuple_lt a c = true.
Proof.
  destruct a as [k1 v1], b as [k2 v2], c as [k3 v3]. unfold tuple_lt. simpl.
  destruct (String.eqb_spec k1 k2) as [->|N12];
    destruct (String.eqb_spec k2 k3) as [->|N23]; intros H1 H2.
  - rewrite ?String.eqb_refl. eapply ltb_trans; eauto.
  - destruct (String.eqb_spec k2 k3); [contradiction|assumption].
  - destruct (String.eqb_spec k1 k3); [contradiction|assumption].
  - destruct (String.eqb_spec k1 k3) as [->|N13].
    + rewrite (ltb_asym _ _ H1) in H2. discriminate.
    + eapply ltb_trans; eauto.
Qed.

(** *** [sorted] only depends on the items, not on their order *)

Lemma insort_comm (x y : string * string) (l : list (string * string)) :
  insort x (insort y l) = insort y (insort x l).
Proof.
  induction l as [|z l IH]; simpl.
  - destruct (tuple_lt x y) eqn:Exy, (tuple_lt y x) eqn:Eyx; try reflexivity.
    + rewrite (tuple_lt_asym _ _ Exy) in Eyx. discriminate.
    + now rewrite (tuple_lt_connex _ _ Exy Eyx).
  - destruct (tuple_lt y z) eqn:Eyz, (tuple_lt x z) eqn:Exz; simpl;
      rewrite ?Eyz, ?Exz.
    + destruct (tuple_lt x y) eqn:Exy, (tuple_lt y x) eqn:Eyx;
        try reflexivity.
      * rewrite (tuple_lt_asym _ _ Exy) in Eyx. discriminate.
      * now rewrite (tuple_lt_connex _ _ Exy Eyx).
    + destruct (tuple_lt x y) eqn:Exy.
      * rewrite (tuple_lt_trans _ _ _ Exy Eyz) in Exz. discriminate.
      * reflexivity.
    + destruct (tuple_lt y x) eqn:Eyx.
      * rewrite (tuple_lt_trans _ _ _ Eyx Exz) in Eyz. discriminate.
      * reflexivity.
    + now rewrite IH.
Qed.

Lemma insort_perm (x : string * string) (l : list (string * string)) :
  Permutation (x :: l) (insort x l).
Proof.
  induction l as [|y l IH]; simpl; [reflexivity|].
  destruct (tuple_lt x y); [reflexivity|].
  rewrite perm_swap. now constructor.
Qed.

Lemma fold_insort_perm (l acc : list (string * string)) :
  Permutation (l ++ acc) (fold_left (fun a x => insort x a) l acc).
Proof.
  revert acc. induction l as [|x l IH]; intros acc; simpl; [reflexivity|].
  rewrite <- IH. rewrite <- insort_perm.
  apply Permutation_middle.
Qed.

Lemma sorted_perm (l : list (string * string)) : Permutation l (sorted l).
Proof.
  unfold sorted. rewrite <- fold_insort_perm. now rewrite app_nil_r.
Qed.

Lemma fold_insort_order (l1 l2 : list (string * string)) :
  Permutation l1 l2 ->
  forall acc, fold_left (fun a x => insort x a) l1 acc
            = fold_left (fun a x => insort x a) l2 acc.
Proof.
  induction 1 as [|x l1 l2 _ IH|x y l|l1 l2 l3 _ IH1 _ IH2]; intros acc;
    simpl.
  - reflexivity.
  - apply IH.
  - now rewrite insort_comm.
  - now rewrite IH1.
Qed.

Lemma sorted_order (l1 l2 : list (string * string)) :
  Permutation l1 l2 -> sorted l1 = sorted l2.
Proof. intros H. unfold sorted. now apply fold_insort_order. Qed.

End PyFacts.

Example cache_key_forecast :
  _cache_key "forecast" [("longitude", "20"); ("latitude", "10")]
  = "forecast|(('latitude', '10'), ('longitude', '20'))".
Proof. reflexivity. Qed.

Example cache_key_single :
  _cache_key "forecast" [("q", "it's")] = "forecast|(('q', " +++
     String Py.dquote ("it's" +++ String Py.dquote "),)").
Proof. reflexivity. Qed.

Example cache_key_empty : _cache_key "archive" [] = "archive|()".
Proof. reflexivity. Qed.


(** [repr] of strings that need escapes. *)
Example repr_both_quotes :
  Py.repr_str (String Py.squote (String Py.dquote ""))
  = "'\'" +++ String Py.dquote "'".
Proof. reflexivity. Qed.

Example repr_backslash_newline :
  Py.repr_str (String Py.bslash (String "010"%char "")) = "'\\\n'".
Proof. reflexivity. Qed.

Example repr_not_printable :
  Py.repr_str (String "127"%char (String "160"%char (String "233"%char "")))
  = "'\x7f\xa0" +++ String "233"%char "'".
Proof. reflexivity. Qed.

(** A path that looks like the end of a key does not collide with it. *)
Example cache_key_bar_in_path :
  _cache_key "a|(('k', 'v'),)" [] = "a|(('k', 'v'),)|()" /\
  _cache_key "a" [("k", "v")] = "a|(('k', 'v'),)".
Proof. split; reflexivity. Qed.
(** *** [repr] can be read back from its last character *)

Module ReprFacts.
Import Py ReprRead.

Lemma chars_app (a b : string) : chars (a +++ b) = chars a ++ chars b.
Proof. induction a as [|c a IH]; simpl; [reflexivity|]. now rewrite IH. Qed.

Lemma chars_inj (a b : string) : chars a = chars b -> a = b.
Proof.
  intros H. rewrite <- (string_of_list_ascii_of_string a).
  rewrite <- (string_of_list_ascii_of_string b). unfold chars in H.
  now rewrite H.
Qed.

Lemma tok_ok_all (q c : ascii) : is_quote q -> tok_ok q c = true.
Proof.
  intros [-> | ->]; destruct c as [[] [] [] [] [] [] [] []];
    vm_compute; reflexivity.
Qed.

Lemma tok_cases (q c : ascii) :
  is_quote q ->
  (tok q c = [c] /\ clean q c = true) \/
  (tok q c = [bslash; c] /\ (c = q \/ c = bslash)) \/
  (exists b tl, tok q c = bslash :: b :: tl /\
                forallb (clean q) (b :: tl) = true).
Proof.
  intros Hq. pose proof (tok_ok_all q c Hq) as H. unfold tok_ok in H.
  destruct (tok q c) as [|a [|b tl]]; try discriminate.
  - apply andb_true_iff in H as [H1 H2]. apply Ascii.eqb_eq in H1.
    subst a. now left.
  - apply andb_true_iff in H as [H1 H2]. apply Ascii.eqb_eq in H1.
    subst a. apply orb_true_iff in H2 as [H2|H2].
    + destruct tl; try discriminate.
      apply andb_true_iff in H2 as [H2 H3]. apply Ascii.eqb_eq in H2.
      subst b. right; left. split; [reflexivity|].
      apply orb_true_iff in H3 as [H3|H3]; apply Ascii.eqb_eq in H3; auto.
    + right; right. now exists b, tl.
Qed.

Lemma untok_tok (q c : ascii) (r : list ascii) :
  is_quote q -> untok (tok q c ++ r) = Some (c, r).
Proof.
  intros [-> | ->]; destruct c as [[] [] [] [] [] [] [] []]; reflexivity.
Qed.

Lemma repr_body_inj (q : ascii) :
  is_quote q ->
  forall s1 s2, chars (repr_body q s1) = chars (repr_body q s2) -> s1 = s2.
Proof.
  intros Hq. induction s1 as [|c1 s1 IH]; intros [|c2 s2]; simpl;
    rewrite ?chars_app; intros H.
  - reflexivity.
  - apply (f_equal untok) in H. fold (tok q c2) in H.
    rewrite untok_tok in H by assumption. discriminate.
  - apply (f_equal untok) in H. fold (tok q c1) in H.
    rewrite untok_tok in H by assumption. discriminate.
  - apply (f_equal untok) in H. fold (tok q c1) (tok q c2) in H.
    rewrite !untok_tok in H by assumption.
    injection H as -> H. f_equal. now apply IH.
Qed.

Lemma prepend_app (p1 p2 : list ascii) o :
  prepend p1 (prepend p2 o) = prepend (p1 ++ p2) o.
Proof.
  destruct o as [[a b]|]; simpl; [|reflexivity]. now rewrite app_assoc.
Qed.

Lemma clean_neq (q a : ascii) :
  clean q a = true -> Ascii.eqb a q = false /\ Ascii.eqb a bslash = false.
Proof.
  unfold clean. intros H. apply andb_true_iff in H as [H1 H2].
  now rewrite negb_true_iff in H1, H2.
Qed.

Lemma scan_clean (q : ascii) (l m : list ascii) :
  forallb (clean q) l = true -> scan q (l ++ m) = prepend l (scan q m).
Proof.
  induction l as [|a l IH]; simpl; intros H.
  - now destruct (scan q m) as [[? ?]|].
  - apply andb_true_iff in H as [Ha Hl]. apply clean_neq in Ha as [Ha _].
    rewrite Ha. simpl. rewrite (IH Hl). now rewrite prepend_app.
Qed.

Lemma bs_run_clean (q a : ascii) (l : list ascii) :
  clean q a = true -> bs_run (a :: l) = 0.
Proof. intros H. apply clean_neq in H as [_ H]. simpl. now rewrite H. Qed.

Lemma quote_not_bslash (q : ascii) : is_quote q -> Ascii.eqb q bslash = false.
Proof. now intros [-> | ->]. Qed.

Lemma scan_cons (q c : ascii) (l : list ascii) :
  scan q (c :: l)
  = if Ascii.eqb c q && Nat.even (bs_run l) then Some ([], l)
    else prepend [c] (scan q l).
Proof. reflexivity. Qed.

Lemma bs_run_cons (a : ascii) (l : list ascii) :
  bs_run (a :: l) = if Ascii.eqb a bslash then S (bs_run l) else 0.
Proof. reflexivity. Qed.

Lemma scan_tok (q c : ascii) (l : list ascii) :
  is_quote q -> Nat.even (bs_run l) = true ->
  scan q (rev (tok q c) ++ l) = prepend (rev (tok q c)) (scan q l) /\
  Nat.even (bs_run (rev (tok q c) ++ l)) = true.
Proof.
  intros Hq He. pose proof (quote_not_bslash q Hq) as Hqb.
  assert (Hb : Ascii.eqb bslash q = false)
    by (rewrite Ascii.eqb_sym; exact Hqb).
  destruct (tok_cases q c Hq) as [[-> Hc]|[[-> Hc]|(b & tl & -> & Hc)]].
  - cbn [rev app]. rewrite (bs_run_clean q c l Hc), scan_cons.
    apply clean_neq in Hc as [Hc _]. rewrite Hc. now split.
  - cbn [rev app]. destruct Hc as [-> | ->].
    + rewrite !scan_cons, !bs_run_cons, Hqb, Hb, !Ascii.eqb_refl.
      rewrite Nat.even_succ, <- Nat.negb_even, He. cbn [negb andb].
      rewrite prepend_app. now split.
    + rewrite !scan_cons, !bs_run_cons, Hb, !Ascii.eqb_refl.
      cbn [andb]. rewrite prepend_app. split; [reflexivity|].
      cbn [Nat.even]. exact He.
  - assert (Hr : forallb (clean q) (rev (b :: tl)) = true).
    { rewrite forallb_forall in *. intros x Hx. apply Hc.
      now apply in_rev. }
    change (rev (bslash :: b :: tl)) with (rev (b :: tl) ++ [bslash]).
    rewrite <- app_assoc. split.
    + rewrite scan_clean by exact Hr. cbn [app].
      rewrite scan_cons, Hb. cbn [andb]. now rewrite prepend_app.
    + destruct (rev (b :: tl)) as [|x xs] eqn:E.
      * apply (f_equal (@List.length ascii)) in E. rewrite length_rev in E.
        discriminate.
      * cbn [forallb] in Hr. apply andb_true_iff in Hr as [Hx _].
        change ((x :: xs) ++ [bslash] ++ l) with (x :: xs ++ [bslash] ++ l).
        now rewrite (bs_run_clean q x _ Hx).
Qed.

Lemma scan_body (q : ascii) (s : string) (l : list ascii) :
  is_quote q -> Nat.even (bs_run l) = true ->
  scan q (rev (chars (repr_body q s)) ++ l)
  = prepend (rev (chars (repr_body q s))) (scan q l) /\
  Nat.even (bs_run (rev (chars (repr_body q s)) ++ l)) = true.
Proof.
  intros Hq. revert l. induction s as [|c s IH]; intros l He; simpl.
  - split; [|exact He]. now destruct (scan q l) as [[? ?]|].
  - rewrite chars_app, rev_app_distr, <- app_assoc. fold (tok q c).
    destruct (scan_tok q c l Hq He) as [H1 H2].
    destruct (IH _ H2) as [H3 H4]. split; [|exact H4].
    now rewrite H3, H1, prepend_app.
Qed.

Lemma repr_quote_is (s : string) : is_quote (repr_quote s).
Proof.
  unfold repr_quote, is_quote.
  destruct (has_char squote s && negb (has_char dquote s)); auto.
Qed.

Lemma rev_repr_str (s : string) :
  rev (chars (repr_str s))
  = repr_quote s :: rev (chars (repr_body (repr_quote s) s))
      ++ [repr_quote s].
Proof.
  unfold repr_str. cbn [chars list_ascii_of_string].
  fold chars. rewrite chars_app. cbn [chars list_ascii_of_string].
  cbn [rev]. rewrite rev_app_distr. reflexivity.
Qed.

(** A string literal is determined by its text read from the right, given
    that it is not preceded by a backslash. *)
Lemma repr_str_suffix (s1 s2 : string) (r1 r2 : list ascii) :
  Nat.even (bs_run r1) = true -> Nat.even (bs_run r2) = true ->
  rev (chars (repr_str s1)) ++ r1 = rev (chars (repr_str s2)) ++ r2 ->
  s1 = s2 /\ r1 = r2.
Proof.
  intros E1 E2. rewrite !rev_repr_str. simpl. rewrite <- !app_assoc. simpl.
  pose proof (repr_quote_is s1) as Q1. pose proof (repr_quote_is s2) as Q2.
  intros H. injection H as Hq H. rewrite <- Hq in *.
  set (q := repr_quote s1) in *. clearbody q.
  apply (f_equal (scan q)) in H.
  assert (T : forall r, Nat.even (bs_run r) = true ->
            Nat.even (bs_run (q :: r)) = true /\
            scan q (q :: r) = Some ([], r)).
  { intros r Hr. simpl. rewrite (quote_not_bslash q Q1), Ascii.eqb_refl, Hr.
    auto. }
  destruct (T r1 E1) as [A1 B1]. destruct (T r2 E2) as [A2 B2].
  destruct (scan_body q s1 _ Q1 A1) as [C1 _].
  destruct (scan_body q s2 _ Q1 A2) as [C2 _].
  rewrite C1, C2, B1, B2 in H. simpl in H. rewrite !app_nil_r in H.
  injection H as H ->. split; [|reflexivity].
  apply (f_equal (@rev ascii)) in H. rewrite !rev_involutive in H.
  now apply (repr_body_inj q Q1).
Qed.

Lemma chars_repr_item (kv : string * string) :
  chars (repr_item kv)
  = "("%char :: chars (repr_str (fst kv))
      ++ ","%char :: " "%char :: chars (repr_str (snd kv)) ++ [")"%char].
Proof.
  unfold repr_item. cbn [String.append chars list_ascii_of_string].
  fold chars. rewrite chars_app. cbn [String.append chars list_ascii_of_string].
  fold chars. rewrite chars_app. reflexivity.
Qed.

Lemma rev_repr_item (kv : string * string) :
  rev (chars (repr_item kv))
  = ")"%char :: rev (chars (repr_str (snd kv)))
      ++ " "%char :: ","%char :: rev (chars (repr_str (fst kv)))
      ++ ["("%char].
Proof.
  rewrite chars_repr_item. cbn [rev]. rewrite rev_app_distr. cbn [rev].
  rewrite rev_app_distr. cbn [rev app]. rewrite <- !app_assoc. reflexivity.
Qed.

Lemma repr_item_suffix (x y : string * string) (r1 r2 : list ascii) :
  rev (chars (repr_item x)) ++ r1 = rev (chars (repr_item y)) ++ r2 ->
  x = y /\ r1 = r2.
Proof.
  rewrite !rev_repr_item. cbn [app]. rewrite <- !app_assoc. cbn [app].
  rewrite <- !app_assoc. cbn [app].
  intros H. injection H as H.
  apply repr_str_suffix in H as [Hv H]; try reflexivity.
  injection H as H.
  apply repr_str_suffix in H as [Hk H]; try reflexivity.
  injection H as H. split; [|exact H].
  destruct x, y; simpl in *; congruence.
Qed.

Lemma rjoin_snoc (b : list (string * string)) (x : string * string) :
  b <> [] ->
  rjoin (b ++ [x])
  = rjoin b ++ " "%char :: ","%char :: rev (chars (repr_item x)).
Proof.
  induction b as [|z b IH]; [congruence|]. intros _.
  destruct b as [|z' b].
  - cbn [app rjoin]. now rewrite !app_nil_r.
  - change ((z :: z' :: b) ++ [x]) with (z :: (z' :: b) ++ [x]).
    cbn [rjoin]. change ((z' :: b) ++ [x]) with (z' :: b ++ [x]) at 1.
    cbv iota. change (z' :: b ++ [x]) with ((z' :: b) ++ [x]).
    rewrite IH by congruence. rewrite <- !app_assoc. reflexivity.
Qed.

Lemma rev_repr_items (l : list (string * string)) (x : string * string) :
  rev (chars (repr_items x l)) = rjoin (rev (x :: l)).
Proof.
  revert x. induction l as [|y l IH]; intros x.
  - cbn [repr_items rev app rjoin]. now rewrite app_nil_r.
  - change (rev (x :: y :: l)) with (rev (y :: l) ++ [x]).
    rewrite rjoin_snoc.
    + rewrite <- IH. cbn [repr_items]. rewrite chars_app.
      cbn [String.append chars list_ascii_of_string]. fold chars.
      rewrite rev_app_distr. cbn [rev]. rewrite <- !app_assoc. reflexivity.
    + intros E. apply (f_equal (@List.length _)) in E.
      rewrite length_rev in E. discriminate.
Qed.

Lemma rjoin_head (b : list (string * string)) :
  b <> [] -> exists t, rjoin b = ")"%char :: t.
Proof.
  destruct b as [|z b]; [congruence|]. intros _. cbn [rjoin].
  rewrite rev_repr_item. cbn [app]. eauto.
Qed.

Lemma tail2_eq {A : Type} (a b c d : A) (l m : list A) :
  a :: b :: l = c :: d :: m -> l = m.
Proof. congruence. Qed.

Lemma rjoin_suffix (a : list (string * string)) :
  forall b r1 r2, a <> [] -> b <> [] ->
  rjoin a ++ "("%char :: r1 = rjoin b ++ "("%char :: r2 ->
  a = b /\ r1 = r2.
Proof.
  induction a as [|x a IH]; [congruence|].
  intros [|y b] r1 r2 _ Hb; [congruence|]. cbn [rjoin].
  rewrite <- !app_assoc. intros H.
  apply repr_item_suffix in H as [-> H].
  destruct a as [|x' a], b as [|y' b]; cbn [app] in H.
  - injection H as ->. auto.
  - discriminate.
  - discriminate.
  - apply tail2_eq in H. apply IH in H as [-> ->]; try congruence. auto.
Qed.

Lemma rev_repr_tuple (t : list (string * string)) :
  t <> [] ->
  rev (chars (repr_tuple t))
  = ")"%char :: rtail t ++ rjoin (rev t) ++ ["("%char].
Proof.
  destruct t as [|x [|y l]]; [congruence| |]; intros _.
  - cbn [repr_tuple rtail rev app rjoin].
    cbn [String.append chars list_ascii_of_string]. fold chars.
    rewrite chars_app. cbn [chars list_ascii_of_string rev].
    rewrite rev_app_distr. cbn [rev app]. now rewrite app_nil_r.
  - unfold repr_tuple.
    cbn [String.append chars list_ascii_of_string]. fold chars.
    rewrite chars_app. cbn [chars list_ascii_of_string rev].
    rewrite rev_app_distr. cbn [rev app rtail].
    now rewrite rev_repr_items.
Qed.

(** A tuple is determined by its text read from the right, whatever comes
    before it. *)
Lemma repr_tuple_suffix (t1 t2 : list (string * string))
      (r1 r2 : list ascii) :
  rev (chars (repr_tuple t1)) ++ r1 = rev (chars (repr_tuple t2)) ++ r2 ->
  t1 = t2 /\ r1 = r2.
Proof.
  assert (N : forall t : list (string * string), t <> [] -> rev t <> []).
  { intros t Ht E. apply Ht. apply (f_equal (@rev _)) in E.
    now rewrite rev_involutive in E. }
  destruct t1 as [|x1 t1], t2 as [|x2 t2].
  - cbn. intros H. injection H as ->. auto.
  - rewrite (rev_repr_tuple (x2 :: t2)) by congruence.
    destruct (rjoin_head (rev (x2 :: t2))) as [u Hu]; [apply N; congruence|].
    rewrite Hu. destruct t2; cbn; discriminate.
  - rewrite (rev_repr_tuple (x1 :: t1)) by congruence.
    destruct (rjoin_head (rev (x1 :: t1))) as [u Hu]; [apply N; congruence|].
    rewrite Hu. destruct t1; cbn; discriminate.
  - rewrite !rev_repr_tuple by congruence.
    assert (N1 : rev (x1 :: t1) <> []) by (apply N; congruence).
    assert (N2 : rev (x2 :: t2) <> []) by (apply N; congruence).
    destruct (rjoin_head _ N1) as [u1 Hu1].
    destruct (rjoin_head _ N2) as [u2 Hu2].
    intros H.
    assert (K : rjoin (rev (x1 :: t1)) ++ "("%char :: r1
              = rjoin (rev (x2 :: t2)) ++ "("%char :: r2).
    { destruct t1 as [|? ?], t2 as [|? ?]; cbn [rtail app] in H;
        rewrite <- ?app_assoc in H; cbn [app] in H.
      - now injection H.
      - rewrite Hu2 in H. discriminate.
      - rewrite Hu1 in H. discriminate.
      - now injection H. }
    apply rjoin_suffix in K as [E ->]; try assumption.
    apply (f_equal (@rev _)) in E. rewrite !rev_involutive in E. auto.
Qed.

Lemma rev_cache_key (path : string) (params : dict) :
  rev (chars (_cache_key path params))
  = rev (chars (repr_tuple (sorted params)))
      ++ "|"%char :: rev (chars path).
Proof.
  unfold _cache_key. rewrite chars_app.
  cbn [String.append chars list_ascii_of_string]. fold chars.
  rewrite rev_app_distr. cbn [rev]. now rewrite <- app_assoc.
Qed.

Lemma cache_key_inj (path1 path2 : string) (p1 p2 : dict) :
  _cache_key path1 p1 = _cache_key path2 p2 ->
  path1 = path2 /\ sorted p1 = sorted p2.
Proof.
  intros H. apply (f_equal (fun k => rev (chars k))) in H.
  rewrite !rev_cache_key in H.
  apply repr_tuple_suffix in H as [Ht H]. split; [|exact Ht].
  injection H as H. apply (f_equal (@rev _)) in H.
  rewrite !rev_involutive in H. now apply chars_inj.
Qed.

End ReprFacts.

(** ** Facts about the cache *)

Module CacheFacts.
Import Cachetools CacheInv.

Section Facts.
Context {V : Type}.
Implicit Types (c : TTLCache V) (k key : string).

(** *** Association lists *)

Lemma assoc_app {A} k (l1 l2 : list (string * A)) :
  assoc k (l1 ++ l2)
  = match assoc k l1 with Some a => Some a | None => assoc k l2 end.
Proof.
  induction l1 as [|[k' a] l1 IH]; simpl; [reflexivity|].
  now destruct (String.eqb k' k).
Qed.

Lemma assoc_In {A} k (a : A) (l : list (string * A)) :
  assoc k l = Some a -> In (k, a) l.
Proof.
  induction l as [|[k' b] l IH]; simpl; [discriminate|].
  destruct (String.eqb_spec k' k) as [->|N]; intros H.
  - injection H as ->. now left.
  - right. now apply IH.
Qed.

Lemma assoc_None {A} k (l : list (string * A)) :
  assoc k l = None <-> ~ In k (map fst l).
Proof.
  induction l as [|[k' b] l IH]; simpl; [tauto|].
  destruct (String.eqb_spec k' k) as [->|N].
  - split; [discriminate|]. intros H. exfalso. apply H. now left.
  - rewrite IH. tauto.
Qed.

Lemma assoc_unique {A} k (a : A) (l : list (string * A)) :
  NoDup (map fst l) -> In (k, a) l -> assoc k l = Some a.
Proof.
  induction l as [|[k' b] l IH]; simpl; [tauto|].
  intros ND [E|I].
  - injection E as -> ->. now rewrite String.eqb_refl.
  - inversion ND as [|? ? Hn ND']; subst.
    destruct (String.eqb_spec k' k) as [->|N]; [|now apply IH].
    exfalso. apply Hn. change k with (fst (k, a)). now apply in_map.
Qed.

Lemma drop_In {A} k (x : string * A) (l : list (string * A)) :
  In x (drop k l) -> In x l.
Proof.
  induction l as [|[k' b] l IH]; simpl; [tauto|].
  destruct (String.eqb k' k); simpl; tauto.
Qed.

Lemma drop_keys_In {A} k k0 (l : list (string * A)) :
  In k0 (map fst (drop k l)) -> In k0 (map fst l).
Proof.
  induction l as [|[k' b] l IH]; simpl; [tauto|].
  destruct (String.eqb k' k); simpl; tauto.
Qed.

Lemma drop_length {A} k (l : list (string * A)) :
  (List.length (drop k l) <= List.length l)%nat.
Proof.
  induction l as [|[k' b] l IH]; simpl; [lia|].
  destruct (String.eqb k' k); simpl; lia.
Qed.

Lemma drop_length_present {A} k (a : A) (l : list (string * A)) :
  assoc k l = Some a -> S (List.length (drop k l)) = List.length l.
Proof.
  induction l as [|[k' b] l IH]; simpl; [discriminate|].
  destruct (String.eqb k' k); simpl; [reflexivity|].
  intros H. now rewrite IH.
Qed.

Lemma drop_absent {A} k (l : list (string * A)) :
  assoc k l = None -> drop k l = l.
Proof.
  induction l as [|[k' b] l IH]; simpl; [reflexivity|].
  destruct (String.eqb k' k); [discriminate|].
  intros H. now rewrite IH.
Qed.

Lemma drop_NoDup {A} k (l : list (string * A)) :
  NoDup (map fst l) -> NoDup (map fst (drop k l)).
Proof.
  induction l as [|[k' b] l IH]; simpl; [auto|].
  intros ND. inversion ND as [|? ? Hn ND']; subst.
  destruct (String.eqb k' k); [assumption|]. simpl. constructor.
  - intros I. apply Hn. now apply drop_keys_In in I.
  - now apply IH.
Qed.

Lemma drop_gone {A} k (l : list (string * A)) :
  NoDup (map fst l) -> ~ In k (map fst (drop k l)).
Proof.
  induction l as [|[k' b] l IH]; simpl; [tauto|].
  intros ND. inversion ND as [|? ? Hn ND']; subst.
  destruct (String.eqb_spec k' k) as [->|N]; [assumption|].
  simpl. intros [E|I]; [contradiction|]. now apply IH in I.
Qed.

Lemma assoc_drop_other {A} k k' (l : list (string * A)) :
  k <> k' -> assoc k (drop k' l) = assoc k l.
Proof.
  intros N. induction l as [|[k0 b] l IH]; simpl; [reflexivity|].
  destruct (String.eqb_spec k0 k') as [->|N'].
  - destruct (String.eqb_spec k' k); [congruence|reflexivity].
  - simpl. now rewrite IH.
Qed.

Lemma drop_filter {A} k (l : list (string * A)) :
  NoDup (map fst l) ->
  drop k l = filter (fun x => negb (String.eqb (fst x) k)) l.
Proof.
  induction l as [|[k' b] l IH]; simpl; [reflexivity|].
  intros ND. inversion ND as [|? ? Hn ND']; subst.
  destruct (String.eqb_spec k' k) as [->|N]; simpl.
  - symmetry. apply forallb_filter_id. apply forallb_forall.
    intros [k0 b0] I. simpl. apply negb_true_iff, String.eqb_neq.
    intros ->. apply Hn. change k with (fst (k, b0)). now apply in_map.
  - now rewrite IH.
Qed.

Lemma drop_perm {A} k (l1 l2 : list (string * A)) :
  NoDup (map fst l1) -> Permutation l1 l2 ->
  Permutation (drop k l1) (drop k l2).
Proof.
  intros ND P.
  assert (ND2 : NoDup (map fst l2)).
  { eapply Permutation_NoDup; [|exact ND]. now apply Permutation_map. }
  rewrite !drop_filter by assumption.
  clear ND ND2. induction P; simpl.
  - reflexivity.
  - destruct (negb (String.eqb (fst x) k)); [now constructor|assumption].
  - destruct (negb (String.eqb (fst x) k)), (negb (String.eqb (fst y) k));
      try reflexivity. apply perm_swap.
  - etransitivity; eassumption.
Qed.

Lemma map_link_of_drop k (l : list (string * (V * Z))) :
  map link_of (drop k l) = drop k (map link_of l).
Proof.
  induction l as [|[k' b] l IH]; simpl; [reflexivity|].
  destruct (String.eqb k' k); simpl; [reflexivity|]. now rewrite IH.
Qed.

Lemma keys_link_of (l : list (string * (V * Z))) :
  map fst (map link_of l) = map fst l.
Proof. rewrite map_map. now apply map_ext. Qed.

Lemma with_links_same c : with_links c (links c) (chain c) = c.
Proof. now destruct c. Qed.

(** *** What every operation keeps, whatever the clock reads *)

Lemma shrinks_refl c : shrinks c c.
Proof. unfold shrinks. repeat split; auto using incl_refl. Qed.

Lemma shrinks_trans c1 c2 c3 : shrinks c1 c2 -> shrinks c2 c3 -> shrinks c1 c3.
Proof.
  intros (A1 & B1 & C1 & D1 & E1) (A2 & B2 & C2 & D2 & E2).
  unfold shrinks. repeat split; try congruence; try lia; auto.
  eapply incl_tran; eauto.
Qed.

Lemma expire_chain_shrinks (t : Z) (ch : list (string * Z)) :
  forall lk : list (string * (V * Z)),
  incl (fst (expire_chain t ch lk)) lk /\
  (List.length (fst (expire_chain t ch lk)) <= List.length lk)%nat /\
  (NoDup (map fst lk) -> NoDup (map fst (fst (expire_chain t ch lk)))).
Proof.
  induction ch as [|[k e] ch IH]; intros lk; simpl.
  - repeat split; auto using incl_refl.
  - destruct (t <? e)%Z; simpl.
    + repeat split; auto using incl_refl.
    + destruct (IH (drop k lk)) as (A & B & C). repeat split.
      * intros x I. eapply drop_In. now apply A.
      * pose proof (drop_length k lk). lia.
      * intros ND. apply C. now apply drop_NoDup.
Qed.

Lemma expire_links t c :
  links (expire t c) = fst (expire_chain t (chain c) (links c)).
Proof. unfold expire. now destruct (expire_chain t (chain c) (links c)). Qed.

Lemma expire_conf t c :
  maxsize (expire t c) = maxsize c /\ ttl (expire t c) = ttl c.
Proof. unfold expire. now destruct (expire_chain t (chain c) (links c)). Qed.

Lemma expire_shrinks t c : shrinks c (expire t c).
Proof.
  destruct (expire_conf t c) as [A B].
  destruct (expire_chain_shrinks t (chain c) (links c)) as (C & D & E).
  unfold shrinks, keys. rewrite expire_links. auto.
Qed.

Lemma drop_shrinks c k (ch : list (string * Z)) :
  shrinks c (with_links c (drop k (links c)) ch).
Proof.
  unfold shrinks, keys. simpl. repeat split.
  - intros x. apply drop_In.
  - apply drop_length.
  - apply drop_NoDup.
Qed.

Lemma popitem_cases t c :
  (links (expire t c) = [] /\
   popitem t c = (Raise (KeyError "TTLCache is empty"), expire t c)) \/
  (exists k v e lk,
     links (expire t c) = (k, (v, e)) :: lk /\
     (((t <? e)%Z = true /\
       popitem t c
       = (Return tt, with_links (expire t c) (drop k (links (expire t c)))
                                (drop k (chain (expire t c))))) \/
      ((t <? e)%Z = false /\
       popitem t c = (Raise (KeyError k), expire t c)))).
Proof.
  unfold popitem. destruct (links (expire t c)) as [|[k [v e]] lk].
  - now left.
  - right. exists k, v, e, lk. split; [reflexivity|].
    destruct (t <? e)%Z; auto.
Qed.

Lemma popitem_shrinks t c r c' :
  popitem t c = (r, c') ->
  shrinks c c' /\
  (r = Return tt -> (S (List.length (links c')) <= List.length (links c))%nat).
Proof.
  pose proof (expire_shrinks t c) as S1.
  destruct (popitem_cases t c)
    as [[E ->]|(k & v & e & lk & E & [[L ->]|[L ->]])];
    intros H; injection H as <- <-.
  - split; [exact S1|discriminate].
  - split.
    + eapply shrinks_trans; [exact S1|apply drop_shrinks].
    + intros _. cbn [links with_links].
      assert (A : assoc k (links (expire t c)) = Some (v, e)).
      { rewrite E. simpl. now rewrite String.eqb_refl. }
      apply drop_length_present in A.
      destruct S1 as (_ & _ & _ & L1 & _). lia.
  - split; [exact S1|discriminate].
Qed.

Lemma evict_loop_shrinks t fuel : forall c r c',
  evict_loop fuel t c = Some (r, c') ->
  shrinks c c' /\
  (r = Return tt -> (currsize c' + 1 <= maxsize c')%Z).
Proof.
  induction fuel as [|fuel IH]; intros c r c'; simpl;
    destruct (Z.ltb_spec (maxsize c) (currsize c + 1)) as [L|L];
    try discriminate;
    try (intros H; injection H as <- <-; split;
         [apply shrinks_refl|intros _; lia]).
  destruct (popitem t c) as [[u|e] c1] eqn:P.
  - destruct (popitem_shrinks _ _ _ _ P) as [S1 _].
    intros H. destruct (IH _ _ _ H) as [S2 L2]. split; [|exact L2].
    eapply shrinks_trans; eauto.
  - intros H. injection H as <- <-.
    destruct (popitem_shrinks _ _ _ _ P) as [S1 _]. split; [exact S1|].
    discriminate.
Qed.

(** The rounds never run out. *)
Lemma evict_loop_fuel t fuel : forall c,
  (List.length (links c) < fuel)%nat ->
  exists res, evict_loop fuel t c = Some res.
Proof.
  induction fuel as [|fuel IH]; intros c Lt; [lia|]. simpl.
  destruct (maxsize c <? currsize c + 1)%Z; [|eauto].
  destruct (popitem t c) as [[u|e] c1] eqn:P; [|eauto].
  destruct (popitem_shrinks _ _ _ _ P) as [_ L]. destruct u.
  specialize (L eq_refl). apply IH. lia.
Qed.

Lemma evict_eq t c :
  evict_loop (S (List.length (links c))) t c = Some (evict t c).
Proof.
  unfold evict.
  destruct (evict_loop_fuel t (S (List.length (links c))) c) as [res E];
    [lia|].
  now rewrite E.
Qed.

(** Leaving the eviction loop normally means that there is room for one
    more value. *)
Lemma evict_room t c c' :
  evict t c = (Return tt, c') -> (currsize c' + 1 <= maxsize c)%Z.
Proof.
  intros H. pose proof (evict_eq t c) as E. rewrite H in E.
  destruct (evict_loop_shrinks _ _ _ _ _ E) as [(A & _) L].
  specialize (L eq_refl). lia.
Qed.

Lemma evict_shrinks t c r c' : evict t c = (r, c') -> shrinks c c'.
Proof.
  intros H. pose proof (evict_eq t c) as E. rewrite H in E.
  now destruct (evict_loop_shrinks _ _ _ _ _ E).
Qed.

Lemma move_to_end_perm k (lk : list (string * (V * Z))) :
  Permutation lk (move_to_end k lk).
Proof.
  unfold move_to_end. destruct (assoc k lk) as [a|] eqn:E; [|reflexivity].
  rewrite <- Permutation_cons_append.
  clear - E. induction lk as [|[k' b] lk IH]; simpl in *; [discriminate|].
  destruct (String.eqb_spec k' k) as [->|N].
  - injection E as ->. reflexivity.
  - rewrite perm_swap. constructor. now apply IH.
Qed.

Lemma getitem_conf t k c :
  maxsize (snd (getitem t k c)) = maxsize c /\
  ttl (snd (getitem t k c)) = ttl c /\
  chain (snd (getitem t k c)) = chain c /\
  Permutation (links c) (links (snd (getitem t k c))).
Proof.
  unfold getitem. destruct (assoc k (links c)) as [[v e]|]; [|auto].
  destruct (t <? e)%Z; simpl; auto using move_to_end_perm.
Qed.

Lemma getitem_shrinks t k c : shrinks c (snd (getitem t k c)).
Proof.
  destruct (getitem_conf t k c) as (A & B & _ & P).
  unfold shrinks, keys. repeat split; auto.
  - intros x I. eapply Permutation_in; [symmetry; exact P|exact I].
  - now rewrite (Permutation_length P).
  - intros ND. eapply Permutation_NoDup; [|exact ND].
    now apply Permutation_map.
Qed.

(** What [cache[key] = value] leaves behind. *)
Lemma setitem_spec t k (v : V) c r c' :
  setitem t k v c = (r, c') ->
  maxsize c' = maxsize c /\ ttl c' = ttl c /\
  (NoDup (keys c) -> NoDup (keys c')) /\
  ((List.length (links c) <= Z.to_nat (maxsize c))%nat ->
   (List.length (links c') <= Z.to_nat (maxsize c))%nat) /\
  (forall x, In x (links c') ->
     In x (links c) \/ (r = Return tt /\ x = (k, (v, t + ttl c)%Z))) /\
  (r = Return tt -> NoDup (keys c) ->
   assoc k (links c') = Some (v, (t + ttl c)%Z)).
Proof.
  unfold setitem. pose proof (expire_shrinks t c) as S1.
  destruct (maxsize (expire t c) <? 1)%Z eqn:M.
  - intros H. injection H as <- <-.
    destruct S1 as (A & B & C & D & E). repeat split; auto; try lia.
    discriminate.
  - apply Z.ltb_ge in M.
    assert (X : forall c2, shrinks (expire t c) c2 ->
              (currsize c2 + 1 <= maxsize c2 \/
               exists a, assoc k (links c2) = Some a)%Z ->
              let c3 := with_links c2
                          (drop k (links c2) ++ [(k, (v, (t + ttl c2)%Z))])
                          (drop k (chain c2) ++ [(k, (t + ttl c2)%Z)]) in
              maxsize c3 = maxsize c /\ ttl c3 = ttl c /\
              (NoDup (keys c) -> NoDup (keys c3)) /\
              ((List.length (links c) <= Z.to_nat (maxsize c))%nat ->
               (List.length (links c3) <= Z.to_nat (maxsize c))%nat) /\
              (forall x, In x (links c3) ->
                 In x (links c) \/ x = (k, (v, t + ttl c)%Z)) /\
              (NoDup (keys c) ->
               assoc k (links c3) = Some (v, (t + ttl c)%Z))).
    { intros c2 S2 R. pose proof (shrinks_trans _ _ _ S1 S2) as S3.
      destruct S3 as (A & B & C & D & E). simpl. rewrite B.
      repeat split; auto.
      - intros ND. specialize (E ND). unfold keys in *. simpl.
        rewrite map_app. simpl.
        eapply Permutation_NoDup; [apply Permutation_cons_append|].
        constructor; [now apply drop_gone|now apply drop_NoDup].
      - intros L. rewrite length_app. simpl. unfold currsize in R.
        destruct R as [R|[a R]].
        + pose proof (drop_length k (links c2)). lia.
        + apply drop_length_present in R. lia.
      - intros x I. apply in_app_or in I as [I|[<-|[]]]; [|now right].
        left. apply C. eapply drop_In; eauto.
      - intros ND. specialize (E ND). rewrite assoc_app.
        assert (G : assoc k (drop k (links c2)) = None).
        { apply assoc_None. now apply drop_gone. }
        rewrite G. simpl. now rewrite String.eqb_refl. }
    destruct (assoc k (links (expire t c))) as [a|] eqn:As.
    + intros H. injection H as <- <-.
      destruct (X (expire t c) (shrinks_refl _)) as (A & B & C & D & E & F).
      { right. eauto. }
      repeat split; auto.
      intros x I. apply E in I as [I|I]; auto.
    + destruct (evict t (expire t c)) as [[u|e] c2] eqn:Ev.
      * destruct u. intros H. injection H as <- <-.
        pose proof (evict_shrinks _ _ _ _ Ev) as S2.
        destruct (X c2 S2) as (A & B & C & D & E & F).
        { left. apply evict_room in Ev. destruct S2 as (S2 & _). lia. }
        repeat split; auto.
        intros x I. apply E in I as [I|I]; auto.
      * intros H. injection H as <- <-.
        pose proof (evict_shrinks _ _ _ _ Ev) as S2.
        destruct (shrinks_trans _ _ _ S1 S2) as (A & B & C & D & E).
        repeat split; auto; try lia. discriminate.
Qed.

Lemma setitem_shrinks_raise t k (v : V) c e c' :
  setitem t k v c = (Raise e, c') -> shrinks c c'.
Proof.
  unfold setitem. pose proof (expire_shrinks t c) as S1.
  destruct (maxsize (expire t c) <? 1)%Z.
  - intros H. now injection H as _ <-.
  - destruct (assoc k (links (expire t c))) as [a|]; [discriminate|].
    destruct (evict t (expire t c)) as [[u|e'] c2] eqn:Ev; [discriminate|].
    intros H. injection H as _ <-.
    eapply shrinks_trans; [exact S1|]. eapply evict_shrinks; eauto.
Qed.

(** *** Lookups *)

Lemma getitem_hit t k c :
  fst (getitem t k c)
  = match hit t k c with
    | Some v => Return v
    | None => Raise (KeyError k)
    end.
Proof.
  unfold getitem, hit. destruct (assoc k (links c)) as [[v e]|]; [|reflexivity].
  now destruct (t <? e)%Z.
Qed.

Lemma move_to_end_assoc k k' (lk : list (string * (V * Z))) :
  NoDup (map fst lk) -> assoc k' (move_to_end k lk) = assoc k' lk.
Proof.
  intros ND. unfold move_to_end.
  destruct (assoc k lk) as [a|] eqn:E; [|reflexivity].
  rewrite assoc_app. destruct (String.eqb_spec k k') as [->|N].
  - assert (G : assoc k' (drop k' lk) = None).
    { apply assoc_None. now apply drop_gone. }
    rewrite G. simpl. now rewrite String.eqb_refl.
  - rewrite assoc_drop_other by congruence.
    destruct (assoc k' lk); [reflexivity|]. simpl.
    destruct (String.eqb_spec k k'); [contradiction|reflexivity].
Qed.

Lemma getitem_keeps_hit t k c t' k' :
  NoDup (keys c) -> hit t' k' (snd (getitem t k c)) = hit t' k' c.
Proof.
  intros ND. unfold getitem, hit.
  destruct (assoc k (links c)) as [[v e]|] eqn:E; [|reflexivity].
  destruct (t <? e)%Z; simpl; now rewrite move_to_end_assoc.
Qed.

(** *** The invariant under a monotonic clock *)

Lemma inv_mono T T' c : Inv T c -> (T <= T')%Z -> Inv T' c.
Proof.
  intros [A B C D] L. split; auto.
  eapply Forall_impl; [|exact D]. simpl. intros; lia.
Qed.

Lemma inv_empty T (m l : Z) : Inv T (@empty V m l).
Proof. split; simpl; constructor. Qed.

Lemma drop_sorted k (ch : list (string * Z)) :
  StronglySorted le_expires ch -> StronglySorted le_expires (drop k ch).
Proof.
  induction 1 as [|[k' e] ch S IH F]; simpl; [constructor|].
  destruct (String.eqb k' k); [assumption|]. constructor; [assumption|].
  rewrite Forall_forall in *. intros x I. apply F. eapply drop_In; eauto.
Qed.

Lemma snoc_sorted (ch : list (string * Z)) (x : string * Z) :
  StronglySorted le_expires ch -> Forall (fun y => le_expires y x) ch ->
  StronglySorted le_expires (ch ++ [x]).
Proof.
  induction 1 as [|y ch S IH F]; simpl; intros G.
  - repeat constructor.
  - inversion G as [|? ? Gy G']; subst. constructor; [now apply IH|].
    apply Forall_app. split; [assumption|]. now constructor.
Qed.

Lemma drop_Forall {A} (P : string * A -> Prop) k (l : list (string * A)) :
  Forall P l -> Forall P (drop k l).
Proof.
  rewrite !Forall_forall. intros H x I. apply H. eapply drop_In; eauto.
Qed.

Lemma expire_chain_inv (t : Z) (ch : list (string * Z)) :
  forall lk : list (string * (V * Z)),
  NoDup (map fst lk) -> Permutation (map link_of lk) ch ->
  StronglySorted le_expires ch ->
  NoDup (map fst (fst (expire_chain t ch lk))) /\
  Permutation (map link_of (fst (expire_chain t ch lk)))
              (snd (expire_chain t ch lk)) /\
  StronglySorted le_expires (snd (expire_chain t ch lk)) /\
  Forall (fun ke => (t < snd ke)%Z) (snd (expire_chain t ch lk)) /\
  incl (snd (expire_chain t ch lk)) ch.
Proof.
  induction ch as [|[k e] ch IH]; intros lk ND P S; simpl.
  - repeat split; auto using incl_refl.
  - destruct (t <? e)%Z eqn:L; simpl.
    + repeat split; auto using incl_refl.
      inversion S as [|? ? S' F]; subst. apply Z.ltb_lt in L.
      constructor; [exact L|]. eapply Forall_impl; [|exact F].
      unfold le_expires. simpl. intros; lia.
    + inversion S as [|? ? S' F]; subst.
      destruct (IH (drop k lk)) as (A & B & C & D & E); auto.
      * now apply drop_NoDup.
      * rewrite map_link_of_drop.
        assert (Q : Permutation (drop k (map link_of lk))
                                (drop k ((k, e) :: ch))).
        { apply drop_perm; [|exact P]. now rewrite keys_link_of. }
        simpl in Q. now rewrite String.eqb_refl in Q.
      * repeat split; auto. now apply incl_tl.
Qed.

Lemma expire_chain_eq t c :
  expire t c
  = with_links c (fst (expire_chain t (chain c) (links c)))
                 (snd (expire_chain t (chain c) (links c))).
Proof. unfold expire. now destruct (expire_chain t (chain c) (links c)). Qed.

Lemma expire_inv T t c :
  Inv T c -> Inv T (expire t c) /\ AllLive t (expire t c).
Proof.
  intros [A B C D].
  destruct (expire_chain_inv t (chain c) (links c) A B C)
    as (E & F & G & H & I).
  rewrite expire_chain_eq. split; [split|]; simpl; auto.
  rewrite Forall_forall in *. intros x J. apply D. now apply I.
Qed.

Lemma expire_live t c : AllLive t c -> expire t c = c.
Proof.
  unfold AllLive. intros H. rewrite expire_chain_eq.
  destruct (chain c) as [|[k e] ch] eqn:E; simpl.
  - rewrite <- E. apply with_links_same.
  - inversion H as [|? ? L _]; subst. simpl in L.
    apply Z.ltb_lt in L. rewrite L. simpl. rewrite <- E.
    apply with_links_same.
Qed.

Lemma popitem_inv T t c :
  Inv T c -> AllLive t c -> links c <> [] ->
  exists c', popitem t c = (Return tt, c') /\ Inv T c' /\ AllLive t c' /\
             S (List.length (links c')) = List.length (links c).
Proof.
  intros [A B C D] L N.
  destruct (popitem_cases t c)
    as [[E _]|(k & v & e & lk & E & [[Lt ->]|[Lt _]])];
    rewrite (expire_live t c L) in *.
  - contradiction.
  - eexists. split; [reflexivity|].
    assert (As : assoc k (links c) = Some (v, e)).
    { rewrite E. simpl. now rewrite String.eqb_refl. }
    split; [split|split]; simpl.
    + now apply drop_NoDup.
    + rewrite map_link_of_drop. apply drop_perm; [|exact B].
      now rewrite keys_link_of.
    + now apply drop_sorted.
    + now apply drop_Forall.
    + unfold AllLive. simpl. now apply drop_Forall.
    + now apply drop_length_present in As.
  - exfalso. apply Z.ltb_ge in Lt.
    assert (I : In (k, e) (chain c)).
    { eapply Permutation_in; [exact B|]. rewrite E. now left. }
    unfold AllLive in L. rewrite Forall_forall in L.
    apply L in I. simpl in I. lia.
Qed.

Lemma evict_loop_inv T t fuel : forall c r c',
  Inv T c -> AllLive t c -> (1 <= maxsize c)%Z ->
  evict_loop fuel t c = Some (r, c') ->
  r = Return tt /\ Inv T c' /\ AllLive t c'.
Proof.
  induction fuel as [|fuel IH]; intros c r c' I L M; simpl;
    destruct (Z.ltb_spec (maxsize c) (currsize c + 1)) as [Lt|Ge];
    try discriminate;
    try (intros H; injection H as <- <-; auto).
  assert (N : links c <> []).
  { unfold currsize in Lt. destruct (links c); simpl in *; [lia|discriminate]. }
  destruct (popitem_inv T t c I L N) as (c1 & P & I1 & L1 & _).
  rewrite P. apply IH; auto.
  apply popitem_shrinks in P as [(A & _) _]. lia.
Qed.

(** With a monotonic clock and room for at least one value, a store
    succeeds and leaves the value under its key until [t + ttl]. *)
Lemma setitem_inv T t k (v : V) c :
  Inv T c -> (T <= t)%Z -> (1 <= maxsize c)%Z ->
  exists c', setitem t k v c = (Return tt, c') /\ Inv t c' /\
             maxsize c' = maxsize c /\ ttl c' = ttl c /\
             assoc k (links c') = Some (v, (t + ttl c)%Z).
Proof.
  intros I Le M. pose proof (inv_nodup _ _ I) as ND.
  destruct (expire_inv T t c I) as [I1 L1].
  destruct (expire_conf t c) as [Cm Ct].
  assert (R : exists c2, (match assoc k (links (expire t c)) with
                          | Some _ => (Return tt, expire t c)
                          | None => evict t (expire t c)
                          end) = (Return tt, c2) /\ Inv T c2 /\ ttl c2 = ttl c).
  { destruct (assoc k (links (expire t c))); [eauto|].
    destruct (evict t (expire t c)) as [r c2] eqn:Ev.
    pose proof (evict_eq t (expire t c)) as E. rewrite Ev in E.
    destruct (evict_loop_inv T t _ _ _ _ I1 L1 ltac:(lia) E) as (-> & I2 & _).
    exists c2. split; [reflexivity|]. split; [exact I2|].
    apply evict_shrinks in Ev as (_ & B & _). congruence. }
  destruct R as (c2 & R & I2 & T2).
  assert (S : setitem t k v c
            = (Return tt,
               with_links c2 (drop k (links c2) ++ [(k, (v, (t + ttl c2)%Z))])
                             (drop k (chain c2) ++ [(k, (t + ttl c2)%Z)]))).
  { unfold setitem. assert (Mx : (maxsize (expire t c) <? 1)%Z = false)
      by (apply Z.ltb_ge; lia).
    rewrite Mx, R. reflexivity. }
  eexists. split; [exact S|].
  destruct (setitem_spec _ _ _ _ _ _ S) as (A & B & _ & _ & _ & F).
  split; [|auto]. destruct I2 as [N2 P2 S2 B2]. split; simpl.
  - unfold keys. simpl. rewrite map_app. simpl.
    eapply Permutation_NoDup; [apply Permutation_cons_append|].
    constructor; [now apply drop_gone|now apply drop_NoDup].
  - rewrite map_app. simpl. unfold link_of at 2. simpl.
    apply Permutation_app_tail. rewrite map_link_of_drop.
    apply drop_perm; [|exact P2]. now rewrite keys_link_of.
  - apply snoc_sorted; [now apply drop_sorted|].
    apply drop_Forall. eapply Forall_impl; [|exact B2].
    unfold le_expires. simpl. intros; lia.
  - apply Forall_app. split.
    + apply drop_Forall. eapply Forall_impl; [|exact B2]. simpl. intros; lia.
    + constructor; [simpl; lia|constructor].
Qed.

Lemma getitem_inv T t k c :
  Inv T c -> (T <= t)%Z -> Inv t (snd (getitem t k c)).
Proof.
  intros I Le. apply (inv_mono T); [|exact Le].
  destruct I as [A B C D].
  destruct (getitem_conf t k c) as (Cm & Ct & Cc & P).
  split.
  - unfold keys. eapply Permutation_NoDup; [|exact A].
    now apply Permutation_map.
  - rewrite Cc. rewrite <- B. apply Permutation_map. now symmetry.
  - now rewrite Cc.
  - now rewrite Cc, Ct.
Qed.

(** *** Links that stay *)

(** The chain entry of a key carries the expiry time of its link. *)
Lemma inv_chain_expiry T c k (v : V) (e e' : Z) :
  Inv T c -> assoc k (links c) = Some (v, e) -> In (k, e') (chain c) ->
  e' = e.
Proof.
  intros [A B _ _] As I.
  apply (Permutation_in _ (Permutation_sym B)) in I.
  apply in_map_iff in I as ([k0 [v0 e0]] & E & I).
  unfold link_of in E. simpl in E. injection E as -> ->.
  apply (assoc_unique _ _ _ A) in I. congruence.
Qed.

Lemma expire_chain_keeps (t : Z) k (x : V * Z) :
  forall ch lk,
  (forall e, In (k, e) ch -> (t < e)%Z) ->
  assoc k lk = Some x ->
  assoc k (fst (expire_chain t ch lk)) = Some x.
Proof.
  induction ch as [|[k' e'] ch IH]; intros lk H A; simpl; [exact A|].
  destruct (Z.ltb_spec t e') as [L|L]; [exact A|].
  apply IH.
  - intros e I. apply H. now right.
  - rewrite assoc_drop_other; [exact A|].
    intros ->. specialize (H e' (or_introl eq_refl)). lia.
Qed.

(** A link that is live at [t] is still there after [expire(t)]. *)
Lemma expire_keeps T t c k (v : V) (e : Z) :
  Inv T c -> assoc k (links c) = Some (v, e) -> (t < e)%Z ->
  assoc k (links (expire t c)) = Some (v, e).
Proof.
  intros I A L. rewrite expire_links. apply expire_chain_keeps; [|exact A].
  intros e' In'. now rewrite (inv_chain_expiry _ _ _ _ _ _ I A In').
Qed.

Lemma getitem_assoc t k c k' :
  NoDup (keys c) ->
  assoc k' (links (snd (getitem t k c))) = assoc k' (links c).
Proof.
  intros ND. unfold getitem.
  destruct (assoc k (links c)) as [[v e]|] eqn:E; [|reflexivity].
  destruct (t <? e)%Z; simpl; now rewrite move_to_end_assoc.
Qed.

Lemma getitem_currsize t k c :
  currsize (snd (getitem t k c)) = currsize c.
Proof.
  destruct (getitem_conf t k c) as (_ & _ & _ & P).
  unfold currsize. now rewrite (Permutation_length P).
Qed.

(** While there is room for one more value, a store under another key
    leaves a live link in place and adds at most one link. *)
Lemma setitem_keeps T t k (v : V) c k0 (v0 : V) (e0 : Z) :
  Inv T c -> k0 <> k ->
  assoc k0 (links c) = Some (v0, e0) -> (t < e0)%Z ->
  (currsize c + 1 <= maxsize c)%Z ->
  assoc k0 (links (snd (setitem t k v c))) = Some (v0, e0) /\
  (currsize (snd (setitem t k v c)) <= currsize c + 1)%Z.
Proof.
  intros I N A L R.
  pose proof (expire_keeps _ _ _ _ _ _ I A L) as A1.
  destruct (expire_conf t c) as [Cm Ct].
  destruct (expire_shrinks t c) as (_ & _ & _ & Le & _).
  assert (S1 : (currsize (expire t c) <= currsize c)%Z)
    by (unfold currsize; lia).
  unfold setitem.
  destruct (Z.ltb_spec (maxsize (expire t c)) 1) as [M|M];
    [simpl; split; [exact A1|lia]|].
  assert (Keep : forall c2 : TTLCache V,
            links c2 = links (expire t c) ->
            assoc k0 (drop k (links c2) ++ [(k, (v, (t + ttl c2)%Z))])
            = Some (v0, e0) /\
            (Z.of_nat (List.length
                         (drop k (links c2) ++ [(k, (v, (t + ttl c2)%Z))]))
             <= currsize c + 1)%Z).
  { intros c2 E. rewrite E, assoc_app, assoc_drop_other by exact N.
    rewrite A1. split; [reflexivity|]. rewrite length_app. simpl.
    pose proof (drop_length k (links (expire t c))). unfold currsize in *.
    lia. }
  destruct (assoc k (links (expire t c))) as [x|] eqn:Ak.
  - simpl. apply Keep. reflexivity.
  - assert (Ev : evict t (expire t c) = (Return tt, expire t c)).
    { unfold evict. simpl.
      destruct (Z.ltb_spec (maxsize (expire t c))
                  (currsize (expire t c) + 1)) as [F|F]; [lia|].
      reflexivity. }
    rewrite Ev. simpl. apply Keep. reflexivity.
Qed.

End Facts.

End CacheFacts.

(** ** Facts about the session *)

Module NetFacts.
Import Requests.

Lemma attempt_eq (up : Upstream) (req : Request) (n : Net) :
  attempt up req n
  = (outcome (up (List.length (sent n)) req),
     {| clock := clock n + Z.of_N (took (up (List.length (sent n)) req));
        sent := sent n ++ [req] |}).
Proof. reflexivity. Qed.

Lemma urlopen_eq (up : Upstream) (r : Retry) (left : nat) (req : Request)
      (n : Net) :
  urlopen up r left req n
  = let (w, n1) := attempt up req n in
    let again :=
      match left with
      | O => None
      | S left' => Some (urlopen up r left' req n1)
      end in
    match w with
    | ConnectFailed reason =>
        match again with
        | None => (Raise (RequestException (ConnectionError reason)), n1)
        | Some res => res
        end
    | ReadFailed reason =>
        if is_method_retryable r (method req) then
          match again with
          | None => (Raise (RequestException (ConnectionError reason)), n1)
          | Some res => res
          end
        else (Raise (RequestException (ConnectionError reason)), n1)
    | Replied resp =>
        if is_retry r left (method req) (status_code resp) (retry_after resp)
        then
          match again with
          | None => (Raise (RequestException (RetryError (status_code resp))),
                     n1)
          | Some res => res
          end
        else (Return resp, n1)
    end.
Proof. destruct left; reflexivity. Qed.

(** Every attempt is logged, and there are at most [left + 1] of them. *)
Lemma urlopen_sent (up : Upstream) (r : Retry) (req : Request) (left : nat) :
  forall n res n',
  urlopen up r left req n = (res, n') ->
  exists k, (1 <= k <= S left)%nat /\
            sent n' = sent n ++ repeat req k /\
            (clock n <= clock n')%Z.
Proof.
  induction left as [|left IH]; intros n res n'; rewrite urlopen_eq, attempt_eq;
    cbv zeta.
  - assert (B : forall res0,
              (res0, {| clock := clock n
                          + Z.of_N (took (up (List.length (sent n)) req));
                        sent := sent n ++ [req] |}) = (res, n') ->
              exists k, (1 <= k <= 1)%nat /\
                        sent n' = sent n ++ repeat req k /\
                        (clock n <= clock n')%Z).
    { intros res0 H. injection H as _ <-. exists 1%nat. simpl.
      repeat split; lia. }
    destruct (outcome _) as [reason|reason|resp].
    + apply B.
    + destruct (is_method_retryable r (method req)); apply B.
    + destruct (is_retry _ _ _ _ _); apply B.
  - assert (B : forall res0,
              (res0, {| clock := clock n
                          + Z.of_N (took (up (List.length (sent n)) req));
                        sent := sent n ++ [req] |}) = (res, n') ->
              exists k, (1 <= k <= S (S left))%nat /\
                        sent n' = sent n ++ repeat req k /\
                        (clock n <= clock n')%Z).
    { intros res0 H. injection H as _ <-. exists 1%nat. simpl.
      repeat split; lia. }
    assert (C : urlopen up r left req
                  {| clock := clock n
                       + Z.of_N (took (up (List.length (sent n)) req));
                     sent := sent n ++ [req] |} = (res, n') ->
                exists k, (1 <= k <= S (S left))%nat /\
                          sent n' = sent n ++ repeat req k /\
                          (clock n <= clock n')%Z).
    { intros H. apply IH in H as (k & Hk & Hs & Hc). simpl in Hs, Hc.
      exists (S k). split; [lia|]. split; [|lia].
      rewrite Hs, <- app_assoc. reflexivity. }
    destruct (outcome _) as [reason|reason|resp].
    + apply C.
    + destruct (is_method_retryable r (method req)); [apply C|apply B].
    + destruct (is_retry _ _ _ _ _); [apply C|apply B].
Qed.

(** The session raises nothing but request exceptions. *)
Lemma urlopen_raises (up : Upstream) (r : Retry) (req : Request) (left : nat) :
  forall n e n',
  urlopen up r left req n = (Raise e, n') ->
  exists e', e = RequestException e'.
Proof.
  induction left as [|left IH]; intros n e n'; rewrite urlopen_eq, attempt_eq;
    cbv zeta;
    destruct (outcome _) as [reason|reason|resp];
    try destruct (is_method_retryable r (method req));
    try destruct (is_retry _ _ _ _ _);
    try (intros H; injection H as <- _; eauto; fail);
    try discriminate; try apply IH.
Qed.

Lemma is_retry_forced (r : Retry) (left : nat) (m : string) (s : Z)
      (ra : bool) :
  is_method_retryable r m = true -> mem_Z s (status_forcelist r) = true ->
  is_retry r left m s ra = true.
Proof. unfold is_retry. now intros -> ->. Qed.

(** A failed attempt of a method that may be retried is followed by
    another one while retries are left. *)
Lemma urlopen_retries (up : Upstream) (r : Retry) (req : Request) :
  is_method_retryable r (method req) = true ->
  forall left j n res n',
  (j <= left)%nat ->
  (forall i, (i < j)%nat ->
     retryable r (outcome (up (List.length (sent n) + i)%nat req)) = true) ->
  urlopen up r left req n = (res, n') ->
  (List.length (sent n) + j + 1 <= List.length (sent n'))%nat.
Proof.
  intros M. induction left as [|left IH]; intros j n res n' Hj Hf H.
  - apply urlopen_sent in H as (k & Hk & Hs & _).
    rewrite Hs, length_app, repeat_length. lia.
  - destruct j as [|j].
    + apply urlopen_sent in H as (k & Hk & Hs & _).
      rewrite Hs, length_app, repeat_length. lia.
    + pose proof (Hf 0%nat ltac:(lia)) as F0. rewrite Nat.add_0_r in F0.
      rewrite urlopen_eq, attempt_eq in H. cbv zeta in H.
      set (n1 := {| clock := clock n
                      + Z.of_N (took (up (List.length (sent n)) req));
                    sent := sent n ++ [req] |}) in *.
      assert (L1 : List.length (sent n1) = S (List.length (sent n))).
      { unfold n1. simpl. rewrite length_app. simpl. lia. }
      assert (G : urlopen up r left req n1 = (res, n') ->
                  (List.length (sent n) + S j + 1
                   <= List.length (sent n'))%nat).
      { intros H1. apply (IH j) in H1; [lia|lia|].
        intros i Hi. rewrite L1.
        replace (S (List.length (sent n)) + i)%nat
          with (List.length (sent n) + S i)%nat by lia.
        apply Hf. lia. }
      destruct (outcome (up (List.length (sent n)) req))
        as [reason|reason|resp]; simpl in F0.
      * now apply G.
      * rewrite M in H. now apply G.
      * rewrite (is_retry_forced _ _ _ _ _ M F0) in H. now apply G.
Qed.

Lemma urlopen_always_503 (up : Upstream) (r : Retry) (req : Request) :
  always_503 up ->
  is_method_retryable r (method req) = true ->
  mem_Z 503 (status_forcelist r) = true ->
  forall left n, exists n',
    urlopen up r left req n
    = (Raise (RequestException (RetryError 503)), n').
Proof.
  intros A M F. induction left as [|left IH]; intros n;
    rewrite urlopen_eq, attempt_eq; cbv zeta;
    destruct (A (List.length (sent n)) req) as (resp & -> & S503);
    rewrite (is_retry_forced r _ _ _ _ M) by (now rewrite S503);
    rewrite ?S503; eauto.
Qed.

(** *** Runs that end on a reply, and runs that use up the retries *)

Section RunFacts.

Variable up : Upstream.

Lemma is_retry_final (left : nat) (resp : Response) :
  mem_Z (status_code resp) (status_forcelist retries) = false ->
  retry_after resp = false ->
  is_retry retries left "GET" (status_code resp) (retry_after resp) = false.
Proof.
  intros F R. unfold is_retry. rewrite F, R. simpl.
  now rewrite andb_false_r.
Qed.

Lemma urlopen_first_final (req : Request) (resp : Response) :
  method req = "GET" ->
  mem_Z (status_code resp) (status_forcelist retries) = false ->
  retry_after resp = false ->
  forall left j n,
  (j <= left)%nat ->
  (forall i, (i < j)%nat ->
     retryable retries (outcome (up (List.length (sent n) + i)%nat req))
     = true) ->
  outcome (up (List.length (sent n) + j)%nat req) = Replied resp ->
  exists n',
    urlopen up retries left req n = (Return resp, n') /\
    List.length (sent n') = (List.length (sent n) + j + 1)%nat.
Proof.
  intros M F R. induction left as [|left IH]; intros j n Hj Hf Ho;
    rewrite urlopen_eq, attempt_eq; cbv zeta.
  - assert (j = 0)%nat by lia. subst j. rewrite Nat.add_0_r in Ho.
    rewrite Ho, M, (is_retry_final _ _ F R). eexists. split; [reflexivity|].
    simpl. rewrite length_app. simpl. lia.
  - destruct j as [|j].
    + rewrite Nat.add_0_r in Ho.
      rewrite Ho, M, (is_retry_final _ _ F R). eexists.
      split; [reflexivity|]. simpl. rewrite length_app. simpl. lia.
    + pose proof (Hf 0%nat ltac:(lia)) as F0. rewrite Nat.add_0_r in F0.
      set (n1 := {| clock := _; sent := _ |}).
      assert (L1 : List.length (sent n1) = S (List.length (sent n))).
      { unfold n1. simpl. rewrite length_app. simpl. lia. }
      destruct (IH j n1) as (n' & U & Ln).
      * lia.
      * intros i Hi. rewrite L1.
        replace (S (List.length (sent n)) + i)%nat
          with (List.length (sent n) + S i)%nat by lia.
        apply Hf. lia.
      * rewrite L1.
        replace (S (List.length (sent n)) + j)%nat
          with (List.length (sent n) + S j)%nat by lia.
        exact Ho.
      * exists n'. split; [|lia].
        destruct (outcome (up (List.length (sent n)) req))
          as [reason|reason|resp0]; simpl in F0.
        -- exact U.
        -- rewrite M. simpl. exact U.
        -- rewrite M.
           rewrite (is_retry_forced retries _ "GET" _ _ eq_refl F0).
           exact U.
Qed.

Lemma urlopen_exhausted (req : Request) :
  method req = "GET" ->
  forall left n,
  (forall i, (i <= left)%nat ->
     retryable retries (outcome (up (List.length (sent n) + i)%nat req))
     = true) ->
  exists n',
    urlopen up retries left req n
    = (Raise (RequestException
                (failure_of
                   (outcome (up (List.length (sent n) + left)%nat req)))),
       n') /\
    List.length (sent n') = (List.length (sent n) + left + 1)%nat.
Proof.
  intros M. induction left as [|left IH]; intros n Hf;
    rewrite urlopen_eq, attempt_eq; cbv zeta;
    pose proof (Hf 0%nat ltac:(lia)) as F0; rewrite Nat.add_0_r in F0.
  - rewrite Nat.add_0_r.
    destruct (outcome (up (List.length (sent n)) req))
      as [reason|reason|resp0]; simpl in F0; rewrite ?M; simpl;
      try rewrite (is_retry_forced retries _ "GET" _ _ eq_refl F0);
      (eexists; split; [reflexivity|]; simpl; rewrite length_app; simpl;
       lia).
  - set (n1 := {| clock := _; sent := _ |}).
    assert (L1 : List.length (sent n1) = S (List.length (sent n))).
    { unfold n1. simpl. rewrite length_app. simpl. lia. }
    destruct (IH n1) as (n' & U & Ln).
    { intros i Hi. rewrite L1.
      replace (S (List.length (sent n)) + i)%nat
        with (List.length (sent n) + S i)%nat by lia.
      apply Hf. lia. }
    rewrite L1 in U, Ln.
    replace (S (List.length (sent n)) + left)%nat
      with (List.length (sent n) + S left)%nat in U by lia.
    exists n'. split; [|lia].
    destruct (outcome (up (List.length (sent n)) req))
      as [reason|reason|resp0]; simpl in F0; rewrite ?M; simpl;
      try rewrite (is_retry_forced retries _ "GET" _ _ eq_refl F0);
      exact U.
Qed.

End RunFacts.

Lemma rebuild_method_GET (status : Z) : rebuild_method "GET" status = "GET".
Proof.
  unfold rebuild_method.
  destruct (status =? 303)%Z, (status =? 302)%Z, (status =? 301)%Z;
    reflexivity.
Qed.

Lemma runs_log_cons (req : Request) (k : nat)
      (runs : list (Request * nat)) :
  runs_log ((req, k) :: runs) = repeat req k ++ runs_log runs.
Proof. reflexivity. Qed.

(** A response that is read without an exception has a body. *)
Lemma content_returns (resp : Response) (b : string) :
  content resp = Return b -> body_error resp = None.
Proof. unfold content. now destruct (body_error resp). Qed.

Lemma content_raises (resp : Response) (e : exn) :
  content resp = Raise e ->
  exists e', e = RequestException e' /\ body_error resp = Some e'.
Proof.
  unfold content. destruct (body_error resp) as [e'|]; [|discriminate].
  intros H. injection H as <-. eauto.
Qed.

Section SessionFacts.

Variable up : Upstream.
Variable r : Retry.
Variable timeout : Z.
Variable check_url : string -> option request_error.
Variable decode_location : string -> result string.
Variable next_url : Request -> string -> result string.

(** What the redirect machinery may raise: a request exception, or what
    one of the two URL functions raised. *)
Local Abbreviation escapes e :=
  (is_request_exception e = true \/ url_fault decode_location next_url e).

Lemma adapter_send_positive (req : Request) (n : Net) :
  (0 < timeout)%Z ->
  adapter_send up r timeout req n = urlopen up r (total r) req n.
Proof.
  intros T. unfold adapter_send.
  destruct (Z.leb_spec timeout 0); [lia|reflexivity].
Qed.

(** With a time-out that is not positive nothing is sent. *)
Lemma adapter_send_refused (req : Request) (n : Net) :
  (timeout <= 0)%Z ->
  exists msg, adapter_send up r timeout req n = (Raise (ValueError msg), n).
Proof.
  intros T. unfold adapter_send.
  destruct (Z.leb_spec timeout 0); [eauto|lia].
Qed.

(** One request sent for a redirect: a run of attempts, and a response
    whose body has been read. *)
Lemma send_sent (req : Request) (n : Net) (res : result Response)
      (n' : Net) :
  (0 < timeout)%Z ->
  send up r timeout req n = (res, n') ->
  (exists k, (1 <= k <= S (total r))%nat /\
             sent n' = sent n ++ repeat req k /\
             (clock n <= clock n')%Z) /\
  match res with
  | Return resp => body_error resp = None
  | Raise e => is_request_exception e = true
  end.
Proof.
  intros T. unfold send. rewrite (adapter_send_positive _ _ T).
  destruct (urlopen up r (total r) req n) as [[resp|e] n1] eqn:U.
  - pose proof (urlopen_sent _ _ _ _ _ _ _ U) as S.
    destruct (content resp) as [b|e] eqn:C; intros H; injection H as <- <-.
    + split; [exact S|]. exact (content_returns _ _ C).
    + split; [exact S|].
      destruct (content_raises _ _ C) as (e' & -> & _). reflexivity.
  - pose proof (urlopen_sent _ _ _ _ _ _ _ U) as S.
    destruct (urlopen_raises _ _ _ _ _ _ _ U) as [e' ->].
    intros H. injection H as <- <-. split; [exact S|reflexivity].
Qed.

(** A response that is no redirect ends the loop. *)
Lemma resolve_redirects_final (left : nat) (req : Request)
      (resp : Response) (n : Net) :
  is_redirect resp = false ->
  resolve_redirects up r timeout decode_location next_url left req resp n
  = (Return (req, resp), n).
Proof.
  intros Rd. destruct left; simpl; unfold get_redirect_target;
    now rewrite Rd.
Qed.

(** Following redirects: at most [left] further runs, all of them GET
    requests when the first request was one.  The body of a response that
    another request led to has been read. *)
Lemma resolve_redirects_runs (left : nat) :
  (0 < timeout)%Z ->
  forall req resp n res n',
  method req = "GET" ->
  resolve_redirects up r timeout decode_location next_url left req resp n
  = (res, n') ->
  exists runs,
    sent n' = sent n ++ runs_log runs /\
    (List.length runs <= left)%nat /\
    Forall (run_ok r) runs /\
    (clock n <= clock n')%Z /\
    match res with
    | Return (req', resp') =>
        method req' = "GET" /\
        (runs = [] -> req' = req /\ resp' = resp) /\
        (runs <> [] -> body_error resp' = None)
    | Raise e => escapes e
    end.
Proof.
  intros T.
  assert (Stop : forall req resp (n : Net),
            method req = "GET" ->
            forall l : nat,
            exists runs,
              sent n = sent n ++ runs_log runs /\
              (List.length runs <= l)%nat /\
              Forall (run_ok r) runs /\
              (clock n <= clock n)%Z /\
              (method req = "GET" /\
               (runs = [] -> req = req /\ resp = resp) /\
               (runs <> [] -> body_error resp = None))).
  { intros req resp n M l. exists []. simpl. rewrite app_nil_r.
    split; [reflexivity|]. split; [lia|]. split; [constructor|].
    split; [lia|]. split; [exact M|]. split; [auto|congruence]. }
  assert (Fail : forall (n : Net) (e : exn) (l : nat),
            escapes e ->
            exists runs,
              sent n = sent n ++ runs_log runs /\
              (List.length runs <= l)%nat /\
              Forall (run_ok r) runs /\
              (clock n <= clock n)%Z /\
              escapes e).
  { intros n e l H. exists []. simpl. rewrite app_nil_r.
    split; [reflexivity|]. split; [lia|]. split; [constructor|].
    split; [lia|exact H]. }
  assert (Decode : forall resp e,
            get_redirect_target decode_location resp = Raise e ->
            escapes e).
  { intros resp e. unfold get_redirect_target.
    destruct (is_redirect resp); [|discriminate].
    destruct (location resp) as [header|]; [|discriminate].
    destruct (decode_location header) as [t|e0] eqn:D; [discriminate|].
    intros H. injection H as <-. right. left. eauto. }
  induction left as [|left IH]; intros req resp n res n' M; simpl;
    destruct (get_redirect_target decode_location resp)
      as [[target|]|e0] eqn:G.
  - destruct (String.eqb target "") eqn:Em.
    + intros H. injection H as <- <-. now apply Stop.
    + destruct (consume resp) as [e|]; intros H; injection H as <- <-;
        apply Fail; now left.
  - intros H. injection H as <- <-. now apply Stop.
  - intros H. injection H as <- <-. apply Fail. exact (Decode _ _ G).
  - destruct (String.eqb target "") eqn:Em.
    + intros H. injection H as <- <-. now apply Stop.
    + destruct (consume resp) as [e|].
      { intros H. injection H as <- <-. apply Fail. now left. }
      destruct (next_url req target) as [u|e] eqn:Nx.
      2:{ intros H. injection H as <- <-. apply Fail. right. right.
          eauto. }
      set (req' := {| method := rebuild_method (method req)
                                  (status_code resp);
                      url := u; query := [] |}).
      assert (M' : method req' = "GET").
      { unfold req'. simpl. rewrite M. apply rebuild_method_GET. }
      destruct (send up r timeout req' n) as [[resp'|e] n1] eqn:S.
      * destruct (send_sent _ _ _ _ T S) as ((k & Hk & Hs & Hc) & B).
        intros H. apply (IH _ _ _ _ _ M') in H
          as (runs & Rs & Rl & Rf & Rc & Rr).
        exists ((req', k) :: runs). rewrite runs_log_cons.
        split; [now rewrite Rs, Hs, app_assoc|].
        split; [simpl; lia|]. split; [constructor; [now split|exact Rf]|].
        split; [lia|].
        destruct res as [[req2 resp2]|e]; [|exact Rr].
        destruct Rr as (R2 & R3 & R4).
        split; [exact R2|]. split; [discriminate|].
        intros _. destruct runs as [|run runs].
        -- destruct (R3 eq_refl) as [_ ->]. exact B.
        -- apply R4. discriminate.
      * destruct (send_sent _ _ _ _ T S) as ((k & Hk & Hs & Hc) & B).
        intros H. injection H as <- <-.
        exists [(req', k)]. rewrite runs_log_cons. simpl.
        rewrite app_nil_r. split; [exact Hs|]. split; [lia|].
        split; [constructor; [now split|constructor]|]. split; [exact Hc|].
        now left.
  - intros H. injection H as <- <-. now apply Stop.
  - intros H. injection H as <- <-. apply Fail. exact (Decode _ _ G).
Qed.

(** [session.get]: what it leaves in the log, and what it hands back. *)
Lemma get_runs (url : string) (params : Py.dict) (n : Net)
      (res : result (Request * Response)) (n' : Net) :
  get up r timeout check_url decode_location next_url url params n
  = (res, n') ->
  exists runs,
    sent n' = sent n ++ runs_log runs /\
    (List.length runs <= S DEFAULT_REDIRECT_LIMIT)%nat /\
    Forall (run_ok r) runs /\
    (clock n <= clock n')%Z /\
    (forall run rest,
       runs = run :: rest ->
       fst run = {| method := "GET"; url := url; query := params |}) /\
    (check_url url = None -> (0 < timeout)%Z -> runs <> []) /\
    match res with
    | Return (req', resp') => method req' = "GET" /\ body_error resp' = None
    | Raise e =>
        ((timeout <= 0)%Z /\ is_value_error e = true) \/ escapes e
    end.
Proof.
  unfold get.
  set (req := {| method := "GET"; url := url; query := params |}).
  assert (Nothing : forall e : exn,
            (check_url url = None -> (0 < timeout)%Z -> False) ->
            ((timeout <= 0)%Z /\ is_value_error e = true) \/ escapes e ->
            exists runs,
              sent n = sent n ++ runs_log runs /\
              (List.length runs <= S DEFAULT_REDIRECT_LIMIT)%nat /\
              Forall (run_ok r) runs /\
              (clock n <= clock n)%Z /\
              (forall run rest, runs = run :: rest -> fst run = req) /\
              (check_url url = None -> (0 < timeout)%Z -> runs <> []) /\
              (((timeout <= 0)%Z /\ is_value_error e = true) \/ escapes e)).
  { intros e No H. exists []. simpl. rewrite app_nil_r.
    split; [reflexivity|]. split; [lia|]. split; [constructor|].
    split; [lia|]. split; [discriminate|].
    split; [intros A B; destruct (No A B)|exact H]. }
  destruct (check_url url) as [e|] eqn:Cu.
  { intros H. injection H as <- <-. apply Nothing; [discriminate|].
    right. now left. }
  destruct (Z.leb_spec timeout 0) as [T|T].
  { destruct (adapter_send_refused req n T) as [msg ->].
    intros H. injection H as <- <-. apply Nothing; [lia|].
    left. now split. }
  rewrite (adapter_send_positive _ _ T).
  destruct (urlopen up r (total r) req n) as [[resp|e] n1] eqn:U;
    destruct (urlopen_sent _ _ _ _ _ _ _ U) as (k & Hk & Hs & Hc).
  2:{ destruct (urlopen_raises _ _ _ _ _ _ _ U) as [e' ->].
      intros H. injection H as <- <-. exists [(req, k)].
      rewrite runs_log_cons. simpl. rewrite app_nil_r.
      split; [exact Hs|]. split; [lia|].
      split; [constructor; [now split|constructor]|]. split; [exact Hc|].
      split; [intros run rest E; now injection E as <- _|].
      split; [discriminate|]. right. now left. }
  destruct (resolve_redirects up r timeout decode_location next_url
              DEFAULT_REDIRECT_LIMIT req resp n1)
    as [[[req' resp']|e] n2] eqn:R;
    destruct (resolve_redirects_runs _ T req resp n1 _ _ eq_refl R)
      as (runs & Rs & Rl & Rf & Rc & Rr).
  - destruct Rr as (R2 & R3 & R4).
    assert (B : content resp' = Return (text resp') \/
                exists e', content resp' = Raise (RequestException e')).
    { unfold content. destruct (body_error resp'); eauto. }
    assert (Shape : forall res0,
              (res0, n2) = (res, n') ->
              match res0 with
              | Return (req0, resp0) =>
                  method req0 = "GET" /\ body_error resp0 = None
              | Raise e =>
                  ((timeout <= 0)%Z /\ is_value_error e = true) \/ escapes e
              end ->
              exists runs0,
                sent n' = sent n ++ runs_log runs0 /\
                (List.length runs0 <= S DEFAULT_REDIRECT_LIMIT)%nat /\
                Forall (run_ok r) runs0 /\
                (clock n <= clock n')%Z /\
                (forall run rest, runs0 = run :: rest -> fst run = req) /\
                (None = None :> option request_error ->
                 (0 < timeout)%Z -> runs0 <> []) /\
                match res with
                | Return (req0, resp0) =>
                    method req0 = "GET" /\ body_error resp0 = None
                | Raise e =>
                    ((timeout <= 0)%Z /\ is_value_error e = true) \/
                    escapes e
                end).
    { intros res0 E H. injection E as <- <-. exists ((req, k) :: runs).
      rewrite runs_log_cons.
      split; [now rewrite Rs, Hs, app_assoc|]. split; [simpl; lia|].
      split; [constructor; [now split|exact Rf]|]. split; [lia|].
      split; [intros run rest E; now injection E as <- _|].
      split; [discriminate|exact H]. }
    destruct B as [B|[e' B]]; rewrite B; intros H;
      apply (Shape _ H).
    + split; [exact R2|]. exact (content_returns _ _ B).
    + right. now left.
  - intros H. injection H as <- <-. exists ((req, k) :: runs).
    rewrite runs_log_cons.
    split; [now rewrite Rs, Hs, app_assoc|]. split; [simpl; lia|].
    split; [constructor; [now split|exact Rf]|]. split; [lia|].
    split; [intros run rest E; now injection E as <- _|].
    split; [discriminate|]. right. exact Rr.
Qed.

(** The first run decides when its reply is not a redirect. *)
Lemma get_first_final (url : string) (params : Py.dict) (n n1 : Net)
      (resp : Response) :
  check_url url = None -> (0 < timeout)%Z ->
  urlopen up r (total r)
    {| method := "GET"; url := url; query := params |} n
  = (Return resp, n1) ->
  is_redirect resp = false ->
  get up r timeout check_url decode_location next_url url params n
  = (match body_error resp with
     | Some e => Raise (RequestException e)
     | None =>
         Return ({| method := "GET"; url := url; query := params |}, resp)
     end, n1).
Proof.
  intros Cu T U Rd. unfold get. rewrite Cu, (adapter_send_positive _ _ T), U.
  rewrite (resolve_redirects_final _ _ _ _ Rd).
  unfold content. now destruct (body_error resp).
Qed.

Lemma get_first_raises (url : string) (params : Py.dict) (n n1 : Net)
      (e : exn) :
  check_url url = None -> (0 < timeout)%Z ->
  urlopen up r (total r)
    {| method := "GET"; url := url; query := params |} n
  = (Raise e, n1) ->
  get up r timeout check_url decode_location next_url url params n
  = (Raise e, n1).
Proof.
  intros Cu T U. unfold get.
  now rewrite Cu, (adapter_send_positive _ _ T), U.
Qed.

(** Whatever follows the first run is added to its log. *)
Lemma get_extends_first (url : string) (params : Py.dict) (n : Net) :
  check_url url = None -> (0 < timeout)%Z ->
  exists extra,
    sent (snd (get up r timeout check_url decode_location next_url url
                 params n))
    = sent (snd (urlopen up r (total r)
                   {| method := "GET"; url := url; query := params |} n))
      ++ extra.
Proof.
  intros Cu T. unfold get. rewrite Cu, (adapter_send_positive _ _ T).
  destruct (urlopen up r (total r) _ n) as [[resp|e] n1];
    [|exists []; simpl; now rewrite app_nil_r].
  destruct (resolve_redirects up r timeout decode_location next_url
              DEFAULT_REDIRECT_LIMIT _ resp n1)
    as [[[req' resp']|e] n2] eqn:R;
    destruct (resolve_redirects_runs _ T
                {| method := "GET"; url := url; query := params |}
                resp n1 _ _ eq_refl R)
      as (runs & Rs & _);
    exists (runs_log runs); simpl;
    try destruct (content resp'); exact Rs.
Qed.

End SessionFacts.

End NetFacts.
(** ** Facts about [_forward_get] and [_cached_forward] *)

Module AppFacts.
Import Cachetools CacheInv CacheFacts NetFacts.

Section Facts.
Variable cfg : Config.
Variable env : Env.

(** [_forward_get] by what the session did. *)
Lemma forward_get_eq (path : string) (params : Py.dict) (n : Requests.Net) :
  _forward_get cfg env path params n
  = match session_get cfg env
            (OPEN_METEO_BASE cfg +++ "/" +++ Py.lstrip "/" path) params n with
    | (Raise (RequestException e), n1) =>
        (Return (502%Z, upstream_error env e), n1)
    | (Raise e, n1) => (Raise e, n1)
    | (Return (req, resp), n1) => (outcome_of env req resp, n1)
    end.
Proof.
  unfold _forward_get. cbv zeta.
  destruct (session_get _ _ _ _ _) as [[[req resp]|[k|m|m|m|e]] n1];
    try reflexivity.
  unfold Requests.raise_for_status, outcome_of, json_of.
  destruct ((400 <=? Requests.status_code resp)
            && (Requests.status_code resp <? 600))%Z; [reflexivity|].
  now destruct (json_loads env (Requests.text resp)) as [j|[k|m|m|m|e]].
Qed.

Lemma session_get_eq (path : string) (params : Py.dict) (n : Requests.Net) :
  session_get cfg env (OPEN_METEO_BASE cfg +++ "/" +++ Py.lstrip "/" path)
    params n
  = Requests.get (upstream env) retries (REQUEST_TIMEOUT cfg)
      (check_url env) (decode_location env) (next_url env)
      (Requests.url (request_for cfg path params)) params n.
Proof. reflexivity. Qed.

(** The network side after [_forward_get] is the one the session left. *)
Lemma forward_get_net (path : string) (params : Py.dict) (n : Requests.Net) :
  snd (_forward_get cfg env path params n)
  = snd (session_get cfg env
           (OPEN_METEO_BASE cfg +++ "/" +++ Py.lstrip "/" path) params n).
Proof.
  rewrite forward_get_eq.
  now destruct (session_get _ _ _ _ _) as [[[req resp]|[k|m|m|m|e]] n1].
Qed.

(** The log of one fetch: runs of attempts, the first one on the request
    for [(path, params)]. *)
Lemma forward_get_runs (path : string) (params : Py.dict)
      (n : Requests.Net) :
  exists runs,
    Requests.sent (snd (_forward_get cfg env path params n))
    = Requests.sent n ++ runs_log runs /\
    (List.length runs <= S Requests.DEFAULT_REDIRECT_LIMIT)%nat /\
    Forall (run_ok retries) runs /\
    (Requests.clock n
     <= Requests.clock (snd (_forward_get cfg env path params n)))%Z /\
    (forall run rest,
       runs = run :: rest -> fst run = request_for cfg path params) /\
    (check_url env (Requests.url (request_for cfg path params)) = None ->
     (0 < REQUEST_TIMEOUT cfg)%Z -> runs <> []).
Proof.
  rewrite forward_get_net, session_get_eq.
  destruct (Requests.get _ _ _ _ _ _ _ _ _) as [res n'] eqn:G.
  destruct (get_runs _ _ _ _ _ _ _ _ _ _ _ G)
    as (runs & A & B & C & D & E & F & _).
  exists runs. simpl. auto 10.
Qed.

Lemma forward_get_clock (path : string) (params : Py.dict)
      (n : Requests.Net) :
  (Requests.clock n
   <= Requests.clock (snd (_forward_get cfg env path params n)))%Z.
Proof.
  destruct (forward_get_runs path params n) as (runs & _ & _ & _ & C & _).
  exact C.
Qed.

(** What [_forward_get] can raise: never a request exception; the
    [ValueError] of a time-out that is not positive, what working out a
    redirect raised, or what the decoder raised if that is not a
    [ValueError]. *)
Lemma forward_get_raises (path : string) (params : Py.dict)
      (n n' : Requests.Net) (e : exn) :
  _forward_get cfg env path params n = (Raise e, n') ->
  is_request_exception e = false /\
  (((REQUEST_TIMEOUT cfg <= 0)%Z /\ is_value_error e = true) \/
   redirect_fault env e \/
   (exists body, json_loads env body = Raise e /\
                 is_value_error e = false)).
Proof.
  rewrite forward_get_eq, session_get_eq.
  destruct (Requests.get _ _ _ _ _ _ _ _ _) as [[[req resp]|e0] n1] eqn:G.
  - unfold outcome_of.
    destruct ((400 <=? Requests.status_code resp)
              && (Requests.status_code resp <? 600))%Z; [discriminate|].
    destruct (json_loads env (Requests.text resp)) as [j|[k|m|m|m|e1]] eqn:J;
      try discriminate; intros H; injection H as <- <-;
      (split; [reflexivity|]); right; right; eauto.
  - destruct (get_runs _ _ _ _ _ _ _ _ _ _ _ G)
      as (_ & _ & _ & _ & _ & _ & _ & R).
    destruct e0 as [k|m|m|m|e1]; try discriminate;
      intros H; injection H as <- <-; (split; [reflexivity|]);
      (destruct R as [R|[R|R]]; [now left|discriminate|right; now left]).
Qed.

(** In tame surroundings [_forward_get] returns. *)
Lemma forward_get_tame (path : string) (params : Py.dict)
      (n : Requests.Net) :
  tame cfg env ->
  exists v n', _forward_get cfg env path params n = (Return v, n').
Proof.
  intros (T & J & D & N).
  destruct (_forward_get cfg env path params n) as [[v|e] n'] eqn:F;
    [eauto|].
  destruct (forward_get_raises _ _ _ _ _ F)
    as (R & [[L _]|[[(h & H)|(req & t & H)]|H]]).
  - lia.
  - apply D in H. congruence.
  - apply N in H. congruence.
  - destruct H as (body & H & V). apply J in H. congruence.
Qed.

Lemma good_start (t0 : Z) : good cfg (start cfg t0).
Proof. unfold good. simpl. repeat split; constructor. Qed.

Lemma good_at_time (t : Z) (w : World) :
  good cfg w -> (Requests.clock (net w) <= t)%Z -> good cfg (at_time t w).
Proof.
  intros (A & B & C) L. unfold good. simpl. split; [exact A|].
  split; [exact B|]. exact (inv_mono _ _ _ C L).
Qed.

(** A call that finds a live value returns it and leaves the network
    alone. *)
Lemma cached_forward_hit (path : string) (params : Py.dict) (w : World)
      (v : Z * payload) :
  hit (Requests.clock (net w)) (_cache_key path params) (cache w) = Some v ->
  exists c1,
    _cached_forward cfg env path params w
    = (Return v, {| net := net w; cache := c1 |}).
Proof.
  intros H. unfold _cached_forward. cbv zeta.
  pose proof (getitem_hit (Requests.clock (net w)) (_cache_key path params)
                (cache w)) as G.
  rewrite H in G.
  destruct (getitem _ _ _) as [r c1]. simpl in G. subst r. eauto.
Qed.

(** A call that finds nothing fetches; when [_forward_get] returns, the
    value is stored, whatever its status, and returned. *)
Lemma cached_forward_miss (path : string) (params : Py.dict) (w : World)
      (v : Z * payload) (n1 : Requests.Net) :
  good cfg w -> (1 <= CACHE_MAXSIZE cfg)%Z ->
  hit (Requests.clock (net w)) (_cache_key path params) (cache w) = None ->
  _forward_get cfg env path params (net w) = (Return v, n1) ->
  exists c2,
    _cached_forward cfg env path params w
    = (Return v, {| net := n1; cache := c2 |}) /\
    good cfg {| net := n1; cache := c2 |} /\
    assoc (_cache_key path params) (links c2)
    = Some (v, (Requests.clock n1 + CACHE_TTL cfg)%Z).
Proof.
  intros (Gm & Gt & Gi) M H F. unfold _cached_forward. cbv zeta.
  pose proof (getitem_hit (Requests.clock (net w)) (_cache_key path params)
                (cache w)) as G.
  rewrite H in G.
  pose proof (getitem_inv _ _ (_cache_key path params) _ Gi (Z.le_refl _))
    as I1.
  destruct (getitem_conf (Requests.clock (net w)) (_cache_key path params)
              (cache w)) as (Cm & Ct & _ & _).
  destruct (getitem _ _ _) as [r c1]. simpl in G, I1, Cm, Ct. subst r.
  pose proof (forward_get_clock path params (net w)) as Lc.
  rewrite F in *. simpl in Lc.
  destruct (setitem_inv _ (Requests.clock n1) (_cache_key path params) v c1 I1
              Lc ltac:(lia)) as (c2 & S & I2 & Sm & St & Sa).
  rewrite S. exists c2. split; [reflexivity|].
  split.
  - unfold good. simpl. split; [congruence|]. split; [congruence|exact I2].
  - rewrite Sa. now rewrite Ct, Gt.
Qed.

(** When [_forward_get] raises, the call raises the same exception and
    stores nothing. *)
Lemma cached_forward_miss_raises (path : string) (params : Py.dict)
      (w : World) (e : exn) (n1 : Requests.Net) :
  hit (Requests.clock (net w)) (_cache_key path params) (cache w) = None ->
  _forward_get cfg env path params (net w) = (Raise e, n1) ->
  _cached_forward cfg env path params w
  = (Raise e,
     {| net := n1;
        cache := snd (getitem (Requests.clock (net w))
                        (_cache_key path params) (cache w)) |}).
Proof.
  intros H F. unfold _cached_forward. cbv zeta.
  pose proof (getitem_hit (Requests.clock (net w)) (_cache_key path params)
                (cache w)) as G.
  rewrite H in G.
  destruct (getitem _ _ _) as [r c1]. simpl in G. subst r.
  now rewrite F.
Qed.

(** [_cached_forward] touches the cache through one lookup and at most
    one store. *)
Lemma cached_forward_uses_cache (path : string) (params : Py.dict)
      (w : World) :
  exists ops : list (cache_op (Z * payload)),
    (List.length ops <= 2)%nat /\
    cache (snd (_cached_forward cfg env path params w))
    = run_ops ops (cache w).
Proof.
  unfold _cached_forward. cbv zeta.
  set (k := _cache_key path params). set (t := Requests.clock (net w)).
  assert (G : getitem t k (cache w)
              = (fst (getitem t k (cache w)), apply_op (Get t k) (cache w))).
  { simpl. now destruct (getitem t k (cache w)). }
  rewrite G. destruct (fst (getitem t k (cache w))) as [v|[x|x|x|x|x]];
    try (exists [Get t k]; split; [simpl; lia|reflexivity]).
  destruct (_forward_get cfg env path params (net w)) as [[v|e] n1];
    [|exists [Get t k]; split; [simpl; lia|reflexivity]].
  exists [Get t k; Set_ (Requests.clock n1) k v]. split; [simpl; lia|].
  unfold run_ops. simpl.
  destruct (setitem (Requests.clock n1) k v (snd (getitem t k (cache w))))
    as [[u|[y|y|y|y|y]] c2]; reflexivity.
Qed.

End Facts.

End AppFacts.

(** * Properties *)

(** ** Cache keys *)

(** C2.  Two parameter mappings with the same (name, value) pairs in a
    different insertion order have the same cache key for every path; and
    two requests that differ in the path or in the pairs they hold have
    different cache keys. *)
Theorem cache_key_canonical :
  (forall (path : string) (params1 params2 : Py.dict),
     Permutation params1 params2 ->
     _cache_key path params1 = _cache_key path params2) /\
  (forall (path1 path2 : string) (params1 params2 : Py.dict),
     path1 <> path2 \/ ~ Permutation params1 params2 ->
     _cache_key path1 params1 <> _cache_key path2 params2).
Proof.
  split.
  - intros path p1 p2 P. unfold _cache_key.
    now rewrite (PyFacts.sorted_order p1 p2 P).
  - intros path1 path2 p1 p2 D E.
    apply ReprFacts.cache_key_inj in E as [Ep Es].
    destruct D as [D|D]; [contradiction|]. apply D.
    rewrite (PyFacts.sorted_perm p1), Es. symmetry.
    apply PyFacts.sorted_perm.
Qed.

Lemma cache_key_canonical_witness :
  Permutation [("latitude", "10"); ("longitude", "20")]
              [("longitude", "20"); ("latitude", "10")] /\
  _cache_key "forecast" [("latitude", "10"); ("longitude", "20")]
  = _cache_key "forecast" [("longitude", "20"); ("latitude", "10")] /\
  ("forecast" <> "archive" \/
   ~ Permutation [("latitude", "10")] [("latitude", "10")]) /\
  _cache_key "forecast" [("latitude", "10")]
  <> _cache_key "archive" [("latitude", "10")].
Proof.
  split; [apply perm_swap|]. split.
  - apply (proj1 cache_key_canonical). apply perm_swap.
  - split; [left; discriminate|].
    apply (proj2 cache_key_canonical). left. discriminate.
Defined.

(** ** The response cache *)

Section CacheProperties.
Import Cachetools CacheInv CacheFacts.

Lemma run_ops_cons {V} (o : cache_op V) (ops : list (cache_op V))
      (c : TTLCache V) :
  run_ops (o :: ops) c = run_ops ops (apply_op o c).
Proof. reflexivity. Qed.

Lemma apply_op_shrinks_or_stores {V} (o : cache_op V) (c : TTLCache V) :
  ttl (apply_op o c) = ttl c /\
  forall x, In x (links (apply_op o c)) ->
            In x (links c) \/ stores (fst x) o.
Proof.
  destruct o as [t k|t k v]; simpl.
  - destruct (getitem_shrinks t k c) as (_ & B & C & _). split; [exact B|].
    intros x I. left. now apply C.
  - destruct (setitem t k v c) as [r c'] eqn:S. simpl.
    destruct (setitem_spec _ _ _ _ _ _ S) as (_ & B & _ & _ & E & _).
    split; [exact B|]. intros x I. apply E in I as [I|[_ ->]]; auto.
Qed.

(** C6.  An entry stored under [key] at clock reading [T] is absent from
    every lookup at a clock reading of [T + CACHE_TTL] or later, whatever
    lookups and stores under other keys happen in between. *)
Theorem entry_absent_after_ttl (cfg : Config)
        (c c1 : TTLCache (Z * payload)) (key : string) (v : Z * payload)
        (T t : Z) (ops : list (cache_op (Z * payload))) :
  ttl c = CACHE_TTL cfg ->
  NoDup (keys c) ->
  setitem T key v c = (Return tt, c1) ->
  Forall (fun o => ~ stores key o) ops ->
  (T + CACHE_TTL cfg <= t)%Z ->
  hit t key (run_ops ops c1) = None /\
  fst (getitem t key (run_ops ops c1)) = Raise (KeyError key).
Proof.
  intros Ht ND S F Le.
  destruct (setitem_spec _ _ _ _ _ _ S) as (_ & B & C & _ & _ & A).
  specialize (A eq_refl ND). specialize (C ND).
  assert (Q : forall v' e, In (key, (v', e)) (links c1) ->
                           (e <= T + CACHE_TTL cfg)%Z).
  { intros v' e I. apply (assoc_unique _ _ _ C) in I.
    rewrite A in I. injection I as _ <-. lia. }
  clear S A C ND. revert c1 B Q.
  induction ops as [|o ops IH]; intros c1 B Q.
  - assert (H : hit t key c1 = None).
    { unfold hit. destruct (assoc key (links c1)) as [[v' e]|] eqn:E;
        [|reflexivity].
      apply assoc_In, Q in E.
      destruct (Z.ltb_spec t e); [lia|reflexivity]. }
    simpl. split; [exact H|]. now rewrite getitem_hit, H.
  - inversion F as [|? ? No F']; subst. rewrite run_ops_cons.
    destruct (apply_op_shrinks_or_stores o c1) as [T1 I1].
    apply IH; auto; [congruence|].
    intros v' e I. apply I1 in I as [I|I]; [now apply Q in I|].
    now apply No in I.
Qed.

Lemma entry_absent_after_ttl_witness :
  ttl (@empty (Z * payload) 1024 60) = CACHE_TTL default_config /\
  NoDup (keys (@empty (Z * payload) 1024 60)) /\
  setitem 0 "k" (200%Z, Text "OK") (empty 1024 60)
  = (Return tt,
     {| maxsize := 1024; ttl := 60;
        links := [("k", ((200%Z, Text "OK"), 60%Z))];
        chain := [("k", 60%Z)] |}) /\
  Forall (fun o => ~ stores "k" o)
         [Get 10 "k"; Set_ 20 "j" (502%Z, Text "")] /\
  (0 + CACHE_TTL default_config <= 60)%Z /\
  fst (getitem 60 "k"
         (run_ops [Get 10 "k"; Set_ 20 "j" (502%Z, Text "")]
            {| maxsize := 1024; ttl := 60;
               links := [("k", ((200%Z, Text "OK"), 60%Z))];
               chain := [("k", 60%Z)] |}))
  = Raise (KeyError "k").
Proof.
  assert (H1 : ttl (@empty (Z * payload) 1024 60) = CACHE_TTL default_config)
    by reflexivity.
  assert (H2 : NoDup (keys (@empty (Z * payload) 1024 60)))
    by constructor.
  assert (H3 : setitem 0 "k" (200%Z, Text "OK") (empty 1024 60)
               = (Return tt,
                  {| maxsize := 1024; ttl := 60;
                     links := [("k", ((200%Z, Text "OK"), 60%Z))];
                     chain := [("k", 60%Z)] |})) by reflexivity.
  assert (H4 : Forall (fun o => ~ stores "k" o)
                 [Get 10 "k"; Set_ 20 "j" (502%Z, Text "")]).
  { repeat constructor; simpl; [tauto|discriminate]. }
  assert (H5 : (0 + CACHE_TTL default_config <= 60)%Z) by (simpl; lia).
  repeat (split; [assumption|]).
  exact (proj2 (entry_absent_after_ttl default_config _ _ "k" _ 0 60 _
                  H1 H2 H3 H4 H5)).
Defined.

Lemma live_keys_NoDup {V} (t : Z) (c : TTLCache V) :
  NoDup (keys c) -> NoDup (map fst (live t c)).
Proof.
  unfold keys, live. induction (links c) as [|[k [v e]] l IH]; simpl;
    [auto|].
  intros ND. inversion ND as [|? ? N ND']; subst.
  destruct (t <? e)%Z; simpl; [|auto]. constructor; [|auto].
  intros I. apply N. apply in_map_iff in I as (x & <- & I).
  apply filter_In in I as [I _]. now apply in_map.
Qed.

Lemma live_length {V} (t : Z) (c : TTLCache V) :
  (List.length (live t c) <= List.length (links c))%nat.
Proof. apply filter_length_le. Qed.

(** The bound and the uniqueness of keys, for any sequence of uses of the
    module's cache from its creation. *)
Lemma cache_size_bounded_at (cfg : Config) (t0 : Z)
      (ops : list (cache_op (Z * payload))) :
  (0 <= CACHE_MAXSIZE cfg)%Z ->
  (currsize (run_ops ops (cache (start cfg t0))) <= CACHE_MAXSIZE cfg)%Z /\
  NoDup (keys (run_ops ops (cache (start cfg t0)))).
Proof.
  intros M. set (c := run_ops ops (cache (start cfg t0))).
  assert (G : maxsize c = CACHE_MAXSIZE cfg /\
              (List.length (links c) <= Z.to_nat (CACHE_MAXSIZE cfg))%nat /\
              NoDup (keys c)).
  { subst c.
    assert (G0 : maxsize (cache (start cfg t0)) = CACHE_MAXSIZE cfg /\
                 (List.length (links (cache (start cfg t0)))
                  <= Z.to_nat (CACHE_MAXSIZE cfg))%nat /\
                 NoDup (keys (cache (start cfg t0)))).
    { simpl. repeat split; [lia|constructor]. }
    revert G0. generalize (cache (start cfg t0)).
    induction ops as [|o ops IH]; intros c (A & B & C); [now simpl|].
    rewrite run_ops_cons. apply IH.
    destruct o as [t k|t k v]; simpl.
    - destruct (getitem_shrinks t k c) as (A' & _ & _ & D & E).
      repeat split; [congruence|lia|auto].
    - destruct (setitem t k v c) as [r c'] eqn:S. simpl.
      destruct (setitem_spec _ _ _ _ _ _ S) as (A' & _ & C' & D' & _).
      rewrite A in D'. repeat split; [congruence|auto|auto]. }
  destruct G as (A & B & C). unfold currsize. split; [lia|exact C].
Qed.

(** C7.  After any sequence of lookups and insertions on the module's
    cache, in particular after inserting more than [CACHE_MAXSIZE] distinct
    keys, the cache holds at most [CACHE_MAXSIZE] entries, and no key has
    more than one entry, live or not.  [CACHE_MAXSIZE] is a size, so it is
    taken to be non-negative. *)
Theorem cache_size_bounded (cfg : Config) (t0 : Z)
        (ops : list (cache_op (Z * payload))) :
  (0 <= CACHE_MAXSIZE cfg)%Z ->
  let c := run_ops ops (cache (start cfg t0)) in
  (currsize c <= CACHE_MAXSIZE cfg)%Z /\
  NoDup (keys c) /\
  forall t, (Z.of_nat (List.length (live t c)) <= CACHE_MAXSIZE cfg)%Z /\
            NoDup (map fst (live t c)).
Proof.
  intros M c. destruct (cache_size_bounded_at cfg t0 ops M) as [A C].
  fold c in A, C. unfold currsize in A.
  split; [exact A|]. split; [exact C|]. intros t. split.
  - pose proof (live_length t c). lia.
  - now apply live_keys_NoDup.
Qed.

Lemma cache_size_bounded_witness :
  (0 <= CACHE_MAXSIZE default_config)%Z /\
  (currsize (run_ops [Set_ 0 "a" (200%Z, Text "1");
                      Set_ 1 "b" (200%Z, Text "2");
                      Get 2 "a"]
               (cache (start default_config 0)))
   <= CACHE_MAXSIZE default_config)%Z.
Proof.
  assert (H : (0 <= CACHE_MAXSIZE default_config)%Z) by (simpl; lia).
  split; [exact H|].
  exact (proj1 (cache_size_bounded default_config 0
                  [Set_ 0 "a" (200%Z, Text "1");
                   Set_ 1 "b" (200%Z, Text "2");
                   Get 2 "a"] H)).
Defined.

(** Three distinct keys stored in a cache of size two: the least recently
    used key goes. *)
Example three_keys_in_two_slots :
  map fst (links (run_ops [Set_ 0 "a" (200%Z, Text "1");
                           Set_ 1 "b" (200%Z, Text "2");
                           Set_ 2 "c" (200%Z, Text "3")]
                    (@empty (Z * payload) 2 60)))
  = ["b"; "c"].
Proof. reflexivity. Qed.

(** A cache of size zero refuses every value. *)
Example size_zero_stores_nothing :
  setitem 0 "a" (200%Z, Text "1") (empty 0 60)
  = (Raise (ValueError "value too large"), empty 0 60).
Proof. reflexivity. Qed.

End CacheProperties.
(** ** The upstream client *)

Section ClientProperties.
Import NetFacts AppFacts.



(** Upstream answers 200 with a body of 100000 nested arrays: the decoder
    raises [RecursionError], which neither [except] clause catches. *)
Example deep_json_escapes :
  _forward_get default_config (Sample.env_of Sample.up_deep) "forecast"
    Sample.params Sample.n0
  = (Raise (RecursionError "maximum recursion depth exceeded"),
     Sample.after 1).
Proof. lazy. reflexivity. Qed.

(** With [REQUEST_TIMEOUT=0] every fetch raises the [ValueError] of the
    session, and nothing is sent. *)
Example zero_timeout_escapes :
  _forward_get (Sample.config_of_timeout 0) (Sample.env_of Sample.up_temp)
    "forecast" Sample.params Sample.n0
  = (Raise (ValueError "timeout cannot be less than or equal to 0"),
     Sample.n0).
Proof. reflexivity. Qed.


Lemma urlopen_returns_reply (up : Requests.Upstream) (r : Requests.Retry)
      (req : Requests.Request) (left : nat) :
  forall n resp n',
  Requests.urlopen up r left req n = (Return resp, n') ->
  exists i, Requests.outcome (up i req) = Requests.Replied resp.
Proof.
  induction left as [|left IH]; intros n resp n'; rewrite urlopen_eq,
    attempt_eq; cbv zeta;
    destruct (Requests.outcome (up (List.length (Requests.sent n)) req))
      as [reason|reason|resp0] eqn:O;
    try destruct (Requests.is_method_retryable r (Requests.method req));
    try destruct (Requests.is_retry _ _ _ _ _);
    try discriminate; try apply IH;
    intros H; injection H as <- _; eauto.
Qed.

(** Without redirects a fetch is one run of attempts. *)
Lemma forward_get_one_run (cfg : Config) (env : Env) (path : string)
      (params : Py.dict) (n : Requests.Net) :
  never_redirects (upstream env) ->
  exists k,
    (k <= 4)%nat /\
    Requests.sent (snd (_forward_get cfg env path params n))
    = Requests.sent n ++ repeat (request_for cfg path params) k.
Proof.
  intros Nr. rewrite forward_get_net, session_get_eq.
  assert (Z0 : Requests.sent n
               = Requests.sent n ++ repeat (request_for cfg path params) 0)
    by (simpl; now rewrite app_nil_r).
  destruct (check_url env (Requests.url (request_for cfg path params)))
    as [e|] eqn:Cu.
  { exists 0%nat. split; [lia|]. unfold Requests.get. now rewrite Cu. }
  destruct (Z.leb_spec (REQUEST_TIMEOUT cfg) 0) as [T|T].
  { exists 0%nat. split; [lia|]. unfold Requests.get. rewrite Cu.
    destruct (adapter_send_refused (upstream env) retries _
                (request_for cfg path params) n T) as [msg E].
    unfold request_for in E. simpl in *. now rewrite E. }
  destruct (Requests.urlopen (upstream env) retries 3
              (request_for cfg path params) n) as [[resp|e] n1] eqn:U;
    destruct (urlopen_sent _ _ _ _ _ _ _ U) as (k & Hk & Hs & _);
    exists k; (split; [lia|]).
  - destruct (urlopen_returns_reply _ _ _ _ _ _ _ U) as [i O].
    rewrite (get_first_final _ _ _ _ _ _ _ _ _ _ _ Cu T U (Nr _ _ _ O)).
    exact Hs.
  - rewrite (get_first_raises _ _ _ _ _ _ _ _ _ _ _ Cu T U). exact Hs.
Qed.

(** C3, as the code has it.  The attempts of a fetch form at most 31
    runs, one for the request and one for each redirect that is followed.
    Each run has at least one and at most four attempts on one request:
    the first attempt and up to three retries; and every request is a GET.
    When upstream sends no redirect there is one run, so at most four
    attempts in total.  While retries are left, an attempt that meets a
    network failure or a status in {429, 500, 502, 503, 504} is followed by
    another attempt.  For a method other than GET, the policy lets no status
    code cause a retry and has a read failure raised after one attempt; a
    connection that could not be opened is tried again whatever the
    method. *)
Theorem retries_three_times (cfg : Config) (env : Env) (path : string)
        (params : Py.dict) (n : Requests.Net) :
  let req := request_for cfg path params in
  let n' := snd (_forward_get cfg env path params n) in
  (exists runs,
     Requests.sent n' = Requests.sent n ++ runs_log runs /\
     (List.length runs <= 31)%nat /\
     Forall (fun run => Requests.method (fst run) = "GET" /\
                        (1 <= snd run <= 4)%nat) runs /\
     (forall run rest, runs = run :: rest -> fst run = req) /\
     (check_url env (Requests.url req) = None ->
      (0 < REQUEST_TIMEOUT cfg)%Z -> runs <> [])) /\
  (never_redirects (upstream env) ->
   (attempts cfg env path params n <= 4)%nat /\
   Requests.sent n'
   = Requests.sent n ++ repeat req (attempts cfg env path params n)) /\
  (check_url env (Requests.url req) = None ->
   (0 < REQUEST_TIMEOUT cfg)%Z ->
   forall j, (j <= 3)%nat ->
     (forall i, (i < j)%nat ->
        retryable retries
          (Requests.outcome
             (upstream env (List.length (Requests.sent n) + i)%nat req))
        = true) ->
     (j + 1 <= attempts cfg env path params n)%nat) /\
  (forall reason resp,
     retryable retries (Requests.ConnectFailed reason) = true /\
     retryable retries (Requests.ReadFailed reason) = true /\
     retryable retries (Requests.Replied resp)
     = Requests.mem_Z (Requests.status_code resp)
         [429; 500; 502; 503; 504]%Z) /\
  (forall m left status ra,
     m <> "GET" -> Requests.is_retry retries left m status ra = false) /\
  (forall up m url q left n0 reason,
     m <> "GET" ->
     Requests.outcome
       (up (List.length (Requests.sent n0))
           {| Requests.method := m; Requests.url := url;
              Requests.query := q |})
     = Requests.ReadFailed reason ->
     exists e n1,
       Requests.urlopen up retries left
         {| Requests.method := m; Requests.url := url; Requests.query := q |}
         n0
       = (Raise (RequestException e), n1) /\
       List.length (Requests.sent n1) = S (List.length (Requests.sent n0))) /\
  (forall up rq left n0 reason,
     Requests.outcome (up (List.length (Requests.sent n0)) rq)
     = Requests.ConnectFailed reason ->
     Requests.urlopen up retries (S left) rq n0
     = Requests.urlopen up retries left rq
         (snd (Requests.attempt up rq n0))).
Proof.
  intros req n'.
  assert (NG : forall m, m <> "GET" ->
                         Requests.is_method_retryable retries m = false).
  { intros m Hm. unfold Requests.is_method_retryable. simpl.
    destruct (String.eqb_spec m "GET"); [contradiction|reflexivity]. }
  split; [|split; [|split; [|split; [|split; [|split]]]]].
  - destruct (forward_get_runs cfg env path params n)
      as (runs & A & B & C & _ & E & F).
    exists runs. split; [exact A|]. split; [exact B|].
    split; [exact C|]. split; [exact E|exact F].
  - intros Nr.
    destruct (forward_get_one_run cfg env path params n Nr) as (k & Hk & Hs).
    assert (A : attempts cfg env path params n = k).
    { unfold attempts. rewrite Hs, length_app, repeat_length. lia. }
    rewrite A. split; [exact Hk|exact Hs].
  - subst req n'. intros Cu T j Hj Hf. unfold attempts.
    rewrite forward_get_net, session_get_eq.
    destruct (get_extends_first (upstream env) retries (REQUEST_TIMEOUT cfg)
                (check_url env) (decode_location env) (next_url env) _
                params n Cu T)
      as [extra E].
    rewrite E, length_app.
    destruct (Requests.urlopen (upstream env) retries
                (Requests.total retries)
                {| Requests.method := "GET";
                   Requests.url := Requests.url (request_for cfg path params);
                   Requests.query := params |} n) as [res n1] eqn:U.
    pose proof (urlopen_retries (upstream env) retries
                  (request_for cfg path params) eq_refl 3 j n res n1 Hj Hf U)
      as L.
    simpl. lia.
  - intros reason resp. repeat split.
  - intros m left status ra Hm. unfold Requests.is_retry.
    now rewrite (NG m Hm).
  - intros up m url q left n0 reason Hm Ho.
    rewrite urlopen_eq, attempt_eq. cbv zeta. rewrite Ho. simpl.
    rewrite (NG m Hm). eexists _, _. split; [reflexivity|]. simpl.
    rewrite length_app. simpl. lia.
  - intros up rq left n0 reason Ho.
    rewrite (urlopen_eq up retries (S left)), attempt_eq. cbv zeta.
    now rewrite Ho.
Qed.

Lemma retries_three_times_witness :
  check_url (Sample.env_of Sample.up_flaky)
    (Requests.url (request_for default_config "forecast" Sample.params))
  = None /\
  (0 < REQUEST_TIMEOUT default_config)%Z /\
  (3 <= 3)%nat /\
  (forall i, (i < 3)%nat ->
     retryable retries
       (Requests.outcome
          (upstream (Sample.env_of Sample.up_flaky)
             (List.length (Requests.sent Sample.n0) + i)%nat
             (request_for default_config "forecast" Sample.params)))
     = true) /\
  (3 + 1 <= attempts default_config (Sample.env_of Sample.up_flaky)
              "forecast" Sample.params Sample.n0)%nat.
Proof.
  assert (H0 : check_url (Sample.env_of Sample.up_flaky)
                 (Requests.url
                    (request_for default_config "forecast" Sample.params))
               = None) by reflexivity.
  assert (HT : (0 < REQUEST_TIMEOUT default_config)%Z) by (simpl; lia).
  assert (H1 : (3 <= 3)%nat) by lia.
  assert (H2 : forall i, (i < 3)%nat ->
            retryable retries
              (Requests.outcome
                 (upstream (Sample.env_of Sample.up_flaky)
                    (List.length (Requests.sent Sample.n0) + i)%nat
                    (request_for default_config "forecast" Sample.params)))
            = true).
  { intros i Hi. simpl. unfold Sample.up_flaky.
    destruct (Nat.ltb_spec i 3); [reflexivity|lia]. }
  split; [exact H0|]. split; [exact HT|]. split; [exact H1|].
  split; [exact H2|].
  exact (proj1 (proj2 (proj2
           (retries_three_times default_config
              (Sample.env_of Sample.up_flaky) "forecast" Sample.params
              Sample.n0))) H0 HT 3%nat H1 H2).
Defined.

(** Upstream answers 503 three times and then 200: the fourth attempt is
    made and its answer is returned. *)
Example flaky_upstream_fourth_attempt :
  fst (_forward_get default_config (Sample.env_of Sample.up_flaky)
         "forecast" Sample.params Sample.n0)
  = Return (200%Z, Json Sample.temp_json) /\
  attempts default_config (Sample.env_of Sample.up_flaky)
    "forecast" Sample.params Sample.n0 = 4%nat.
Proof. split; reflexivity. Qed.

(** Upstream answers the first attempt with [302 Found] and a
    [Location]: the session sends a second request, to that place, and its
    answer is returned. *)
Example redirect_is_followed :
  _forward_get default_config (Sample.env_of Sample.up_moved)
    "forecast" Sample.params Sample.n0
  = (Return (200%Z, Json Sample.temp_json),
     {| Requests.clock := 2;
        Requests.sent :=
          [request_for default_config "forecast" Sample.params;
           {| Requests.method := "GET";
              Requests.url := "https://api.open-meteo.com/v2/forecast";
              Requests.query := [] |}] |}).
Proof. reflexivity. Qed.

(** A connection that cannot be opened is tried again whatever the
    method; the module itself sends no request other than GET. *)
Example refused_connection_retried_for_any_method :
  Requests.urlopen Sample.up_refused_once retries 3
    {| Requests.method := "POST"; Requests.url := "http://upstream";
       Requests.query := [] |} Sample.n0
  = (Return (Sample.resp_of 200 Sample.temp_body),
     {| Requests.clock := 2;
        Requests.sent :=
          repeat {| Requests.method := "POST";
                    Requests.url := "http://upstream";
                    Requests.query := [] |} 2 |}).
Proof. reflexivity. Qed.

(** C3 as stated fails on both counts: a fetch can make more than three
    attempts in total, and under the policy a request that is not a GET is
    attempted again when the connection could not be opened. *)
Lemma retry_policy_refuted :
  ~ (forall cfg env path params n,
       (attempts cfg env path params n <= 3)%nat) /\
  ~ (forall up m url q n,
       m <> "GET" ->
       List.length
         (Requests.sent
            (snd (Requests.urlopen up retries 3
                    {| Requests.method := m; Requests.url := url;
                       Requests.query := q |} n)))
       = S (List.length (Requests.sent n))).
Proof.
  split; intros H.
  - specialize (H default_config (Sample.env_of Sample.up_flaky)
                  "forecast" Sample.params Sample.n0).
    vm_compute in H. lia.
  - specialize (H Sample.up_refused_once "POST" "http://upstream" []
                  Sample.n0 ltac:(discriminate)).
    vm_compute in H. discriminate.
Qed.

(** C8, as the code has it.  An answer with a status from 400 to 599 that
    the session hands back, a 4xx or a 5xx outside the retry list, never
    comes back with upstream's own status code: it is folded into the 502
    [upstream_error] result, although the response is at hand.  When the
    retries end on a status code the session raises and the result is the
    502 result as well.  Upstream's status code is passed on only outside
    400..599: whatever [_forward_get] returns has status 502 or the status
    of the answer, and then that status is below 400 or above 599; and an
    answer with such a status is passed on with it, as JSON or as text. *)
Theorem upstream_http_error_result (cfg : Config) (env : Env) (path : string)
        (params : Py.dict) (n : Requests.Net) :
  let url := OPEN_METEO_BASE cfg +++ "/" +++ Py.lstrip "/" path in
  (forall req resp n1,
     session_get cfg env url params n = (Return (req, resp), n1) ->
     (400 <= Requests.status_code resp < 600)%Z ->
     _forward_get cfg env path params n
     = (Return (502%Z,
                upstream_error env
                  (HTTPError (Requests.status_code resp)
                     (Requests.url req))), n1)) /\
  (forall s n1,
     session_get cfg env url params n
     = (Raise (RequestException (RetryError s)), n1) ->
     _forward_get cfg env path params n
     = (Return (502%Z, upstream_error env (RetryError s)), n1)) /\
  (forall status data n1,
     _forward_get cfg env path params n = (Return (status, data), n1) ->
     status = 502%Z \/
     ((status < 400 \/ 600 <= status)%Z /\
      exists req resp,
        session_get cfg env url params n = (Return (req, resp), n1) /\
        Requests.status_code resp = status)) /\
  (forall req resp n1,
     session_get cfg env url params n = (Return (req, resp), n1) ->
     (Requests.status_code resp < 400 \/ 600 <= Requests.status_code resp)%Z ->
     (forall e, json_loads env (Requests.text resp) = Raise e ->
                is_value_error e = true) ->
     exists data,
       _forward_get cfg env path params n
       = (Return (Requests.status_code resp, data), n1)).
Proof.
  intros url. split; [|split; [|split]].
  - intros req resp n1 G R. rewrite forward_get_eq. fold url. rewrite G.
    unfold outcome_of.
    destruct (Z.leb_spec 400 (Requests.status_code resp)); [|lia].
    destruct (Z.ltb_spec (Requests.status_code resp) 600); [|lia].
    reflexivity.
  - intros s n1 G. rewrite forward_get_eq. fold url. now rewrite G.
  - intros status data n1. rewrite forward_get_eq. fold url.
    destruct (session_get cfg env url params n)
      as [[[req resp]|[k|m|m|m|e]] n2]; try discriminate.
    + unfold outcome_of.
      destruct (Z.leb_spec 400 (Requests.status_code resp)) as [L1|L1];
        destruct (Z.ltb_spec (Requests.status_code resp) 600) as [L2|L2];
        simpl;
        try (intros H; injection H as <- _ _; now left);
        (destruct (json_loads env (Requests.text resp)) as [j|[k|m|m|m|e]];
         try discriminate; intros H; injection H as <- <- <-;
         try (now left); right; (split; [lia|eauto])).
    + intros H. injection H as <- _ _. now left.
  - intros req resp n1 G S J. rewrite forward_get_eq. fold url. rewrite G.
    unfold outcome_of.
    assert (E : ((400 <=? Requests.status_code resp)
                 && (Requests.status_code resp <? 600))%Z = false).
    { destruct (Z.leb_spec 400 (Requests.status_code resp)); [|reflexivity].
      destruct (Z.ltb_spec (Requests.status_code resp) 600);
        [lia|reflexivity]. }
    rewrite E.
    destruct (json_loads env (Requests.text resp)) as [j|e] eqn:Jl;
      [eauto|].
    specialize (J e eq_refl). destruct e; try discriminate. eauto.
Qed.

Lemma upstream_http_error_result_witness :
  session_get default_config (Sample.env_of Sample.up_404)
    (OPEN_METEO_BASE default_config +++ "/" +++ Py.lstrip "/" "forecast")
    Sample.params Sample.n0
  = (Return (request_for default_config "forecast" Sample.params,
             Sample.resp_of 404 "Not Found"), Sample.after 1) /\
  (400 <= Requests.status_code (Sample.resp_of 404 "Not Found") < 600)%Z /\
  _forward_get default_config (Sample.env_of Sample.up_404) "forecast"
    Sample.params Sample.n0
  = (Return (502%Z,
             upstream_error (Sample.env_of Sample.up_404)
               (HTTPError
                  (Requests.status_code (Sample.resp_of 404 "Not Found"))
                  (Requests.url
                     (request_for default_config "forecast"
                        Sample.params)))), Sample.after 1).
Proof.
  set (resp := Sample.resp_of 404 "Not Found").
  set (req := request_for default_config "forecast" Sample.params).
  set (n1 := Sample.after 1).
  assert (H1 : session_get default_config (Sample.env_of Sample.up_404)
                 (OPEN_METEO_BASE default_config +++ "/"
                  +++ Py.lstrip "/" "forecast")
                 Sample.params Sample.n0 = (Return (req, resp), n1))
    by reflexivity.
  assert (H2 : (400 <= Requests.status_code resp < 600)%Z) by (simpl; lia).
  split; [exact H1|]. split; [exact H2|].
  exact (proj1 (upstream_http_error_result default_config
                  (Sample.env_of Sample.up_404) "forecast" Sample.params
                  Sample.n0) req resp n1 H1 H2).
Defined.

(** C8 as stated fails: upstream answers 404, the response is at hand,
    and yet the result does not carry upstream's status code. *)
Lemma upstream_status_propagated_refuted :
  ~ (forall cfg env path params n req resp n1,
       session_get cfg env
         (OPEN_METEO_BASE cfg +++ "/" +++ Py.lstrip "/" path) params n
       = (Return (req, resp), n1) ->
       (400 <= Requests.status_code resp < 500)%Z ->
       exists data,
         fst (_forward_get cfg env path params n)
         = Return (Requests.status_code resp, data)).
Proof.
  intros H.
  destruct (H default_config (Sample.env_of Sample.up_404) "forecast"
              Sample.params Sample.n0
              (request_for default_config "forecast" Sample.params)
              (Sample.resp_of 404 "Not Found") (Sample.after 1)
              eq_refl ltac:(simpl; lia)) as [data F].
  vm_compute in F. discriminate.
Qed.



End ClientProperties.
(** ** The cached forward *)

Section CoordinatorProperties.
Import Cachetools CacheInv CacheFacts NetFacts AppFacts.

Lemma hit_of_assoc {V} (t e : Z) (k : string) (v : V) (c : TTLCache V) :
  assoc k (links c) = Some (v, e) -> (t < e)%Z -> hit t k c = Some v.
Proof.
  intros A L. unfold hit. rewrite A.
  destruct (Z.ltb_spec t e); [reflexivity|lia].
Qed.

(** What one call leaves behind: the cache after the lookup, or after the
    lookup and the store of what [_forward_get] returned. *)
Lemma cached_forward_state (cfg : Config) (env : Env) (path : string)
      (params : Py.dict) (w : World) :
  let k := _cache_key path params in
  let c1 := snd (getitem (Requests.clock (net w)) k (cache w)) in
  (exists v,
     hit (Requests.clock (net w)) k (cache w) = Some v /\
     snd (_cached_forward cfg env path params w)
     = {| net := net w; cache := c1 |}) \/
  (hit (Requests.clock (net w)) k (cache w) = None /\
   ((exists e n1,
       _forward_get cfg env path params (net w) = (Raise e, n1) /\
       snd (_cached_forward cfg env path params w)
       = {| net := n1; cache := c1 |}) \/
    (exists v n1,
       _forward_get cfg env path params (net w) = (Return v, n1) /\
       snd (_cached_forward cfg env path params w)
       = {| net := n1;
            cache := snd (setitem (Requests.clock n1) k v c1) |}))).
Proof.
  intros k c1. subst c1. unfold _cached_forward. cbv zeta. fold k.
  pose proof (getitem_hit (Requests.clock (net w)) k (cache w)) as G.
  destruct (getitem (Requests.clock (net w)) k (cache w)) as [r c1].
  simpl in *. subst r.
  destruct (hit (Requests.clock (net w)) k (cache w)) as [v|];
    [left; eauto|right]. split; [reflexivity|].
  destruct (_forward_get cfg env path params (net w)) as [[v|e] n1];
    [right|left; eauto].
  exists v, n1. split; [reflexivity|].
  now destruct (setitem (Requests.clock n1) k v c1) as [[u|[x|x|x|x|x]] c2].
Qed.

(** The state stays good from call to call, and the clock does not go
    back. *)
Lemma cached_forward_good (cfg : Config) (env : Env) (path : string)
      (params : Py.dict) (w : World) :
  good cfg w ->
  good cfg (snd (_cached_forward cfg env path params w)) /\
  (Requests.clock (net w)
   <= Requests.clock (net (snd (_cached_forward cfg env path params w))))%Z.
Proof.
  intros (Gm & Gt & Gi).
  pose proof (getitem_inv _ _ (_cache_key path params) _ Gi (Z.le_refl _))
    as I1.
  destruct (getitem_conf (Requests.clock (net w)) (_cache_key path params)
              (cache w)) as (Cm & Ct & _ & _).
  destruct (cached_forward_state cfg env path params w)
    as [(v & _ & ->)|(_ & [(e & n1 & F & ->)|(v & n1 & F & ->)])]; simpl.
  - split; [|lia]. unfold good. simpl.
    split; [congruence|]. split; [congruence|exact I1].
  - pose proof (forward_get_clock cfg env path params (net w)) as Lc.
    rewrite F in Lc. simpl in Lc. split; [|exact Lc]. unfold good. simpl.
    split; [congruence|]. split; [congruence|].
    exact (inv_mono _ _ _ I1 Lc).
  - pose proof (forward_get_clock cfg env path params (net w)) as Lc.
    rewrite F in Lc. simpl in Lc. split; [|exact Lc].
    destruct (Z_lt_ge_dec (CACHE_MAXSIZE cfg) 1) as [Lt|Ge].
    + unfold setitem.
      destruct (expire_conf (Requests.clock n1)
                  (snd (getitem (Requests.clock (net w))
                          (_cache_key path params) (cache w)))) as [Em Et].
      assert (Mx : (maxsize (expire (Requests.clock n1)
                               (snd (getitem (Requests.clock (net w))
                                       (_cache_key path params) (cache w))))
                    <? 1)%Z = true) by (apply Z.ltb_lt; lia).
      rewrite Mx. unfold good. simpl.
      split; [congruence|]. split; [congruence|].
      apply (inv_mono (Requests.clock (net w))); [|exact Lc].
      apply expire_inv. exact I1.
    + destruct (setitem_inv _ (Requests.clock n1) (_cache_key path params)
                  v _ I1 Lc ltac:(lia)) as (c2 & S & I2 & Sm & St & _).
      rewrite S. unfold good. simpl.
      split; [congruence|]. split; [congruence|exact I2].
Qed.

(** A link that is still live when a call has ended was left in place by
    that call, provided there was room for one more value. *)
Lemma cached_forward_keeps (cfg : Config) (env : Env) (path : string)
      (params : Py.dict) (w : World) (k : string) (v : Z * payload)
      (e : Z) :
  good cfg w ->
  assoc k (links (cache w)) = Some (v, e) ->
  (Requests.clock (net (snd (_cached_forward cfg env path params w)))
   < e)%Z ->
  (currsize (cache w) + 1 <= CACHE_MAXSIZE cfg)%Z ->
  assoc k (links (cache (snd (_cached_forward cfg env path params w))))
  = Some (v, e) /\
  (currsize (cache (snd (_cached_forward cfg env path params w)))
   <= currsize (cache w) + 1)%Z.
Proof.
  intros (Gm & Gt & Gi) A.
  pose proof (inv_nodup _ _ Gi) as ND.
  pose proof (getitem_inv _ _ (_cache_key path params) _ Gi (Z.le_refl _))
    as I1.
  pose proof (getitem_assoc (Requests.clock (net w))
                (_cache_key path params) (cache w) k ND) as A1.
  pose proof (getitem_currsize (Requests.clock (net w))
                (_cache_key path params) (cache w)) as S1.
  destruct (getitem_conf (Requests.clock (net w)) (_cache_key path params)
              (cache w)) as (Cm & Ct & _ & _).
  destruct (cached_forward_state cfg env path params w)
    as [(v1 & _ & ->)|(Hm & [(e1 & n1 & F & ->)|(v1 & n1 & F & ->)])];
    simpl; intros L R.
  - split; [congruence|lia].
  - split; [congruence|lia].
  - pose proof (forward_get_clock cfg env path params (net w)) as Lc.
    rewrite F in Lc. simpl in Lc.
    assert (N : k <> _cache_key path params).
    { intros ->. unfold hit in Hm. rewrite A in Hm.
      destruct (Z.ltb_spec (Requests.clock (net w)) e); [discriminate|lia]. }
    rewrite <- S1.
    apply (setitem_keeps _ _ _ _ _ _ _ _ I1 N); [congruence|exact L|].
    rewrite S1, Cm, Gm. exact R.
Qed.

Lemma serve_clock (cfg : Config) (env : Env) (calls : list Call) :
  (1 <= CACHE_MAXSIZE cfg)%Z ->
  forall w, good cfg w ->
  (Requests.clock (net w)
   <= Requests.clock (net (serve cfg env calls w)))%Z /\
  good cfg (serve cfg env calls w).
Proof.
  intros M. induction calls as [|c calls IH]; intros w G;
    [split; [simpl; lia|exact G]|].
  simpl.
  set (t := (Requests.clock (net w) + Z.of_N (wait c))%Z).
  assert (G1 : good cfg (at_time t w))
    by (apply good_at_time; [exact G|unfold t; lia]).
  destruct (cached_forward_good cfg env (call_path c) (call_params c) _ G1)
    as [G2 L2].
  destruct (IH _ G2) as [L3 G3]. split; [|exact G3].
  change (Requests.clock (net (at_time t w))) with t in L2.
  unfold t in *. lia.
Qed.

(** Calls served while a link is live, with room for what they store, leave
    the link in place. *)
Lemma serve_keeps (cfg : Config) (env : Env) (k : string)
      (v : Z * payload) (e : Z) (calls : list Call) :
  (1 <= CACHE_MAXSIZE cfg)%Z ->
  forall w, good cfg w ->
  assoc k (links (cache w)) = Some (v, e) ->
  (Requests.clock (net (serve cfg env calls w)) < e)%Z ->
  (currsize (cache w) + Z.of_nat (List.length calls)
   <= CACHE_MAXSIZE cfg)%Z ->
  assoc k (links (cache (serve cfg env calls w))) = Some (v, e).
Proof.
  intros M. induction calls as [|c calls IH]; intros w G A L R;
    [exact A|].
  cbn [serve] in *. cbv zeta in *.
  set (t := (Requests.clock (net w) + Z.of_N (wait c))%Z) in *.
  assert (G1 : good cfg (at_time t w))
    by (apply good_at_time; [exact G|unfold t; lia]).
  destruct (cached_forward_good cfg env (call_path c) (call_params c) _ G1)
    as [G2 L2].
  destruct (serve_clock cfg env calls M _ G2) as [L3 _].
  assert (R1 : (currsize (cache w) + 1 + Z.of_nat (List.length calls)
                <= CACHE_MAXSIZE cfg)%Z).
  { cbn [List.length] in R. rewrite Nat2Z.inj_succ in R. lia. }
  destruct (cached_forward_keeps cfg env (call_path c) (call_params c)
              (at_time t w) k v e G1 A) as [A2 S2].
  - lia.
  - change (cache (at_time t w)) with (cache w). lia.
  - change (cache (at_time t w)) with (cache w) in S2.
    apply IH; [exact G2|exact A2|exact L|]. lia.
Qed.

(** C1.  When a first call of [_cached_forward(path, params)] finds no live
    entry and [_forward_get] returns a value, the call returns that value,
    leaves the network as [_forward_get] left it, and stores the value
    under the key with the expiry time [store time + CACHE_TTL].  Every
    later call with the same path and the same parameters (in any order)
    before that time returns the identical value from the cache and leaves
    the network side untouched: no attempt is logged, whatever upstream
    would answer.  Other calls may have been served in between, as long as
    the cache had room for what they stored. *)
Theorem second_call_served_from_cache (cfg : Config) (env : Env)
        (path : string) (params : Py.dict) (w : World) (v : Z * payload)
        (n1 : Requests.Net) :
  good cfg w ->
  (1 <= CACHE_MAXSIZE cfg)%Z ->
  hit (Requests.clock (net w)) (_cache_key path params) (cache w) = None ->
  _forward_get cfg env path params (net w) = (Return v, n1) ->
  exists c1,
    _cached_forward cfg env path params w
    = (Return v, {| net := n1; cache := c1 |}) /\
    assoc (_cache_key path params) (links c1)
    = Some (v, (Requests.clock n1 + CACHE_TTL cfg)%Z) /\
    forall calls params' t2,
      let w' := serve cfg env calls {| net := n1; cache := c1 |} in
      (currsize c1 + Z.of_nat (List.length calls) <= CACHE_MAXSIZE cfg)%Z ->
      Permutation params params' ->
      (Requests.clock (net w') <= t2
       < Requests.clock n1 + CACHE_TTL cfg)%Z ->
      hit t2 (_cache_key path params) (cache w') = Some v /\
      exists c2,
        _cached_forward cfg env path params' (at_time t2 w')
        = (Return v, {| net := net (at_time t2 w'); cache := c2 |}).
Proof.
  intros G M H F.
  destruct (cached_forward_miss cfg env path params w v n1 G M H F)
    as (c1 & C & G1 & A).
  exists c1. split; [exact C|]. split; [exact A|].
  intros calls params' t2 w' R P [L1 L2].
  assert (K : _cache_key path params' = _cache_key path params).
  { unfold _cache_key. now rewrite (PyFacts.sorted_order _ _ P). }
  assert (A' : assoc (_cache_key path params) (links (cache w'))
               = Some (v, (Requests.clock n1 + CACHE_TTL cfg)%Z)).
  { apply serve_keeps; auto. fold w'. lia. }
  assert (Hh : hit t2 (_cache_key path params) (cache w') = Some v)
    by (eapply hit_of_assoc; eauto).
  split; [exact Hh|].
  destruct (cached_forward_hit cfg env path params' (at_time t2 w') v)
    as [c3 R3].
  - simpl. rewrite K. exact Hh.
  - exists c3. exact R3.
Qed.

Lemma second_call_served_from_cache_witness :
  good default_config Sample.w0 /\
  (1 <= CACHE_MAXSIZE default_config)%Z /\
  hit (Requests.clock (net Sample.w0))
      (_cache_key "forecast" Sample.params) (cache Sample.w0) = None /\
  _forward_get default_config (Sample.env_of Sample.up_temp) "forecast"
    Sample.params (net Sample.w0)
  = (Return (200%Z, Json Sample.temp_json), Sample.after 1) /\
  exists c1,
    _cached_forward default_config (Sample.env_of Sample.up_temp)
      "forecast" Sample.params Sample.w0
    = (Return (200%Z, Json Sample.temp_json),
       {| net := Sample.after 1; cache := c1 |}) /\
    assoc (_cache_key "forecast" Sample.params) (links c1)
    = Some ((200%Z, Json Sample.temp_json),
            (Requests.clock (Sample.after 1)
             + CACHE_TTL default_config)%Z) /\
    forall calls params' t2,
      let w' := serve default_config (Sample.env_of Sample.up_temp) calls
                  {| net := Sample.after 1; cache := c1 |} in
      (currsize c1 + Z.of_nat (List.length calls)
       <= CACHE_MAXSIZE default_config)%Z ->
      Permutation Sample.params params' ->
      (Requests.clock (net w') <= t2
       < Requests.clock (Sample.after 1) + CACHE_TTL default_config)%Z ->
      hit t2 (_cache_key "forecast" Sample.params) (cache w')
      = Some (200%Z, Json Sample.temp_json) /\
      exists c2,
        _cached_forward default_config (Sample.env_of Sample.up_temp)
          "forecast" params' (at_time t2 w')
        = (Return (200%Z, Json Sample.temp_json),
           {| net := net (at_time t2 w'); cache := c2 |}).
Proof.
  assert (H1 : good default_config Sample.w0).
  { unfold good. simpl. repeat split; constructor. }
  assert (H2 : (1 <= CACHE_MAXSIZE default_config)%Z) by (simpl; lia).
  assert (H3 : hit (Requests.clock (net Sample.w0))
                 (_cache_key "forecast" Sample.params) (cache Sample.w0)
               = None) by reflexivity.
  assert (H4 : _forward_get default_config (Sample.env_of Sample.up_temp)
                 "forecast" Sample.params (net Sample.w0)
               = (Return (200%Z, Json Sample.temp_json), Sample.after 1))
    by reflexivity.
  split; [exact H1|]. split; [exact H2|]. split; [exact H3|].
  split; [exact H4|].
  exact (second_call_served_from_cache default_config
           (Sample.env_of Sample.up_temp) "forecast" Sample.params Sample.w0
           _ _ H1 H2 H3 H4).
Defined.

(** The scenario of the specification: [200 {"temp":21}] comes back, and
    thirty ticks later the same request, with its parameters in the other
    order, gets the same answer with still one attempt logged. *)
Example forecast_scenario :
  let first := _cached_forward default_config (Sample.env_of Sample.up_temp)
                 "forecast" Sample.params Sample.w0 in
  let second := _cached_forward default_config (Sample.env_of Sample.up_temp)
                  "forecast" [("longitude", "20"); ("latitude", "10")]
                  (at_time 30 (snd first)) in
  fst first = Return (200%Z, Json Sample.temp_json) /\
  fst second = Return (200%Z, Json Sample.temp_json) /\
  List.length (Requests.sent (net (snd first))) = 1%nat /\
  List.length (Requests.sent (net (snd second))) = 1%nat.
Proof. repeat split; reflexivity. Qed.

(** Once the TTL has passed, the same request goes upstream again. *)
Example forecast_scenario_expired :
  let first := _cached_forward default_config (Sample.env_of Sample.up_temp)
                 "forecast" Sample.params Sample.w0 in
  let second := _cached_forward default_config (Sample.env_of Sample.up_temp)
                  "forecast" Sample.params (at_time 61 (snd first)) in
  List.length (Requests.sent (net (snd second))) = 2%nat.
Proof. reflexivity. Qed.

(** With [CACHE_MAXSIZE=1] a call for another path in between takes the
    only place in the cache, and the same request goes upstream again
    although its TTL has not passed. *)
Example forecast_scenario_evicted :
  let cfg := Sample.config_of_size 1 in
  let env := Sample.env_of Sample.up_temp in
  let first := _cached_forward cfg env "forecast" Sample.params
                 (start cfg 0) in
  let other := _cached_forward cfg env "archive" Sample.params
                 (at_time 10 (snd first)) in
  let second := _cached_forward cfg env "forecast" Sample.params
                  (at_time 20 (snd other)) in
  List.length (Requests.sent (net (snd first))) = 1%nat /\
  List.length (Requests.sent (net (snd other))) = 2%nat /\
  List.length (Requests.sent (net (snd second))) = 3%nat.
Proof. repeat split; reflexivity. Qed.

(** C5.  On a miss, whatever [_forward_get] returned, a success or the 502
    failure result alike, is stored under the key of [(path, params)] with
    the expiry time [store time + CACHE_TTL] and found by every lookup
    inside the TTL window.  In particular, when upstream answers 503 to
    every attempt, the result [(502, {"error": "upstream_error", ...})] is
    returned, stored under that key and served to the lookups inside the
    window. *)
Theorem failures_cached_like_successes (cfg : Config) (env : Env)
        (path : string) (params : Py.dict) (w : World) :
  let cached (v : Z * payload) (n1 : Requests.Net) :=
    exists c1,
      _cached_forward cfg env path params w
      = (Return v, {| net := n1; cache := c1 |}) /\
      assoc (_cache_key path params) (links c1)
      = Some (v, (Requests.clock n1 + CACHE_TTL cfg)%Z) /\
      (forall t,
         (Requests.clock n1 <= t < Requests.clock n1 + CACHE_TTL cfg)%Z ->
         hit t (_cache_key path params) c1 = Some v /\
         fst (_cached_forward cfg env path params
                (at_time t {| net := n1; cache := c1 |})) = Return v) in
  good cfg w ->
  (1 <= CACHE_MAXSIZE cfg)%Z ->
  hit (Requests.clock (net w)) (_cache_key path params) (cache w) = None ->
  (forall v n1,
     _forward_get cfg env path params (net w) = (Return v, n1) ->
     cached v n1) /\
  (always_503 (upstream env) ->
   check_url env (Requests.url (request_for cfg path params)) = None ->
   (0 < REQUEST_TIMEOUT cfg)%Z ->
   exists n1,
     _forward_get cfg env path params (net w)
     = (Return (502%Z, upstream_error env (RetryError 503)), n1) /\
     cached (502%Z, upstream_error env (RetryError 503)) n1).
Proof.
  intros cached G M H.
  assert (S : forall v n1,
            _forward_get cfg env path params (net w) = (Return v, n1) ->
            cached v n1).
  { intros v n1 F.
    destruct (cached_forward_miss cfg env path params w v n1 G M H F)
      as (c1 & C & _ & A).
    exists c1. split; [exact C|]. split; [exact A|].
    intros t [_ L].
    assert (Hh : hit t (_cache_key path params) c1 = Some v)
      by (eapply hit_of_assoc; eauto).
    split; [exact Hh|].
    destruct (cached_forward_hit cfg env path params
                (at_time t {| net := n1; cache := c1 |}) v Hh) as [c3 R].
    now rewrite R. }
  split; [exact S|].
  intros A503 Cu T.
  destruct (urlopen_always_503 (upstream env) retries
              (request_for cfg path params) A503 eq_refl eq_refl 3 (net w))
    as [n1 U].
  assert (F : _forward_get cfg env path params (net w)
              = (Return (502%Z, upstream_error env (RetryError 503)), n1)).
  { rewrite forward_get_eq, session_get_eq.
    now rewrite (get_first_raises _ _ _ _ _ _ _ _ _ _ _ Cu T U). }
  exists n1. split; [exact F|]. apply S. exact F.
Qed.

Lemma failures_cached_like_successes_witness :
  good default_config Sample.w0 /\
  (1 <= CACHE_MAXSIZE default_config)%Z /\
  hit (Requests.clock (net Sample.w0))
      (_cache_key "forecast" Sample.params) (cache Sample.w0) = None /\
  always_503 (upstream (Sample.env_of Sample.up_503)) /\
  check_url (Sample.env_of Sample.up_503)
    (Requests.url (request_for default_config "forecast" Sample.params))
  = None /\
  (0 < REQUEST_TIMEOUT default_config)%Z /\
  exists n1,
    _forward_get default_config (Sample.env_of Sample.up_503) "forecast"
      Sample.params (net Sample.w0)
    = (Return (502%Z, upstream_error (Sample.env_of Sample.up_503)
                        (RetryError 503)), n1) /\
    exists c1,
      _cached_forward default_config (Sample.env_of Sample.up_503)
        "forecast" Sample.params Sample.w0
      = (Return (502%Z, upstream_error (Sample.env_of Sample.up_503)
                          (RetryError 503)),
         {| net := n1; cache := c1 |}) /\
      assoc (_cache_key "forecast" Sample.params) (links c1)
      = Some ((502%Z, upstream_error (Sample.env_of Sample.up_503)
                        (RetryError 503)),
              (Requests.clock n1 + CACHE_TTL default_config)%Z) /\
      (forall t,
         (Requests.clock n1 <= t
          < Requests.clock n1 + CACHE_TTL default_config)%Z ->
         hit t (_cache_key "forecast" Sample.params) c1
         = Some (502%Z, upstream_error (Sample.env_of Sample.up_503)
                          (RetryError 503)) /\
         fst (_cached_forward default_config (Sample.env_of Sample.up_503)
                "forecast" Sample.params
                (at_time t {| net := n1; cache := c1 |}))
         = Return (502%Z, upstream_error (Sample.env_of Sample.up_503)
                            (RetryError 503))).
Proof.
  assert (H1 : good default_config Sample.w0).
  { unfold good. simpl. repeat split; constructor. }
  assert (H2 : (1 <= CACHE_MAXSIZE default_config)%Z) by (simpl; lia).
  assert (H3 : hit (Requests.clock (net Sample.w0))
                 (_cache_key "forecast" Sample.params) (cache Sample.w0)
               = None) by reflexivity.
  assert (H4 : always_503 (upstream (Sample.env_of Sample.up_503))).
  { intros i req. exists (Sample.resp_of 503 ""). split; reflexivity. }
  assert (H5 : check_url (Sample.env_of Sample.up_503)
                 (Requests.url
                    (request_for default_config "forecast" Sample.params))
               = None) by reflexivity.
  assert (H6 : (0 < REQUEST_TIMEOUT default_config)%Z) by (simpl; lia).
  split; [exact H1|]. split; [exact H2|]. split; [exact H3|].
  split; [exact H4|]. split; [exact H5|]. split; [exact H6|].
  exact (proj2 (failures_cached_like_successes default_config
                  (Sample.env_of Sample.up_503) "forecast" Sample.params
                  Sample.w0 H1 H2 H3) H4 H5 H6).
Defined.

(** Upstream answers 503 throughout: four attempts, then the 502 result,
    which the next call inside the window gets from the cache. *)
Example outage_scenario :
  let first := _cached_forward default_config (Sample.env_of Sample.up_503)
                 "forecast" Sample.params Sample.w0 in
  let second := _cached_forward default_config (Sample.env_of Sample.up_503)
                  "forecast" Sample.params (at_time 30 (snd first)) in
  fst first
  = Return (502%Z, Json (JObj [("error", JStr "upstream_error");
                               ("detail", JStr "too many error responses")]))
  /\ fst second = fst first
  /\ List.length (Requests.sent (net (snd first))) = 4%nat
  /\ List.length (Requests.sent (net (snd second))) = 4%nat.
Proof. repeat split; reflexivity. Qed.

(** Every state the process reaches by serving calls is good. *)
Lemma serve_good (cfg : Config) (env : Env) (calls : list Call) :
  (1 <= CACHE_MAXSIZE cfg)%Z ->
  forall w, good cfg w -> good cfg (serve cfg env calls w).
Proof. intros M w G. exact (proj2 (serve_clock cfg env calls M w G)). Qed.

Lemma run_ops_app {V} (a b : list (cache_op V)) (c : TTLCache V) :
  run_ops (a ++ b) c = run_ops b (run_ops a c).
Proof. unfold run_ops. apply fold_left_app. Qed.

(** Serving calls uses the cache through lookups and stores only, so the
    bound on its size holds in every state the process reaches. *)
Lemma serve_size_bounded (cfg : Config) (env : Env) (calls : list Call)
      (t0 : Z) :
  (0 <= CACHE_MAXSIZE cfg)%Z ->
  (currsize (cache (serve cfg env calls (start cfg t0)))
   <= CACHE_MAXSIZE cfg)%Z.
Proof.
  intros M.
  assert (H : forall w, exists ops,
            cache (serve cfg env calls w) = run_ops ops (cache w)).
  { induction calls as [|c calls IH]; intros w; [now exists []|].
    simpl.
    destruct (IH (snd (_cached_forward cfg env (call_path c) (call_params c)
                         (at_time (Requests.clock (net w)
                                   + Z.of_N (wait c)) w)))) as [ops2 E2].
    destruct (cached_forward_uses_cache cfg env (call_path c)
                (call_params c)
                (at_time (Requests.clock (net w) + Z.of_N (wait c)) w))
      as (ops1 & _ & E1).
    exists (ops1 ++ ops2). rewrite E2, E1, run_ops_app. reflexivity. }
  destruct (H (start cfg t0)) as [ops E]. rewrite E.
  exact (proj1 (cache_size_bounded_at cfg t0 ops M)).
Qed.

End CoordinatorProperties.

(** ** The [/weather] route *)

Section WeatherProperties.

Variable cfg : Config.
Variable env : Env.

(** Without a non-empty latitude under [latitude]/[lat] or without a
    non-empty longitude under [longitude]/[lon]/[long], the answer is 400
    and nothing is forwarded. *)
Lemma weather_missing_parameters (args : Flask.MultiDict) (w : World) :
  Py.truthy (Py.or_else (Flask.args_get "latitude" args)
                        (Flask.args_get "lat" args)) = false \/
  Py.truthy (Py.or_else (Py.or_else (Flask.args_get "longitude" args)
                                    (Flask.args_get "lon" args))
                        (Flask.args_get "long" args)) = false ->
  weather_proxy cfg env args w
  = (Return {| Flask.status := 400; Flask.body := missing_parameters |}, w).
Proof.
  intros H. unfold weather_proxy. cbv zeta.
  destruct H as [-> | ->]; [reflexivity|].
  now rewrite orb_true_r.
Qed.

(** Otherwise the call goes to the path ["forecast"] with the parameters
    that [weather_proxy] built, and its result is relayed. *)
Lemma weather_forwards (args : Flask.MultiDict) (w : World) :
  Py.truthy (Py.or_else (Flask.args_get "latitude" args)
                        (Flask.args_get "lat" args)) = true ->
  Py.truthy (Py.or_else (Py.or_else (Flask.args_get "longitude" args)
                                    (Flask.args_get "lon" args))
                        (Flask.args_get "long" args)) = true ->
  weather_proxy cfg env args w
  = relay (_cached_forward cfg env "forecast" (weather_params args) w).
Proof. intros A B. unfold weather_proxy. cbv zeta. now rewrite A, B. Qed.

(** C9 at the query [lat=10&long=20]: the request passes the check and is
    forwarded to ["forecast"], but the forwarded parameters still carry the
    name [long] and have no [longitude]. *)
Theorem weather_long_alias_not_renamed (w : World) :
  let args := [("lat", "10"); ("long", "20")] in
  weather_params args = [("long", "20"); ("latitude", "10")] /\
  Py.get "longitude" (weather_params args) = None /\
  Py.get "long" (weather_params args) = Some "20" /\
  weather_proxy cfg env args w
  = relay (_cached_forward cfg env "forecast"
             [("long", "20"); ("latitude", "10")] w).
Proof. repeat split; reflexivity. Qed.

(** A body that is a JSON number is decoded and then refused by
    [make_response]: the view raises [TypeError]. *)
Example scalar_payload_is_refused (w : World) :
  relay (Return (200%Z, Json (JNum "21")), w)
  = (Raise (TypeError "The view function did not return a valid response"),
     w).
Proof. reflexivity. Qed.

(** The aliases [lat] and [lon] are renamed. *)
Example weather_lat_lon_renamed :
  weather_params [("lat", "10"); ("lon", "20"); ("hourly", "temperature_2m")]
  = [("hourly", "temperature_2m"); ("latitude", "10"); ("longitude", "20")].
Proof. reflexivity. Qed.

Example weather_no_parameters (w : World) :
  weather_proxy cfg env [] w
  = (Return {| Flask.status := 400; Flask.body := missing_parameters |}, w).
Proof. reflexivity. Qed.

End WeatherProperties.

(** ** More about the routes *)

(** *** Dictionaries *)

Module DictFacts.
Import Py.

Lemma get_set_same (k v : string) (d : dict) : get k (set k v d) = Some v.
Proof.
  induction d as [|[k' v'] d IH]; simpl.
  - now rewrite String.eqb_refl.
  - destruct (String.eqb_spec k' k) as [->|N]; simpl.
    + now rewrite String.eqb_refl.
    + destruct (String.eqb_spec k' k); [contradiction|exact IH].
Qed.

Lemma get_set_other (k k' v : string) (d : dict) :
  k <> k' -> get k (set k' v d) = get k d.
Proof.
  intros N. induction d as [|[k0 v0] d IH]; simpl.
  - destruct (String.eqb_spec k' k); [congruence|reflexivity].
  - destruct (String.eqb_spec k0 k') as [->|N0]; simpl.
    + destruct (String.eqb_spec k' k); [congruence|reflexivity].
    + now rewrite IH.
Qed.

Lemma get_remove_other (k k' : string) (d : dict) :
  k <> k' -> get k (remove k' d) = get k d.
Proof.
  intros N. induction d as [|[k0 v0] d IH]; simpl; [reflexivity|].
  destruct (String.eqb_spec k0 k') as [->|N0]; simpl.
  - destruct (String.eqb_spec k' k); [congruence|reflexivity].
  - now rewrite IH.
Qed.

Lemma get_None (k : string) (d : dict) :
  get k d = None <-> ~ In k (map fst d).
Proof.
  induction d as [|[k0 v0] d IH]; simpl; [tauto|].
  destruct (String.eqb_spec k0 k) as [->|N].
  - split; [discriminate|]. intros H. exfalso. apply H. now left.
  - rewrite IH. tauto.
Qed.

Lemma remove_keys (k k0 : string) (d : dict) :
  In k0 (map fst (remove k d)) -> In k0 (map fst d).
Proof.
  induction d as [|[k' v'] d IH]; simpl; [tauto|].
  destruct (String.eqb k' k); simpl; tauto.
Qed.

Lemma remove_NoDup (k : string) (d : dict) :
  NoDup (map fst d) -> NoDup (map fst (remove k d)).
Proof.
  induction d as [|[k' v'] d IH]; simpl; [auto|].
  intros ND. inversion ND as [|? ? Hn ND']; subst.
  destruct (String.eqb k' k); [assumption|]. simpl. constructor.
  - intros I. apply Hn. now apply remove_keys in I.
  - now apply IH.
Qed.

Lemma get_remove_same (k : string) (d : dict) :
  NoDup (map fst d) -> get k (remove k d) = None.
Proof.
  induction d as [|[k' v'] d IH]; simpl; [reflexivity|].
  intros ND. inversion ND as [|? ? Hn ND']; subst.
  destruct (String.eqb_spec k' k) as [->|N].
  - now apply get_None.
  - simpl. destruct (String.eqb_spec k' k); [contradiction|]. now apply IH.
Qed.

Lemma remove_absent (k : string) (d : dict) :
  get k d = None -> remove k d = d.
Proof.
  induction d as [|[k' v'] d IH]; simpl; [reflexivity|].
  destruct (String.eqb k' k); [discriminate|].
  intros H. now rewrite IH.
Qed.

Lemma set_keys (k v k0 : string) (d : dict) :
  In k0 (map fst (set k v d)) -> k0 = k \/ In k0 (map fst d).
Proof.
  induction d as [|[k' v'] d IH]; simpl.
  - intros [<-|[]]. now left.
  - destruct (String.eqb_spec k' k) as [->|N]; simpl; [tauto|].
    intros [<-|I]; [tauto|]. apply IH in I. tauto.
Qed.

Lemma set_NoDup (k v : string) (d : dict) :
  NoDup (map fst d) -> NoDup (map fst (set k v d)).
Proof.
  induction d as [|[k' v'] d IH]; simpl.
  - intros _. repeat constructor. tauto.
  - intros ND. inversion ND as [|? ? Hn ND']; subst.
    destruct (String.eqb_spec k' k) as [->|N]; simpl.
    + now constructor.
    + constructor; [|now apply IH].
      intros I. apply set_keys in I as [E|I]; [congruence|contradiction].
Qed.

Lemma get_filter_key (k k0 : string) (d : dict) :
  get k (filter (fun kv => negb (String.eqb (fst kv) k0)) d)
  = if String.eqb k k0 then None else get k d.
Proof.
  induction d as [|[k' v'] d IH]; simpl.
  - now destruct (String.eqb k k0).
  - destruct (String.eqb_spec k' k0) as [->|N]; simpl.
    + rewrite IH. destruct (String.eqb_spec k k0) as [->|N']; [reflexivity|].
      destruct (String.eqb_spec k0 k); [congruence|reflexivity].
    + destruct (String.eqb_spec k' k) as [->|N'].
      * destruct (String.eqb_spec k k0); [contradiction|reflexivity].
      * exact IH.
Qed.

Lemma remove_filter (k : string) (d : dict) :
  NoDup (map fst d) ->
  remove k d = filter (fun kv => negb (String.eqb (fst kv) k)) d.
Proof.
  induction d as [|[k' v'] d IH]; simpl; [reflexivity|].
  intros ND. inversion ND as [|? ? Hn ND']; subst.
  destruct (String.eqb_spec k' k) as [->|N]; simpl.
  - symmetry. apply forallb_filter_id. apply forallb_forall.
    intros [k0 v0] I. simpl. apply negb_true_iff, String.eqb_neq.
    intros ->. apply Hn. change k with (fst (k, v0)). now apply in_map.
  - now rewrite IH.
Qed.

(** [dict(request.args)] has each name once and agrees with
    [request.args.get]. *)
Lemma to_dict_NoDup (args : Flask.MultiDict) :
  NoDup (map fst (Flask.to_dict args)).
Proof.
  induction args as [|[k v] args IH]; simpl; [constructor|].
  constructor.
  - intros I. apply in_map_iff in I as ([k' v'] & E & I). simpl in E.
    subst k'. apply filter_In in I as [_ I]. simpl in I.
    now rewrite String.eqb_refl in I.
  - clear - IH. induction (Flask.to_dict args) as [|[k' v'] d IHd]; simpl;
      [constructor|].
    inversion IH as [|? ? Hn ND]; subst.
    destruct (negb (String.eqb k' k)); simpl; [|auto].
    constructor; [|auto]. intros I. apply Hn.
    apply in_map_iff in I as (x & E & I). apply filter_In in I as [I _].
    rewrite <- E. now apply in_map.
Qed.

Lemma to_dict_get (k : string) (args : Flask.MultiDict) :
  get k (Flask.to_dict args) = get k args.
Proof.
  induction args as [|[k' v'] args IH]; simpl; [reflexivity|].
  destruct (String.eqb_spec k' k) as [->|N]; [reflexivity|].
  rewrite get_filter_key.
  destruct (String.eqb_spec k k'); [congruence|exact IH].
Qed.

Lemma filter_filter_comm {A} (p q : A -> bool) (l : list A) :
  filter p (filter q l) = filter q (filter p l).
Proof.
  induction l as [|a l IH]; simpl; [reflexivity|].
  destruct (p a) eqn:P, (q a) eqn:Q; simpl; rewrite ?P, ?Q, IH; reflexivity.
Qed.

Lemma filter_twice {A} (p : A -> bool) (l : list A) :
  filter p (filter p l) = filter p l.
Proof.
  induction l as [|a l IH]; simpl; [reflexivity|].
  destruct (p a) eqn:P; simpl; rewrite ?P, IH; reflexivity.
Qed.

Lemma to_dict_without (name : string) (args : Flask.MultiDict) :
  Flask.to_dict (without name args)
  = filter (fun kv => negb (String.eqb (fst kv) name)) (Flask.to_dict args).
Proof.
  unfold without. induction args as [|[k v] args IH]; simpl; [reflexivity|].
  destruct (String.eqb_spec k name) as [->|N]; simpl.
  - rewrite IH. now rewrite filter_twice.
  - rewrite IH. f_equal. apply filter_filter_comm.
Qed.

End DictFacts.

Section RouteProperties.
Import DictFacts.

Variable cfg : Config.
Variable env : Env.

Lemma or_else_truthy (a b : option string) :
  Py.truthy a = true -> Py.or_else a b = a.
Proof. unfold Py.or_else. now intros ->. Qed.

Lemma rename_get (old new k : string) (d : Py.dict) :
  NoDup (map fst d) -> old <> new ->
  Py.get k (rename old new d)
  = if String.eqb k old then None
    else if String.eqb k new then first_of (Py.get old d) (Py.get new d)
    else Py.get k d.
Proof.
  intros ND N. unfold rename.
  destruct (Py.get old d) as [v|] eqn:O; simpl.
  - destruct (String.eqb_spec k old) as [->|N1].
    + rewrite get_set_other by exact N. now apply get_remove_same.
    + destruct (String.eqb_spec k new) as [->|N2].
      * apply get_set_same.
      * rewrite get_set_other by exact N2. now apply get_remove_other.
  - destruct (String.eqb_spec k old) as [->|N1]; [exact O|].
    now destruct (String.eqb_spec k new) as [->|N2].
Qed.

Lemma rename_NoDup (old new : string) (d : Py.dict) :
  NoDup (map fst d) -> NoDup (map fst (rename old new d)).
Proof.
  intros ND. unfold rename. destruct (Py.get old d); [|exact ND].
  now apply set_NoDup, remove_NoDup.
Qed.

Lemma weather_params_latitude (args : Flask.MultiDict) (v : string) :
  Flask.args_get "lat" args = Some v ->
  Py.get "latitude" (weather_params args) = Some v.
Proof.
  unfold weather_params, Flask.args_get. cbv zeta. intros L.
  pose proof (to_dict_NoDup args) as ND.
  pose proof (rename_NoDup "lat" "latitude" _ ND) as ND1.
  rewrite (rename_get "lon" "longitude" "latitude" _ ND1) by discriminate.
  cbn [String.eqb Ascii.eqb Bool.eqb andb].
  rewrite (rename_get "lat" "latitude" "latitude" _ ND) by discriminate.
  rewrite to_dict_get, L. reflexivity.
Qed.

(** What [weather_proxy] forwards, name by name: never [lat] or [lon];
    under [latitude] the value sent as [lat] if there is one, else the one
    sent as [latitude]; likewise for [longitude] and [lon]; every other
    name with the first value it was sent with. *)
Theorem weather_params_lookup (args : Flask.MultiDict) (k : string) :
  Py.get k (weather_params args)
  = if String.eqb k "lat" then None
    else if String.eqb k "lon" then None
    else if String.eqb k "latitude"
      then first_of (Flask.args_get "lat" args)
                    (Flask.args_get "latitude" args)
    else if String.eqb k "longitude"
      then first_of (Flask.args_get "lon" args)
                    (Flask.args_get "longitude" args)
    else Flask.args_get k args.
Proof.
  unfold weather_params, Flask.args_get. cbv zeta.
  pose proof (to_dict_NoDup args) as ND.
  pose proof (rename_NoDup "lat" "latitude" _ ND) as ND1.
  rewrite (rename_get "lon" "longitude" k _ ND1) by discriminate.
  rewrite !(rename_get "lat" "latitude" _ _ ND) by discriminate.
  rewrite !to_dict_get. cbn [String.eqb Ascii.eqb Bool.eqb andb].
  destruct (String.eqb_spec k "lon") as [->|N1]; [reflexivity|].
  destruct (String.eqb_spec k "longitude") as [->|N2]; [reflexivity|].
  reflexivity.
Qed.


(** The check of [weather_proxy] reads [latitude] before [lat], but the
    value forwarded as [latitude] is the one sent as [lat] whenever [lat]
    is in the query, even an empty one. *)
Theorem weather_lat_overrides_latitude (args : Flask.MultiDict) (w : World)
        (v : string) :
  Py.truthy (Flask.args_get "latitude" args) = true ->
  Flask.args_get "lat" args = Some v ->
  Py.truthy (Py.or_else (Py.or_else (Flask.args_get "longitude" args)
                                    (Flask.args_get "lon" args))
                        (Flask.args_get "long" args)) = true ->
  weather_proxy cfg env args w
  = relay (_cached_forward cfg env "forecast" (weather_params args) w) /\
  Py.get "latitude" (weather_params args) = Some v.
Proof.
  intros A L B. split.
  - unfold weather_proxy, relay. cbv zeta. unfold Py.or_else at 1.
    rewrite A, A, B. reflexivity.
  - now apply weather_params_latitude.
Qed.

(** What [forecast_proxy] forwards, name by name: never [endpoint], every
    other name with the first value it was sent with; the upstream path is
    the first value sent as [endpoint], or ["forecast"] without one. *)
Theorem forecast_params_lookup (args : Flask.MultiDict) (w : World) :
  exists params,
    forecast_proxy cfg env args w
    = relay (_cached_forward cfg env
               (match Flask.args_get "endpoint" args with
                | Some e => e
                | None => "forecast"
                end) params w) /\
    forall k, Py.get k params
              = if String.eqb k "endpoint" then None
                else Flask.args_get k args.
Proof.
  exists (Py.remove "endpoint" (Flask.to_dict args)). split; [reflexivity|].
  intros k. unfold Flask.args_get.
  rewrite remove_filter by apply to_dict_NoDup.
  rewrite get_filter_key, to_dict_get. reflexivity.
Qed.

(** The view of [/forecast] with [endpoint=e] in the query does what the
    view of [/raw/<path:subpath>] does for the subpath [e] and the query
    without [endpoint].  This is stated for the values of [e] that the
    route can deliver as a subpath: for an empty [e] or one with a slash in
    front, no request to [/raw/...] reaches [raw_proxy]. *)
Theorem forecast_is_raw (args : Flask.MultiDict) (w : World) :
  Flask.path_converter (Flask.args_get_default "endpoint" "forecast" args)
  = true ->
  forecast_proxy cfg env args w
  = raw_proxy cfg env (Flask.args_get_default "endpoint" "forecast" args)
      (without "endpoint" args) w.
Proof.
  intros _. unfold forecast_proxy, raw_proxy. cbv zeta.
  rewrite to_dict_without, remove_filter by apply to_dict_NoDup.
  reflexivity.
Qed.

(** A query that names its coordinates [latitude] and [longitude], without
    [lat], [lon] or [endpoint], is the same call on [/weather] and on
    [/forecast]: same path, same parameters, hence the same cache entry. *)
Theorem weather_is_forecast (args : Flask.MultiDict) (w : World) :
  Py.truthy (Flask.args_get "latitude" args) = true ->
  Py.truthy (Flask.args_get "longitude" args) = true ->
  Flask.args_get "lat" args = None ->
  Flask.args_get "lon" args = None ->
  Flask.args_get "endpoint" args = None ->
  weather_proxy cfg env args w = forecast_proxy cfg env args w.
Proof.
  unfold Flask.args_get. intros A B La Lo E.
  unfold weather_proxy, forecast_proxy, Flask.args_get_default,
    Flask.args_get. cbv zeta.
  rewrite (or_else_truthy _ (Py.get "lat" args) A).
  rewrite (or_else_truthy _ (Py.get "lon" args) B).
  rewrite (or_else_truthy _ (Py.get "long" args) B).
  rewrite A, B, E. cbn [negb orb].
  unfold weather_params, rename. cbv zeta.
  rewrite !to_dict_get, La. rewrite to_dict_get, Lo.
  rewrite remove_absent by (now rewrite to_dict_get).
  reflexivity.
Qed.


End RouteProperties.

Lemma weather_lat_overrides_latitude_witness :
  Py.truthy (Flask.args_get "latitude"
               [("latitude", "10"); ("lat", ""); ("lon", "20")]) = true /\
  Flask.args_get "lat" [("latitude", "10"); ("lat", ""); ("lon", "20")]
  = Some "" /\
  Py.get "latitude"
    (weather_params [("latitude", "10"); ("lat", ""); ("lon", "20")])
  = Some "".
Proof.
  assert (H1 : Py.truthy (Flask.args_get "latitude"
                 [("latitude", "10"); ("lat", ""); ("lon", "20")]) = true)
    by reflexivity.
  assert (H2 : Flask.args_get "lat"
                 [("latitude", "10"); ("lat", ""); ("lon", "20")] = Some "")
    by reflexivity.
  assert (H3 : Py.truthy
                 (Py.or_else
                    (Py.or_else
                       (Flask.args_get "longitude"
                          [("latitude", "10"); ("lat", ""); ("lon", "20")])
                       (Flask.args_get "lon"
                          [("latitude", "10"); ("lat", ""); ("lon", "20")]))
                    (Flask.args_get "long"
                       [("latitude", "10"); ("lat", ""); ("lon", "20")]))
               = true) by reflexivity.
  split; [exact H1|]. split; [exact H2|].
  exact (proj2 (weather_lat_overrides_latitude default_config
                  (Sample.env_of Sample.up_temp) _ Sample.w0 "" H1 H2 H3)).
Defined.

Lemma weather_is_forecast_witness :
  Py.truthy (Flask.args_get "latitude" Sample.params) = true /\
  Py.truthy (Flask.args_get "longitude" Sample.params) = true /\
  Flask.args_get "lat" Sample.params = None /\
  Flask.args_get "lon" Sample.params = None /\
  Flask.args_get "endpoint" Sample.params = None /\
  weather_proxy default_config (Sample.env_of Sample.up_temp)
    Sample.params Sample.w0
  = forecast_proxy default_config (Sample.env_of Sample.up_temp)
      Sample.params Sample.w0.
Proof.
  assert (H1 : Py.truthy (Flask.args_get "latitude" Sample.params) = true)
    by reflexivity.
  assert (H2 : Py.truthy (Flask.args_get "longitude" Sample.params) = true)
    by reflexivity.
  assert (H3 : Flask.args_get "lat" Sample.params = None) by reflexivity.
  assert (H4 : Flask.args_get "lon" Sample.params = None) by reflexivity.
  assert (H5 : Flask.args_get "endpoint" Sample.params = None)
    by reflexivity.
  repeat (split; [assumption|]).
  exact (weather_is_forecast default_config (Sample.env_of Sample.up_temp)
           Sample.params Sample.w0 H1 H2 H3 H4 H5).
Defined.

Lemma forecast_is_raw_witness :
  Flask.path_converter
    (Flask.args_get_default "endpoint" "forecast"
       [("endpoint", "archive"); ("latitude", "10"); ("longitude", "20")])
  = true /\
  forecast_proxy default_config (Sample.env_of Sample.up_temp)
    [("endpoint", "archive"); ("latitude", "10"); ("longitude", "20")]
    Sample.w0
  = raw_proxy default_config (Sample.env_of Sample.up_temp) "archive"
      [("latitude", "10"); ("longitude", "20")] Sample.w0.
Proof.
  assert (H : Flask.path_converter
                (Flask.args_get_default "endpoint" "forecast"
                   [("endpoint", "archive"); ("latitude", "10");
                    ("longitude", "20")]) = true) by reflexivity.
  split; [exact H|].
  exact (forecast_is_raw default_config (Sample.env_of Sample.up_temp)
           [("endpoint", "archive"); ("latitude", "10"); ("longitude", "20")]
           Sample.w0 H).
Defined.
(** ** More about the client and the cached forward *)

Section ForwardProperties.
Import Cachetools CacheInv CacheFacts NetFacts AppFacts.

Variable cfg : Config.
Variable env : Env.

(** Leading slashes of the path do not reach upstream, but they do reach
    the cache key: [path] and ["/" + path] fetch the same URL and are cached
    under different keys. *)
Theorem leading_slash_same_fetch_other_key (path : string)
        (params : Py.dict) (n : Requests.Net) :
  _forward_get cfg env ("/" +++ path) params n
  = _forward_get cfg env path params n /\
  _cache_key ("/" +++ path) params <> _cache_key path params.
Proof.
  split; [reflexivity|].
  intros E. apply ReprFacts.cache_key_inj in E as [E _].
  apply (f_equal String.length) in E. simpl in E. lia.
Qed.

(** The status that [_forward_get] returns is 502 or lies outside
    400..599: an upstream 4xx or 5xx never comes back as such.  And what it
    raises is never a request exception. *)
Theorem forward_get_status (path : string) (params : Py.dict)
        (n : Requests.Net) :
  match fst (_forward_get cfg env path params n) with
  | Return (s, _) => (s = 502 \/ s < 400 \/ 600 <= s)%Z
  | Raise e => is_request_exception e = false
  end.
Proof.
  rewrite forward_get_eq.
  destruct (session_get _ _ _ _ _) as [[[req resp]|[k|m|m|m|e]] n1];
    simpl; try reflexivity; [|now left].
  unfold outcome_of.
  destruct (Z.leb_spec 400 (Requests.status_code resp));
    destruct (Z.ltb_spec (Requests.status_code resp) 600); simpl;
    try (left; reflexivity);
    destruct (json_loads env (Requests.text resp)) as [j|[k|m|m|m|e]];
    simpl; try reflexivity; lia.
Qed.

(** A fetch that returned although nothing is wrong with the URL had a
    positive time-out. *)
Lemma forward_get_returned_timeout (path : string) (params : Py.dict)
      (n n1 : Requests.Net) (v : Z * payload) :
  check_url env (Requests.url (request_for cfg path params)) = None ->
  _forward_get cfg env path params n = (Return v, n1) ->
  (0 < REQUEST_TIMEOUT cfg)%Z.
Proof.
  intros Cu F. destruct (Z.ltb_spec 0 (REQUEST_TIMEOUT cfg)) as [T|T];
    [exact T|exfalso].
  rewrite forward_get_eq, session_get_eq in F. unfold Requests.get in F.
  rewrite Cu in F.
  destruct (adapter_send_refused (upstream env) retries _
              {| Requests.method := "GET";
                 Requests.url := Requests.url (request_for cfg path params);
                 Requests.query := params |} n T) as [msg E].
  rewrite E in F. discriminate.
Qed.

(** A fetch with a usable URL and a positive time-out makes an attempt. *)
Lemma forward_get_attempts (path : string) (params : Py.dict)
      (n : Requests.Net) :
  check_url env (Requests.url (request_for cfg path params)) = None ->
  (0 < REQUEST_TIMEOUT cfg)%Z ->
  (List.length (Requests.sent n)
   < List.length (Requests.sent (snd (_forward_get cfg env path params n))))
  %nat.
Proof.
  intros Cu T.
  destruct (forward_get_runs cfg env path params n)
    as (runs & A & _ & C & _ & _ & F).
  rewrite A, length_app. specialize (F Cu T).
  destruct runs as [|[req k] runs]; [congruence|].
  inversion C as [|? ? [_ Hk] _]; subst. simpl in Hk.
  rewrite runs_log_cons, length_app, repeat_length. lia.
Qed.

(** A miss, whatever the configured size: when [_forward_get] returns,
    the call returns the same value. *)
Lemma cached_forward_miss_any (path : string) (params : Py.dict) (w : World)
      (v : Z * payload) (n1 : Requests.Net) :
  good cfg w ->
  hit (Requests.clock (net w)) (_cache_key path params) (cache w) = None ->
  _forward_get cfg env path params (net w) = (Return v, n1) ->
  exists c2,
    _cached_forward cfg env path params w
    = (Return v, {| net := n1; cache := c2 |}).
Proof.
  intros G H F. destruct (Z_lt_ge_dec (CACHE_MAXSIZE cfg) 1) as [Lt|Ge].
  - destruct G as (Gm & Gt & Gi). unfold _cached_forward. cbv zeta.
    pose proof (getitem_hit (Requests.clock (net w)) (_cache_key path params)
                  (cache w)) as E.
    rewrite H in E.
    destruct (getitem_conf (Requests.clock (net w)) (_cache_key path params)
                (cache w)) as (Cm & Ct & _ & _).
    destruct (getitem _ _ _) as [r c1]. simpl in E, Cm, Ct. subst r.
    rewrite F. unfold setitem.
    destruct (expire_conf (Requests.clock n1) c1) as [Em Et].
    assert (M : (maxsize (expire (Requests.clock n1) c1) <? 1)%Z = true)
      by (apply Z.ltb_lt; lia).
    rewrite M. eauto.
  - destruct (cached_forward_miss cfg env path params w v n1 G ltac:(lia)
                H F) as (c2 & C & _).
    eauto.
Qed.

(** [_cached_forward] adds no exception of its own, for any configured
    size: the [KeyError] of the lookup and the [ValueError] of a store that
    is refused stay inside.  It returns the live value under the key and
    leaves the network alone, or, without one, it does what
    [_forward_get] does: it returns what that returns or raises what that
    raises, and leaves the network as [_forward_get] left it.  The state it
    leaves is good again. *)
Theorem cached_forward_result (path : string) (params : Py.dict)
        (w : World) :
  good cfg w ->
  good cfg (snd (_cached_forward cfg env path params w)) /\
  match hit (Requests.clock (net w)) (_cache_key path params) (cache w) with
  | Some v0 =>
      fst (_cached_forward cfg env path params w) = Return v0 /\
      net (snd (_cached_forward cfg env path params w)) = net w
  | None =>
      fst (_cached_forward cfg env path params w)
      = fst (_forward_get cfg env path params (net w)) /\
      net (snd (_cached_forward cfg env path params w))
      = snd (_forward_get cfg env path params (net w))
  end.
Proof.
  intros G. split; [exact (proj1 (cached_forward_good cfg env _ _ _ G))|].
  destruct (hit (Requests.clock (net w)) (_cache_key path params) (cache w))
    as [v0|] eqn:H.
  - destruct (cached_forward_hit cfg env path params w v0 H) as [c1 C].
    now rewrite C.
  - destruct (_forward_get cfg env path params (net w)) as [[v|e] n1] eqn:F.
    + destruct (cached_forward_miss_any path params w v n1 G H F)
        as [c2 C].
      now rewrite C.
    + now rewrite (cached_forward_miss_raises cfg env _ _ _ _ _ H F).
Qed.

(** With [CACHE_MAXSIZE] below 1 nothing is ever cached: from an empty
    cache every call goes upstream and does what [_forward_get] does, with
    at least one attempt when the URL is usable and the time-out is
    positive, and leaves the cache empty. *)
Theorem size_below_one_never_caches (path : string) (params : Py.dict)
        (w : World) :
  (maxsize (cache w) < 1)%Z ->
  links (cache w) = [] ->
  fst (_cached_forward cfg env path params w)
  = fst (_forward_get cfg env path params (net w)) /\
  net (snd (_cached_forward cfg env path params w))
  = snd (_forward_get cfg env path params (net w)) /\
  links (cache (snd (_cached_forward cfg env path params w))) = [] /\
  maxsize (cache (snd (_cached_forward cfg env path params w)))
  = maxsize (cache w) /\
  (check_url env (Requests.url (request_for cfg path params)) = None ->
   (0 < REQUEST_TIMEOUT cfg)%Z ->
   (1 <= attempts cfg env path params (net w))%nat).
Proof.
  intros M L.
  assert (At : check_url env (Requests.url (request_for cfg path params))
               = None ->
               (0 < REQUEST_TIMEOUT cfg)%Z ->
               (1 <= attempts cfg env path params (net w))%nat).
  { intros Cu T. unfold attempts.
    pose proof (forward_get_attempts path params (net w) Cu T). lia. }
  unfold _cached_forward, getitem. cbv zeta. rewrite L. cbn [assoc].
  destruct (_forward_get cfg env path params (net w)) as [[v|e] n1] eqn:F;
    [|simpl; auto].
  unfold setitem.
  destruct (expire_conf (Requests.clock n1) (cache w)) as [Em Et].
  assert (Mx : (maxsize (expire (Requests.clock n1) (cache w)) <? 1)%Z
               = true) by (apply Z.ltb_lt; lia).
  rewrite Mx. simpl. split; [reflexivity|]. split; [reflexivity|].
  split; [|split; [exact Em|exact At]].
  destruct (expire_shrinks (Requests.clock n1) (cache w))
    as (_ & _ & _ & Le & _).
  rewrite L in Le. simpl in Le.
  destruct (links (expire (Requests.clock n1) (cache w)));
    [reflexivity|simpl in Le; lia].
Qed.

(** An entry is not served once its TTL has passed: a call for the same
    request at [store time + CACHE_TTL] or later goes upstream again, with
    at least one new attempt when the URL is usable, and does what
    [_forward_get] does then. *)
Theorem stale_entry_is_fetched_again (path : string) (params : Py.dict)
        (w : World) (v : Z * payload) (n1 : Requests.Net) :
  good cfg w ->
  (1 <= CACHE_MAXSIZE cfg)%Z ->
  hit (Requests.clock (net w)) (_cache_key path params) (cache w) = None ->
  _forward_get cfg env path params (net w) = (Return v, n1) ->
  exists c1,
    _cached_forward cfg env path params w
    = (Return v, {| net := n1; cache := c1 |}) /\
    forall t2,
      (Requests.clock n1 <= t2)%Z ->
      (Requests.clock n1 + CACHE_TTL cfg <= t2)%Z ->
      let w1 := at_time t2 {| net := n1; cache := c1 |} in
      fst (_cached_forward cfg env path params w1)
      = fst (_forward_get cfg env path params (net w1)) /\
      net (snd (_cached_forward cfg env path params w1))
      = snd (_forward_get cfg env path params (net w1)) /\
      (check_url env (Requests.url (request_for cfg path params)) = None ->
       (List.length (Requests.sent n1)
        < List.length
            (Requests.sent
               (net (snd (_cached_forward cfg env path params w1)))))%nat).
Proof.
  intros G M H F.
  destruct (cached_forward_miss cfg env path params w v n1 G M H F)
    as (c1 & C & G1 & A).
  exists c1. split; [exact C|].
  intros t2 L1 L2 w1.
  assert (H2 : hit (Requests.clock (net w1)) (_cache_key path params)
                 (cache w1) = None).
  { subst w1. simpl. unfold hit. rewrite A.
    destruct (Z.ltb_spec t2 (Requests.clock n1 + CACHE_TTL cfg));
      [lia|reflexivity]. }
  assert (G2 : good cfg w1) by (apply good_at_time; [exact G1|exact L1]).
  assert (R : fst (_cached_forward cfg env path params w1)
              = fst (_forward_get cfg env path params (net w1)) /\
              net (snd (_cached_forward cfg env path params w1))
              = snd (_forward_get cfg env path params (net w1))).
  { destruct (_forward_get cfg env path params (net w1)) as [[v2|e2] n2]
      eqn:F2.
    - destruct (cached_forward_miss_any path params w1 v2 n2 G2 H2 F2)
        as [c2 C2].
      now rewrite C2.
    - now rewrite (cached_forward_miss_raises cfg env _ _ _ _ _ H2 F2). }
  destruct R as [R1 R2].
  split; [exact R1|]. split; [exact R2|].
  intros Cu. rewrite R2.
  pose proof (forward_get_returned_timeout path params _ _ _ Cu F) as T.
  exact (forward_get_attempts path params (net w1) Cu T).
Qed.

End ForwardProperties.

(** ** More about the cache *)

Section CacheRoundTrip.
Import Cachetools CacheInv CacheFacts.
Context {V : Type}.

(** Store, then look up: with a monotonic clock and room for one value,
    [cache[k] = v] succeeds whatever was stored under [k] before, and every
    lookup of [k] before [t + ttl] returns [v]. *)
Theorem store_then_lookup (T t : Z) (k : string) (v : V) (c : TTLCache V) :
  Inv T c -> (T <= t)%Z -> (1 <= maxsize c)%Z ->
  exists c',
    setitem t k v c = (Return tt, c') /\
    forall t', (t' < t + ttl c)%Z -> fst (getitem t' k c') = Return v.
Proof.
  intros I L M.
  destruct (setitem_inv T t k v c I L M) as (c' & S & _ & _ & _ & A).
  exists c'. split; [exact S|]. intros t' Lt.
  rewrite getitem_hit. unfold hit. rewrite A.
  destruct (Z.ltb_spec t' (t + ttl c)); [reflexivity|lia].
Qed.


End CacheRoundTrip.

(** ** Retries are transparent *)

Section RetryProperties.
Import NetFacts AppFacts.

Variable cfg : Config.
Variable env : Env.

(** Retries are invisible in the result: when up to three attempts meet a
    network failure or a status of the force list and the next one gets a
    reply outside the force list (without Retry-After) that is not a
    redirect to follow, the fetch makes exactly that many attempts plus one
    and does what it would have done had that reply come first. *)
Theorem first_final_reply_decides (path : string) (params : Py.dict)
        (n : Requests.Net) (j : nat) (resp : Requests.Response) :
  check_url env (Requests.url (request_for cfg path params)) = None ->
  (0 < REQUEST_TIMEOUT cfg)%Z ->
  (j <= 3)%nat ->
  (forall i, (i < j)%nat ->
     retryable retries
       (Requests.outcome
          (upstream env (List.length (Requests.sent n) + i)%nat
             (request_for cfg path params)))
     = true) ->
  Requests.outcome
    (upstream env (List.length (Requests.sent n) + j)%nat
       (request_for cfg path params))
  = Requests.Replied resp ->
  Requests.mem_Z (Requests.status_code resp)
    (Requests.status_forcelist retries) = false ->
  Requests.retry_after resp = false ->
  Requests.is_redirect resp = false ->
  attempts cfg env path params n = (j + 1)%nat /\
  fst (_forward_get cfg env path params n)
  = result_of env (request_for cfg path params) resp.
Proof.
  intros Cu T Hj Hf Ho F R Rd.
  destruct (urlopen_first_final (upstream env) (request_for cfg path params)
              resp eq_refl
              F R 3 j n Hj Hf Ho) as (n' & U & Ln).
  unfold attempts, result_of. rewrite forward_get_eq, session_get_eq.
  rewrite (get_first_final _ _ _ _ _ _ _ _ _ _ _ Cu T U Rd).
  destruct (Requests.body_error resp) as [e|]; simpl;
    (split; [lia|reflexivity]).
Qed.

(** When all four attempts meet a network failure or a status of the force
    list, the fetch makes exactly four attempts and returns the 502 result
    whose detail describes the fourth failure. *)
Theorem exhausted_retries_report_last (path : string) (params : Py.dict)
        (n : Requests.Net) :
  check_url env (Requests.url (request_for cfg path params)) = None ->
  (0 < REQUEST_TIMEOUT cfg)%Z ->
  (forall i, (i <= 3)%nat ->
     retryable retries
       (Requests.outcome
          (upstream env (List.length (Requests.sent n) + i)%nat
             (request_for cfg path params)))
     = true) ->
  attempts cfg env path params n = 4%nat /\
  fst (_forward_get cfg env path params n)
  = Return (502%Z,
            upstream_error env
              (failure_of
                 (Requests.outcome
                    (upstream env (List.length (Requests.sent n) + 3)%nat
                       (request_for cfg path params))))).
Proof.
  intros Cu T Hf.
  destruct (urlopen_exhausted (upstream env) (request_for cfg path params)
              eq_refl 3 n Hf)
    as (n' & U & Ln).
  unfold attempts. rewrite forward_get_eq, session_get_eq.
  rewrite (get_first_raises _ _ _ _ _ _ _ _ _ _ _ Cu T U).
  simpl. split; [lia|reflexivity].
Qed.

End RetryProperties.

(** ** Statuses that reach the caller *)

Section StatusProperties.
Import Cachetools CacheInv CacheFacts NetFacts AppFacts.

Variable cfg : Config.
Variable env : Env.

Lemma forward_get_status_ok (path : string) (params : Py.dict)
      (n n' : Requests.Net) (v : Z * payload) :
  _forward_get cfg env path params n = (Return v, n') -> status_ok (fst v).
Proof.
  rewrite forward_get_eq. unfold status_ok.
  destruct (session_get _ _ _ _ _) as [[[req resp]|[x|x|x|x|e]] n1];
    try discriminate.
  - unfold outcome_of.
    destruct (Z.leb_spec 400 (Requests.status_code resp)) as [L1|L1];
      destruct (Z.ltb_spec (Requests.status_code resp) 600) as [L2|L2];
      simpl;
      try destruct (json_loads env (Requests.text resp)) as [j|[x|x|x|x|e]];
      try discriminate;
      intros E; injection E as <- _; simpl; lia.
  - intros E. injection E as <- _. simpl. lia.
Qed.

(** [_cached_forward] keeps the cache free of 4xx and 5xx statuses other
    than 502, and returns no such status. *)
Lemma cached_forward_ok (path : string) (params : Py.dict) (w : World) :
  cached_ok w ->
  cached_ok (snd (_cached_forward cfg env path params w)) /\
  match fst (_cached_forward cfg env path params w) with
  | Return v => status_ok (fst v)
  | Raise _ => True
  end.
Proof.
  intros Ok. unfold _cached_forward. cbv zeta.
  set (k := _cache_key path params). set (t := Requests.clock (net w)).
  pose proof (getitem_shrinks t k (cache w)) as (_ & _ & Inc & _).
  pose proof (getitem_hit t k (cache w)) as Gh.
  assert (Ok1 : forall k0 v0 e0,
            In (k0, (v0, e0)) (links (snd (getitem t k (cache w)))) ->
            status_ok (fst v0)).
  { intros k0 v0 e0 I. eapply Ok. apply Inc. exact I. }
  destruct (getitem t k (cache w)) as [r c1]. simpl in Ok1, Gh. subst r.
  unfold hit. destruct (assoc k (links (cache w))) as [[v0 e0]|] eqn:A.
  - destruct (t <? e0)%Z.
    + split; [exact Ok1|]. simpl. eapply Ok. eapply assoc_In. exact A.
    + destruct (_forward_get cfg env path params (net w)) as [[v|e] n1] eqn:F;
        [|now split].
      pose proof (forward_get_status_ok _ _ _ _ _ F) as Sv.
      destruct (setitem (Requests.clock n1) k v c1) as [r c2] eqn:S.
      destruct (setitem_spec _ _ _ _ _ _ S) as (_ & _ & _ & _ & E & _).
      assert (Ok2 : forall k0 v1 e1, In (k0, (v1, e1)) (links c2) ->
                                     status_ok (fst v1)).
      { intros k0 v1 e1 I. apply E in I as [I|[_ I]].
        - eapply Ok1. exact I.
        - injection I as _ -> _. exact Sv. }
      destruct r as [u|[x|x|x|x|x]]; simpl; split; auto.
  - destruct (_forward_get cfg env path params (net w)) as [[v|e] n1] eqn:F;
      [|now split].
    pose proof (forward_get_status_ok _ _ _ _ _ F) as Sv.
    destruct (setitem (Requests.clock n1) k v c1) as [r c2] eqn:S.
    destruct (setitem_spec _ _ _ _ _ _ S) as (_ & _ & _ & _ & E & _).
    assert (Ok2 : forall k0 v1 e1, In (k0, (v1, e1)) (links c2) ->
                                   status_ok (fst v1)).
    { intros k0 v1 e1 I. apply E in I as [I|[_ I]].
      - eapply Ok1. exact I.
      - injection I as _ -> _. exact Sv. }
    destruct r as [u|[x|x|x|x|x]]; simpl; split; auto.
Qed.

Lemma serve_cached_ok (calls : list Call) :
  forall w, cached_ok w -> cached_ok (serve cfg env calls w).
Proof.
  induction calls as [|c calls IH]; intros w Ok; [exact Ok|].
  simpl. apply IH. apply cached_forward_ok. exact Ok.
Qed.

Lemma start_cached_ok (t0 : Z) : cached_ok (start cfg t0).
Proof. intros k v e I. destruct I. Qed.

(** Whatever requests the process has served since it started, the next
    [_cached_forward] returns a status that is 502 or lies outside
    400..599: an upstream 4xx or 5xx reaches the caller as 502, from
    upstream and from the cache alike. *)
Theorem served_status_never_4xx (calls : list Call) (t0 : Z)
        (path : string) (params : Py.dict) :
  match fst (_cached_forward cfg env path params
               (serve cfg env calls (start cfg t0))) with
  | Return v => status_ok (fst v)
  | Raise _ => True
  end.
Proof.
  apply cached_forward_ok. apply serve_cached_ok. apply start_cached_ok.
Qed.

Lemma relay_status (r : result (Z * payload) * World)
      (resp : Flask.HttpResponse) (w' : World) :
  relay r = (Return resp, w') ->
  exists data, r = (Return (Flask.status resp, data), w').
Proof.
  destruct r as [[[s data]|e] w1]; simpl; [|discriminate].
  destruct data as [[| | | | |]|]; simpl; try discriminate;
    intros H; injection H as <- <-; eauto.
Qed.

(** So a 400 from [/weather] always means that the coordinates are missing:
    it carries the [missing_parameters] body and nothing was forwarded. *)
Theorem weather_400_means_missing (calls : list Call) (t0 : Z)
        (args : Flask.MultiDict) (resp : Flask.HttpResponse) (w' : World) :
  weather_proxy cfg env args (serve cfg env calls (start cfg t0))
  = (Return resp, w') ->
  Flask.status resp = 400%Z ->
  Flask.body resp = missing_parameters /\
  w' = serve cfg env calls (start cfg t0).
Proof.
  unfold weather_proxy. cbv zeta.
  destruct (negb _ || negb _).
  - intros H _. injection H as <- <-. now split.
  - pose proof (proj2 (cached_forward_ok "forecast" (weather_params args)
                         _ (serve_cached_ok calls _ (start_cached_ok t0))))
      as S.
    intros H E. apply relay_status in H as [data H]. rewrite H in S.
    simpl in S. rewrite E in S. unfold status_ok in S. lia.
Qed.

End StatusProperties.
(** ** The properties above on the sample surroundings *)

Lemma cached_forward_result_witness :
  good default_config Sample.w0 /\
  good default_config
    (snd (_cached_forward default_config (Sample.env_of Sample.up_503)
            "forecast" Sample.params Sample.w0)) /\
  match CacheInv.hit (Requests.clock (net Sample.w0))
          (_cache_key "forecast" Sample.params) (cache Sample.w0) with
  | Some v0 =>
      fst (_cached_forward default_config (Sample.env_of Sample.up_503)
             "forecast" Sample.params Sample.w0) = Return v0 /\
      net (snd (_cached_forward default_config (Sample.env_of Sample.up_503)
                  "forecast" Sample.params Sample.w0)) = net Sample.w0
  | None =>
      fst (_cached_forward default_config (Sample.env_of Sample.up_503)
             "forecast" Sample.params Sample.w0)
      = fst (_forward_get default_config (Sample.env_of Sample.up_503)
               "forecast" Sample.params (net Sample.w0)) /\
      net (snd (_cached_forward default_config (Sample.env_of Sample.up_503)
                  "forecast" Sample.params Sample.w0))
      = snd (_forward_get default_config (Sample.env_of Sample.up_503)
               "forecast" Sample.params (net Sample.w0))
  end.
Proof.
  assert (H1 : good default_config Sample.w0).
  { unfold good. simpl. repeat split; constructor. }
  split; [exact H1|].
  exact (cached_forward_result default_config (Sample.env_of Sample.up_503)
           "forecast" Sample.params Sample.w0 H1).
Defined.

Lemma size_below_one_never_caches_witness :
  (Cachetools.maxsize (cache (start (Sample.config_of_size 0) 0)) < 1)%Z /\
  Cachetools.links (cache (start (Sample.config_of_size 0) 0)) = [] /\
  check_url (Sample.env_of Sample.up_temp)
    (Requests.url
       (request_for (Sample.config_of_size 0) "forecast" Sample.params))
  = None /\
  (0 < REQUEST_TIMEOUT (Sample.config_of_size 0))%Z /\
  fst (_cached_forward (Sample.config_of_size 0)
         (Sample.env_of Sample.up_temp) "forecast" Sample.params
         (start (Sample.config_of_size 0) 0))
  = fst (_forward_get (Sample.config_of_size 0)
           (Sample.env_of Sample.up_temp) "forecast" Sample.params
           (net (start (Sample.config_of_size 0) 0))) /\
  Cachetools.links
    (cache (snd (_cached_forward (Sample.config_of_size 0)
                   (Sample.env_of Sample.up_temp) "forecast" Sample.params
                   (start (Sample.config_of_size 0) 0)))) = [] /\
  (1 <= attempts (Sample.config_of_size 0) (Sample.env_of Sample.up_temp)
          "forecast" Sample.params
          (net (start (Sample.config_of_size 0) 0)))%nat.
Proof.
  assert (H1 : (Cachetools.maxsize
                  (cache (start (Sample.config_of_size 0) 0)) < 1)%Z)
    by (simpl; lia).
  assert (H2 : Cachetools.links (cache (start (Sample.config_of_size 0) 0))
               = []) by reflexivity.
  assert (H3 : check_url (Sample.env_of Sample.up_temp)
                 (Requests.url
                    (request_for (Sample.config_of_size 0) "forecast"
                       Sample.params)) = None) by reflexivity.
  assert (H4 : (0 < REQUEST_TIMEOUT (Sample.config_of_size 0))%Z)
    by (simpl; lia).
  split; [exact H1|]. split; [exact H2|]. split; [exact H3|].
  split; [exact H4|].
  destruct (size_below_one_never_caches (Sample.config_of_size 0)
              (Sample.env_of Sample.up_temp) "forecast" Sample.params
              (start (Sample.config_of_size 0) 0) H1 H2)
    as (A & _ & B & _ & C).
  split; [exact A|]. split; [exact B|exact (C H3 H4)].
Defined.

Lemma stale_entry_is_fetched_again_witness :
  good default_config Sample.w0 /\
  (1 <= CACHE_MAXSIZE default_config)%Z /\
  CacheInv.hit (Requests.clock (net Sample.w0))
    (_cache_key "forecast" Sample.params) (cache Sample.w0) = None /\
  _forward_get default_config (Sample.env_of Sample.up_temp) "forecast"
    Sample.params (net Sample.w0)
  = (Return (200%Z, Json Sample.temp_json), Sample.after 1) /\
  exists c1,
    _cached_forward default_config (Sample.env_of Sample.up_temp) "forecast"
      Sample.params Sample.w0
    = (Return (200%Z, Json Sample.temp_json),
       {| net := Sample.after 1; cache := c1 |}) /\
    forall t2,
      (Requests.clock (Sample.after 1) <= t2)%Z ->
      (Requests.clock (Sample.after 1) + CACHE_TTL default_config <= t2)%Z ->
      let w1 := at_time t2 {| net := Sample.after 1; cache := c1 |} in
      fst (_cached_forward default_config (Sample.env_of Sample.up_temp)
             "forecast" Sample.params w1)
      = fst (_forward_get default_config (Sample.env_of Sample.up_temp)
               "forecast" Sample.params (net w1)) /\
      net (snd (_cached_forward default_config
                  (Sample.env_of Sample.up_temp) "forecast" Sample.params
                  w1))
      = snd (_forward_get default_config (Sample.env_of Sample.up_temp)
               "forecast" Sample.params (net w1)) /\
      (check_url (Sample.env_of Sample.up_temp)
         (Requests.url (request_for default_config "forecast" Sample.params))
       = None ->
       (List.length (Requests.sent (Sample.after 1))
        < List.length
            (Requests.sent
               (net (snd (_cached_forward default_config
                            (Sample.env_of Sample.up_temp) "forecast"
                            Sample.params w1)))))%nat).
Proof.
  assert (H1 : good default_config Sample.w0).
  { unfold good. simpl. repeat split; constructor. }
  assert (H2 : (1 <= CACHE_MAXSIZE default_config)%Z) by (simpl; lia).
  assert (H3 : CacheInv.hit (Requests.clock (net Sample.w0))
                 (_cache_key "forecast" Sample.params) (cache Sample.w0)
               = None) by reflexivity.
  assert (H4 : _forward_get default_config (Sample.env_of Sample.up_temp)
                 "forecast" Sample.params (net Sample.w0)
               = (Return (200%Z, Json Sample.temp_json), Sample.after 1))
    by reflexivity.
  split; [exact H1|]. split; [exact H2|]. split; [exact H3|].
  split; [exact H4|].
  exact (stale_entry_is_fetched_again default_config
           (Sample.env_of Sample.up_temp) "forecast" Sample.params Sample.w0
           _ _ H1 H2 H3 H4).
Defined.

Lemma store_then_lookup_witness :
  CacheInv.Inv 0 (@Cachetools.empty Z 2 60) /\
  (0 <= 5)%Z /\
  (1 <= Cachetools.maxsize (@Cachetools.empty Z 2 60))%Z /\
  exists c',
    Cachetools.setitem 5 "k" 7%Z (Cachetools.empty 2 60) = (Return tt, c') /\
    forall t',
      (t' < 5 + Cachetools.ttl (@Cachetools.empty Z 2 60))%Z ->
      fst (Cachetools.getitem t' "k" c') = Return 7%Z.
Proof.
  assert (H1 : CacheInv.Inv 0 (@Cachetools.empty Z 2 60))
    by (split; simpl; constructor).
  assert (H2 : (0 <= 5)%Z) by lia.
  assert (H3 : (1 <= Cachetools.maxsize (@Cachetools.empty Z 2 60))%Z)
    by (simpl; lia).
  split; [exact H1|]. split; [exact H2|]. split; [exact H3|].
  exact (store_then_lookup 0 5 "k" 7%Z _ H1 H2 H3).
Defined.


(** A lookup moves its key to the back of the order of use, so the next
    eviction takes another key. *)
Example lookup_refreshes_order :
  map fst
    (Cachetools.links
       (CacheInv.run_ops
          [CacheInv.Set_ 0 "a" 1%Z; CacheInv.Set_ 1 "b" 2%Z;
           CacheInv.Get 2 "a"; CacheInv.Set_ 3 "c" 3%Z]
          (Cachetools.empty 2 60)))
  = ["a"; "c"].
Proof. reflexivity. Qed.

Lemma first_final_reply_decides_witness :
  check_url (Sample.env_of Sample.up_flaky)
    (Requests.url (request_for default_config "forecast" Sample.params))
  = None /\
  (0 < REQUEST_TIMEOUT default_config)%Z /\
  (3 <= 3)%nat /\
  Requests.is_redirect (Sample.resp_of 200 Sample.temp_body) = false /\
  attempts default_config (Sample.env_of Sample.up_flaky) "forecast"
    Sample.params Sample.n0 = (3 + 1)%nat /\
  fst (_forward_get default_config (Sample.env_of Sample.up_flaky)
         "forecast" Sample.params Sample.n0)
  = result_of (Sample.env_of Sample.up_flaky)
      (request_for default_config "forecast" Sample.params)
      (Sample.resp_of 200 Sample.temp_body).
Proof.
  assert (H0 : check_url (Sample.env_of Sample.up_flaky)
                 (Requests.url
                    (request_for default_config "forecast" Sample.params))
               = None) by reflexivity.
  assert (HT : (0 < REQUEST_TIMEOUT default_config)%Z) by (simpl; lia).
  assert (H1 : (3 <= 3)%nat) by lia.
  assert (H2 : forall i, (i < 3)%nat ->
            retryable retries
              (Requests.outcome
                 (upstream (Sample.env_of Sample.up_flaky)
                    (List.length (Requests.sent Sample.n0) + i)%nat
                    (request_for default_config "forecast" Sample.params)))
            = true).
  { intros i Hi. simpl. unfold Sample.up_flaky.
    destruct (Nat.ltb_spec i 3); [reflexivity|lia]. }
  assert (H3 : Requests.outcome
                 (upstream (Sample.env_of Sample.up_flaky)
                    (List.length (Requests.sent Sample.n0) + 3)%nat
                    (request_for default_config "forecast" Sample.params))
               = Requests.Replied (Sample.resp_of 200 Sample.temp_body))
    by reflexivity.
  assert (H4 : Requests.mem_Z
                 (Requests.status_code (Sample.resp_of 200 Sample.temp_body))
                 (Requests.status_forcelist retries) = false)
    by reflexivity.
  assert (H5 : Requests.retry_after (Sample.resp_of 200 Sample.temp_body)
               = false) by reflexivity.
  assert (H6 : Requests.is_redirect (Sample.resp_of 200 Sample.temp_body)
               = false) by reflexivity.
  split; [exact H0|]. split; [exact HT|]. split; [exact H1|].
  split; [exact H6|].
  exact (first_final_reply_decides default_config
           (Sample.env_of Sample.up_flaky) "forecast" Sample.params
           Sample.n0 3 _ H0 HT H1 H2 H3 H4 H5 H6).
Defined.

Lemma exhausted_retries_report_last_witness :
  check_url (Sample.env_of Sample.up_503)
    (Requests.url (request_for default_config "forecast" Sample.params))
  = None /\
  (0 < REQUEST_TIMEOUT default_config)%Z /\
  attempts default_config (Sample.env_of Sample.up_503) "forecast"
    Sample.params Sample.n0 = 4%nat /\
  fst (_forward_get default_config (Sample.env_of Sample.up_503)
         "forecast" Sample.params Sample.n0)
  = Return (502%Z,
            upstream_error (Sample.env_of Sample.up_503)
              (failure_of
                 (Requests.outcome
                    (upstream (Sample.env_of Sample.up_503)
                       (List.length (Requests.sent Sample.n0) + 3)%nat
                       (request_for default_config "forecast"
                          Sample.params))))).
Proof.
  assert (H0 : check_url (Sample.env_of Sample.up_503)
                 (Requests.url
                    (request_for default_config "forecast" Sample.params))
               = None) by reflexivity.
  assert (HT : (0 < REQUEST_TIMEOUT default_config)%Z) by (simpl; lia).
  assert (H : forall i, (i <= 3)%nat ->
            retryable retries
              (Requests.outcome
                 (upstream (Sample.env_of Sample.up_503)
                    (List.length (Requests.sent Sample.n0) + i)%nat
                    (request_for default_config "forecast" Sample.params)))
            = true) by (intros i _; reflexivity).
  split; [exact H0|]. split; [exact HT|].
  exact (exhausted_retries_report_last default_config
           (Sample.env_of Sample.up_503) "forecast" Sample.params
           Sample.n0 H0 HT H).
Defined.

Lemma weather_400_means_missing_witness :
  weather_proxy default_config (Sample.env_of Sample.up_temp)
    [("lat", "10")] (serve default_config (Sample.env_of Sample.up_temp) []
                       (start default_config 0))
  = (Return {| Flask.status := 400; Flask.body := missing_parameters |},
     Sample.w0) /\
  Flask.status {| Flask.status := 400; Flask.body := missing_parameters |}
  = 400%Z /\
  Flask.body {| Flask.status := 400; Flask.body := missing_parameters |}
  = missing_parameters.
Proof.
  assert (H1 : weather_proxy default_config (Sample.env_of Sample.up_temp)
                 [("lat", "10")]
                 (serve default_config (Sample.env_of Sample.up_temp) []
                    (start default_config 0))
               = (Return {| Flask.status := 400;
                            Flask.body := missing_parameters |}, Sample.w0))
    by reflexivity.
  assert (H2 : Flask.status {| Flask.status := 400;
                               Flask.body := missing_parameters |} = 400%Z)
    by reflexivity.
  split; [exact H1|]. split; [exact H2|].
  exact (proj1 (weather_400_means_missing default_config
                  (Sample.env_of Sample.up_temp) [] 0 [("lat", "10")] _ _
                  H1 H2)).
Defined.
